(** * blackbox_exporter: the probe orchestrator of [main.go]

    A shallow embedding of [probeHandler] and [main] (the HTTP handlers, the
    whitelist construction and the reload loop) and the properties its
    specification states about them.

    Go values are modelled as the program has them: [float64] as Rocq's
    primitive binary64 floats, [time.Duration] as an integer number of
    nanoseconds, [net.IP] and [net.IPMask] as lists of bytes, the module table
    as a finite map keyed by strings, gauges and registries as cells of a
    heap addressed by pointers. *)

From Stdlib Require Import ZArith Floats List Ascii String Lia Bool.
From stdpp Require Import base option strings list gmap.

Local Open Scope string_scope.
Local Open Scope list_scope.
Local Open Scope Z_scope.

(** ** Strings *)

Module GoStrings.

  (** The double quote character, for messages built with [%q]. *)
Definition dquote : string := String (ascii_of_nat 34) EmptyString.

  (** [strings.Split(s, sep)] for a one-byte separator: the fields between
      the separators, one more than there are separators. *)
Fixpoint Split (s : string) (sep : ascii) : list string :=
    match s with
    | EmptyString => [EmptyString]
    | String c rest =>
        if Ascii.eqb c sep then EmptyString :: Split rest sep
        else match Split rest sep with
             | [] => [String c EmptyString]
             | f :: fs => String c f :: fs
             end
    end.

Definition is_empty (s : string) : bool :=
    match s with EmptyString => true | _ => false end.

End GoStrings.

(** ** float64 and time.Duration *)

Module GoTime.

  (** [float64(n)] for an [int64] [n]. *)
Definition float64_of_int (n : Z) : float :=
    if n <? 0 then PrimFloat.opp (PrimFloat.of_uint63 (Uint63.of_Z (- n)))
    else PrimFloat.of_uint63 (Uint63.of_Z n).

  (** [time.Duration] is an [int64] count of nanoseconds. *)
Definition Duration := Z.
Definition Nanosecond : Duration := 1.
Definition Second : Duration := 1000000000.

  (** [d.Seconds()]:
      [sec := d / Second; nsec := d % Second;
       return float64(sec) + float64(nsec)/1e9]
      with Go's division truncating towards zero. *)
Definition Seconds (d : Duration) : float :=
    let sec := Z.quot d Second in
    let nsec := Z.rem d Second in
    (float64_of_int sec + float64_of_int nsec / 1e9)%float.

Definition min_int64 : Z := - 2 ^ 63.
Definition max_int64 : Z := 2 ^ 63 - 1.

  (** The conversion [time.Duration(f)] of a [float64]: the fraction is
      discarded (truncation towards zero).  Go leaves the result of
      converting a NaN, an infinity or a value outside [int64] to the
      implementation; those are [None] here. *)
Definition int64_of_float64 (f : float) : option Z :=
    match Prim2SF f with
    | S754_zero _ => Some 0
    | S754_finite s m e =>
        let mag := if (0 <=? e) then Z.shiftl (Z.pos m) e
                   else Z.shiftr (Z.pos m) (- e) in
        let v := if s then - mag else mag in
        if (min_int64 <=? v) && (v <=? max_int64) then Some v else None
    | S754_infinity _ => None
    | S754_nan => None
    end.

End GoTime.

(** ** The part of Go's [net] package the whitelist uses

    [net.IP] and [net.IPMask] are byte slices; a [nil] result of a parser is
    [None].  The parsers follow the package's functions of the same names
    ([dtoi], [xtoi], [parseIPv4], [parseIPv6], [ParseIP], [CIDRMask],
    [IP.Mask], [IP.To4], [ParseCIDR], [IPNet.Contains]) as they stood in the
    Go releases contemporary with the repository. *)

Module GoNet.

Definition IP := list Z.
Definition IPMask := list Z.

Record IPNet := { IPNet_IP : IP; IPNet_Mask : IPMask }.

Definition IPv4len : nat := 4.
Definition IPv6len : nat := 16.

Definition v4InV6Prefix : list Z := [0; 0; 0; 0; 0; 0; 0; 0; 0; 0; 255; 255].

(** [IPv4(a, b, c, d)]: the 16-byte form of an IPv4 address. *)
Definition IPv4 (a b c d : Z) : IP := v4InV6Prefix ++ [a; b; c; d].

Definition code (c : ascii) : Z := Z.of_nat (nat_of_ascii c).

(** Bigger than we need, not too big to worry about overflow. *)
Definition big : Z := 16777215.

(** The digit loop of [dtoi]: the number read so far, the count of bytes
    consumed, whether the loop ended without overflow, and the rest. *)
Fixpoint dtoi_loop (s : string) (n : Z) (i : nat) : Z * nat * bool * string :=
  match s with
  | String c rest =>
      if (48 <=? code c) && (code c <=? 57) then
        let n' := n * 10 + (code c - 48) in
        if big <=? n' then (big, i, false, s) else dtoi_loop rest n' (S i)
      else (n, i, true, s)
  | EmptyString => (n, i, true, s)
  end.

(** [dtoi(s)]: decimal to integer; number, bytes consumed, success (and
    the unread rest of [s]). *)
Definition dtoi (s : string) : Z * nat * bool * string :=
  let '(n, i, ok, rest) := dtoi_loop s 0 0 in
  if negb ok then (big, i, false, rest)
  else if Nat.eqb i 0 then (0, 0%nat, false, s)
  else (n, i, true, rest).

Definition hexval (c : ascii) : option Z :=
  let x := code c in
  if (48 <=? x) && (x <=? 57) then Some (x - 48)
  else if (97 <=? x) && (x <=? 102) then Some (x - 97 + 10)
  else if (65 <=? x) && (x <=? 70) then Some (x - 65 + 10)
  else None.

Fixpoint xtoi_loop (s : string) (n : Z) (i : nat) : Z * nat * bool * string :=
  match s with
  | String c rest =>
      match hexval c with
      | Some d =>
          let n' := n * 16 + d in
          if big <=? n' then (0, i, false, s) else xtoi_loop rest n' (S i)
      | None => (n, i, true, s)
      end
  | EmptyString => (n, i, true, s)
  end.

(** [xtoi(s)]: hexadecimal to integer. *)
Definition xtoi (s : string) : Z * nat * bool * string :=
  let '(n, i, ok, rest) := xtoi_loop s 0 0 in
  if negb ok then (0, i, false, rest)
  else if Nat.eqb i 0 then (0, 0%nat, false, s)
  else (n, i, true, rest).

(** The loop of [parseIPv4] over the octets still to read; [first] is
    [i == 0]. *)
Fixpoint parseIPv4_octets (k : nat) (first : bool) (s : string)
  : option (list Z * string) :=
  match k with
  | O => Some ([], s)
  | S k' =>
      if GoStrings.is_empty s then None
      else
        let after_dot :=
          if first then Some s
          else match s with
               | String c r => if Ascii.eqb c "."%char then Some r else None
               | EmptyString => None
               end in
        match after_dot with
        | None => None
        | Some s1 =>
            let '(n, _, ok, rest) := dtoi s1 in
            if negb ok || (255 <? n) then None
            else match parseIPv4_octets k' false rest with
                 | Some (p, s') => Some (n :: p, s')
                 | None => None
                 end
        end
  end.

(** [parseIPv4(s)]: an IPv4 address [d.d.d.d]. *)
Definition parseIPv4 (s : string) : option IP :=
  match parseIPv4_octets IPv4len true s with
  | Some ([a; b; c; d], EmptyString) => Some (IPv4 a b c d)
  | _ => None
  end.

(** What one turn of the loop of [parseIPv6] leaves: the address bytes
    [ip], the write position [i], the position of the ellipsis (if any) and
    the unread input. *)
Record v6state := {
  v6_ip : list Z;
  v6_i : nat;
  v6_ellipsis : option nat;
  v6_s : string
}.

Definition is_Some_b {A} (o : option A) : bool :=
  match o with Some _ => true | None => false end.

Inductive v6turn :=
| V6Fail                      (* return nil *)
| V6Break (st : v6state)      (* break *)
| V6Next (st : v6state).      (* next iteration *)

(** The body of [for i < IPv6len { ... }] in [parseIPv6]. *)
Definition parseIPv6_body (st : v6state) : v6turn :=
  let ip := v6_ip st in
  let i := v6_i st in
  let s := v6_s st in
  let '(n, _, ok, rest) := xtoi s in
  if negb ok || (65535 <? n) then V6Fail
  else
    match rest with
    | String "."%char _ =>
        (* If followed by dot, might be in trailing IPv4. *)
        if negb (is_Some_b (v6_ellipsis st))
           && negb (Nat.eqb i (IPv6len - IPv4len))
        then V6Fail
        else if (IPv6len <? i + IPv4len)%nat then V6Fail
        else
          match parseIPv4 s with
          | None => V6Fail
          | Some ip4 =>
              let ip := <[i := ip4 !!! 12%nat]> ip in
              let ip := <[S i := ip4 !!! 13%nat]> ip in
              let ip := <[S (S i) := ip4 !!! 14%nat]> ip in
              let ip := <[S (S (S i)) := ip4 !!! 15%nat]> ip in
              V6Break {| v6_ip := ip; v6_i := (i + IPv4len)%nat;
                         v6_ellipsis := v6_ellipsis st; v6_s := "" |}
          end
    | _ =>
        (* Save this 16-bit chunk. *)
        let ip := <[i := Z.shiftr n 8]> ip in
        let ip := <[S i := Z.land n 255]> ip in
        let i := (i + 2)%nat in
        match rest with
        | EmptyString =>
            (* Stop at end of string. *)
            V6Break {| v6_ip := ip; v6_i := i;
                       v6_ellipsis := v6_ellipsis st; v6_s := "" |}
        | String c s1 =>
            (* Otherwise must be followed by colon and more. *)
            if negb (Ascii.eqb c ":"%char) || GoStrings.is_empty s1 then V6Fail
            else
              match s1 with
              | String ":"%char s2 =>
                  (* Look for ellipsis. *)
                  match v6_ellipsis st with
                  | Some _ => V6Fail   (* already have one *)
                  | None =>
                      let st' := {| v6_ip := ip; v6_i := i;
                                    v6_ellipsis := Some i; v6_s := s2 |} in
                      if GoStrings.is_empty s2 then V6Break st' else V6Next st'
                  end
              | _ => V6Next {| v6_ip := ip; v6_i := i;
                               v6_ellipsis := v6_ellipsis st; v6_s := s1 |}
              end
        end
    end.

(** The loop itself; every turn advances [i] by two, so eight turns
    exhaust [i < IPv6len]. *)
Fixpoint parseIPv6_loop (turns : nat) (st : v6state) : option v6state :=
  if (v6_i st <? IPv6len)%nat then
    match turns with
    | O => None
    | S turns' =>
        match parseIPv6_body st with
        | V6Fail => None
        | V6Break st' => Some st'
        | V6Next st' => parseIPv6_loop turns' st'
        end
    end
  else Some st.

(** The two loops that expand the ellipsis:
    [for j := i - 1; j >= ellipsis; j-- { ip[j+n] = ip[j] }] and
    [for j := ellipsis + n - 1; j >= ellipsis; j-- { ip[j] = 0 }]. *)
Definition expand_ellipsis (ip : list Z) (i ellipsis : nat) : list Z :=
  let n := (IPv6len - i)%nat in
  let ip := foldl (fun ip j => <[(j + n)%nat := ip !!! j]> ip) ip
                  (rev (seq ellipsis (i - ellipsis))) in
  foldl (fun ip j => <[j := 0]> ip) ip (rev (seq ellipsis n)).

(** [parseIPv6(s)] without a zone: an IPv6 address of RFC 4291 and
    RFC 5952, possibly ending in a dotted IPv4 address. *)
Definition parseIPv6 (s : string) : option IP :=
  let ip0 := replicate IPv6len 0 in
  let finish (st : v6state) : option IP :=
    (* Must have used entire string. *)
    if negb (GoStrings.is_empty (v6_s st)) then None
    else if (v6_i st <? IPv6len)%nat then
      (* If didn't parse enough, expand ellipsis. *)
      match v6_ellipsis st with
      | None => None
      | Some e => Some (expand_ellipsis (v6_ip st) (v6_i st) e)
      end
    else match v6_ellipsis st with
         | Some _ => None   (* Ellipsis must represent at least one 0 group. *)
         | None => Some (v6_ip st)
         end in
  match s with
  | String ":"%char (String ":"%char s') =>
      (* Might have leading ellipsis; might be only ellipsis. *)
      if GoStrings.is_empty s' then Some ip0
      else
        match parseIPv6_loop 8 {| v6_ip := ip0; v6_i := 0;
                                  v6_ellipsis := Some 0%nat; v6_s := s' |} with
        | Some st => finish st
        | None => None
        end
  | _ =>
      match parseIPv6_loop 8 {| v6_ip := ip0; v6_i := 0;
                                v6_ellipsis := None; v6_s := s |} with
      | Some st => finish st
      | None => None
      end
  end.

(** The scan of [ParseIP]: the first of ['.'] and [':'] in [s] decides
    which parser reads the whole of [s0]. *)
Fixpoint ParseIP_scan (s0 s : string) : option IP :=
  match s with
  | EmptyString => None
  | String c rest =>
      if Ascii.eqb c "."%char then parseIPv4 s0
      else if Ascii.eqb c ":"%char then parseIPv6 s0
      else ParseIP_scan s0 rest
  end.

(** [net.ParseIP(s)]. *)
Definition ParseIP (s : string) : option IP := ParseIP_scan s s.

Definition isZeros (p : list Z) : bool := forallb (Z.eqb 0) p.

(** [ip.To4()]: the 4-byte form of an IPv4 address, [nil] otherwise. *)
Definition To4 (ip : IP) : option IP :=
  if Nat.eqb (length ip) IPv4len then Some ip
  else if Nat.eqb (length ip) IPv6len
          && isZeros (take 10 ip)
          && (ip !!! 10%nat =? 255) && (ip !!! 11%nat =? 255)
       then Some (drop 12 ip)
       else None.

(** [CIDRMask(ones, bits)]. *)
Definition CIDRMask (ones bits : Z) : option IPMask :=
  if negb (bits =? 32) && negb (bits =? 128) then None
  else if (ones <? 0) || (bits <? ones) then None
  else
    let l := Z.to_nat (bits / 8) in
    Some (map (fun i : nat =>
                 let n := ones - 8 * Z.of_nat i in
                 if 8 <=? n then 255
                 else if n <=? 0 then 0
                 else Z.land (Z.lnot (Z.shiftr 255 n)) 255)
              (seq 0 l)).

Definition allFF (b : list Z) : bool := forallb (Z.eqb 255) b.

Definition bytesEqual (x y : list Z) : bool :=
  Nat.eqb (length x) (length y) && forallb (fun p => fst p =? snd p) (zip x y).

(** [ip.Mask(mask)]. *)
Definition Mask (ip : IP) (mask : IPMask) : option IP :=
  let mask :=
    if Nat.eqb (length mask) IPv6len && Nat.eqb (length ip) IPv4len
       && allFF (take 12 mask)
    then drop 12 mask else mask in
  let ip :=
    if Nat.eqb (length mask) IPv4len && Nat.eqb (length ip) IPv6len
       && bytesEqual (take 12 ip) v4InV6Prefix
    then drop 12 ip else ip in
  if negb (Nat.eqb (length ip) (length mask)) then None
  else Some (zip_with Z.land ip mask).

(** The split of [ParseCIDR] at the first ['/']. *)
Fixpoint cut_slash (s : string) : option (string * string) :=
  match s with
  | EmptyString => None
  | String c rest =>
      if Ascii.eqb c "/"%char then Some (EmptyString, rest)
      else match cut_slash rest with
           | Some (a, m) => Some (String c a, m)
           | None => None
           end
  end.

(** [net.ParseCIDR(s)]: the network of ["192.0.2.0/24"] or
    ["2001:db8::/32"]; [None] stands for the [ParseError]. *)
Definition ParseCIDR (s : string) : option (IP * IPNet) :=
  match cut_slash s with
  | None => None
  | Some (addr, mask) =>
      let '(iplen, ip) :=
        match parseIPv4 addr with
        | Some ip => (IPv4len, Some ip)
        | None => (IPv6len, parseIPv6 addr)
        end in
      let '(n, _, ok, rest) := dtoi mask in
      match ip with
      | None => None
      | Some ip =>
          if negb ok || negb (GoStrings.is_empty rest)
             || (n <? 0) || (8 * Z.of_nat iplen <? n) then None
          else
            match CIDRMask n (8 * Z.of_nat iplen) with
            | None => None
            | Some m =>
                match Mask ip m with
                | Some nip => Some (ip, {| IPNet_IP := nip; IPNet_Mask := m |})
                | None => None
                end
            end
      end
  end.

(** [networkNumberAndMask(n)]. *)
Definition networkNumberAndMask (n : IPNet) : option (IP * IPMask) :=
  let ip :=
    match To4 (IPNet_IP n) with
    | Some ip => Some ip
    | None => if Nat.eqb (length (IPNet_IP n)) IPv6len
              then Some (IPNet_IP n) else None
    end in
  match ip with
  | None => None
  | Some ip =>
      let m := IPNet_Mask n in
      if Nat.eqb (length m) IPv4len then
        if Nat.eqb (length ip) IPv4len then Some (ip, m) else None
      else if Nat.eqb (length m) IPv6len then
        if Nat.eqb (length ip) IPv4len then Some (ip, drop 12 m)
        else Some (ip, m)
      else None
  end.

(** [n.Contains(ip)]: whether the network includes [ip]. *)
Definition Contains (n : IPNet) (ip : IP) : bool :=
  let '(nn, m) := from_option id ([], []) (networkNumberAndMask n) in
  let ip := from_option id ip (To4 ip) in
  if negb (Nat.eqb (length ip) (length nn)) then false
  else forallb (fun t : Z * Z * Z =>
                  let '(a, b, k) := t in Z.land a k =? Z.land b k)
               (zip (zip nn ip) m).

End GoNet.


(** ** Package [config]: the module table

    The type declarations of package [config] are not among the sources;
    the fields are those [main.go] reads ([Modules], [Prober], [Timeout]).
    The protocol-specific settings of a module are opaque to [main.go] and
    kept as one value. *)

Module Config.

Record ConfigModule := {
  Prober : string;
  Timeout : GoTime.Duration;
  Settings : string
}.

(** [config.Config]: [Modules map[string]Module]. *)
Record Config := { Modules : gmap string ConfigModule }.

End Config.

(** ** HTTP requests and response writers *)

Module Http.

Record Request := {
  Method : string;
  Path : string;
  (** [r.URL.Query()], the pairs in the order of the query string *)
  Query : list (string * string);
  (** [r.Header], keys in canonical form *)
  Header : list (string * string);
  (** the originating address of the request *)
  RemoteIP : GoNet.IP
}.

(** [Values.Get(key)] and [Header.Get(key)]: the first value associated
    with the key, the empty string if there is none. *)
Definition Get (vs : list (string * string)) (key : string) : string :=
  match find (fun kv => String.eqb (fst kv) key) vs with
  | Some kv => snd kv
  | None => ""
  end.

(** An [http.ResponseWriter]: the status line once written, and the body
    written so far. *)
Record ResponseWriter := { Status : option Z; Body : string }.

Definition newResponseWriter : ResponseWriter :=
  {| Status := None; Body := "" |}.

(** [w.WriteHeader(code)]; a second call changes nothing. *)
Definition writeHeader (code : Z) (rw : ResponseWriter) : ResponseWriter :=
  match Status rw with
  | Some _ => rw
  | None => {| Status := Some code; Body := Body rw |}
  end.

(** [w.Write(b)]: writes the header with [200] first if it was not
    written. *)
Definition write (b : string) (rw : ResponseWriter) : ResponseWriter :=
  let rw := writeHeader 200 rw in
  {| Status := Status rw; Body := Body rw +:+ b |}.

Definition newline : string := String (ascii_of_nat 10) EmptyString.

(** [http.Error(w, msg, code)]: [w.WriteHeader(code); fmt.Fprintln(w, msg)]. *)
Definition error (msg : string) (code : Z) (rw : ResponseWriter) : ResponseWriter :=
  write (msg +:+ newline) (writeHeader code rw).

(** The status the client sees: a handler that returns without writing
    anything answers [200]. *)
Definition sentStatus (rw : ResponseWriter) : Z := default 200 (Status rw).

Definition StatusInternalServerError : Z := 500.
Definition StatusMethodNotAllowed : Z := 405.

End Http.

(** ** The world a handler runs in *)

Module Runtime.
Import Config Http.

Definition ptr := positive.

(** [context.WithTimeout(context.Background(), d)]: created at [ctx_created]
    with the timeout [d]. *)
Record Context := { ctx_created : Z; ctx_timeout : option Z }.

(** A [prometheus.Gauge]: its [GaugeOpts] and its current value. *)
Record Gauge := { gauge_Name : string; gauge_Help : string; gauge_value : float }.

(** One sample as a registry gathers it. *)
Record Metric := { metric_Name : string; metric_Help : string; metric_value : float }.

(** What a registry holds: a pointer to a gauge registered by the handler,
    or a measurement a prober registered. *)
Inductive Collector :=
| CGauge (g : ptr)
| CMetric (m : Metric).

(** The functions of package [prober] that [Probers] names. *)
Inductive ProbeFn := ProbeHTTP | ProbeTCP | ProbeICMP | ProbeDNS.

(** What a call of a prober does, as far as the orchestrator sees it. *)
Record ProbeOutcome := {
  po_success : bool;
  po_registered : list Metric;
  po_elapsed : Z
}.

Inductive LogLevel := LInfo | LWarn | LError | LFatal.

(** The operations a handler performs on its surroundings. *)
Inductive Op :=
| HttpError (w : ptr) (msg : string) (code : Z)
| WriteHeader (w : ptr) (code : Z)
| WriteBody (w : ptr) (b : string)
| WithTimeout (d : option Z)
| Cancel (ctx : Context)
| NewGauge (Name Help : string)
| NewRegistry
| MustRegister (registry g : ptr)
| GaugeSet (g : ptr) (v : float)
| TimeNow
| CallProber (fn : ProbeFn) (ctx : Context) (target : string)
             (module : ConfigModule) (registry : ptr)
| Gather (registry : ptr)
| LockedConfig
| MarshalConfig
| MakeChan
| SendReloadCh (rc : ptr)
| ChanRecv (rc : ptr)
| ChanSend (rc : ptr) (err : option string)
| ReloadConfigOp (confFile : string)
| Log (lvl : LogLevel) (msg : string).

(** The type of the value an operation returns. *)
Definition Ret (o : Op) : Type :=
  match o with
  | WithTimeout _ => Context
  | NewGauge _ _ | NewRegistry | MakeChan => ptr
  | TimeNow => Z
  | CallProber _ _ _ _ _ => bool
  | Gather _ => list Metric
  | LockedConfig => Config
  | MarshalConfig => (string + string)%type
  | ChanRecv _ | ReloadConfigOp _ => option string
  | _ => unit
  end.

(** A handler: a tree of operations, each continued with its result. *)
Inductive Prog (A : Type) : Type :=
| Done (a : A)
| Do (o : Op) (k : Ret o -> Prog A).

Arguments Done {A} a.
Arguments Do {A} o k.

Fixpoint bind {A B} (p : Prog A) (f : A -> Prog B) : Prog B :=
  match p with
  | Done a => f a
  | Do o k => Do o (fun x => bind (k x) f)
  end.

Definition perform (o : Op) : Prog (Ret o) := Do o Done.

(** The process-wide state the handlers share, and the cells they
    allocate. *)
Record World := {
  clock : Z;
  gauges : gmap ptr Gauge;
  registries : gmap ptr (list Collector);
  writers : gmap ptr ResponseWriter;
  chans : gmap ptr (list (option string));
  (** [sc.C], the active Configuration *)
  sc_C : Config;
  (** the files on disk, by name *)
  files : gmap string string;
  logged : list (LogLevel * string);
  (** every operation performed so far, oldest first *)
  trace : list Op
}.

Definition set_clock (t : Z) (w : World) : World :=
  {| clock := t; gauges := gauges w; registries := registries w;
     writers := writers w; chans := chans w; sc_C := sc_C w;
     files := files w; logged := logged w; trace := trace w |}.

Definition set_gauges (g : gmap ptr Gauge) (w : World) : World :=
  {| clock := clock w; gauges := g; registries := registries w;
     writers := writers w; chans := chans w; sc_C := sc_C w;
     files := files w; logged := logged w; trace := trace w |}.

Definition set_registries (r : gmap ptr (list Collector)) (w : World) : World :=
  {| clock := clock w; gauges := gauges w; registries := r;
     writers := writers w; chans := chans w; sc_C := sc_C w;
     files := files w; logged := logged w; trace := trace w |}.

Definition set_writers (ws : gmap ptr ResponseWriter) (w : World) : World :=
  {| clock := clock w; gauges := gauges w; registries := registries w;
     writers := ws; chans := chans w; sc_C := sc_C w;
     files := files w; logged := logged w; trace := trace w |}.

Definition set_chans (cs : gmap ptr (list (option string))) (w : World) : World :=
  {| clock := clock w; gauges := gauges w; registries := registries w;
     writers := writers w; chans := cs; sc_C := sc_C w;
     files := files w; logged := logged w; trace := trace w |}.

Definition set_sc_C (c : Config) (w : World) : World :=
  {| clock := clock w; gauges := gauges w; registries := registries w;
     writers := writers w; chans := chans w; sc_C := c;
     files := files w; logged := logged w; trace := trace w |}.

Definition set_logged (l : list (LogLevel * string)) (w : World) : World :=
  {| clock := clock w; gauges := gauges w; registries := registries w;
     writers := writers w; chans := chans w; sc_C := sc_C w;
     files := files w; logged := l; trace := trace w |}.

Definition set_trace (t : list Op) (w : World) : World :=
  {| clock := clock w; gauges := gauges w; registries := registries w;
     writers := writers w; chans := chans w; sc_C := sc_C w;
     files := files w; logged := logged w; trace := t |}.

(** The response writer behind [w]. *)
Definition writer (w : ptr) (W : World) : ResponseWriter :=
  default newResponseWriter (writers W !! w).

Definition on_writer (w : ptr) (f : ResponseWriter -> ResponseWriter)
  (W : World) : World :=
  set_writers (<[w := f (writer w W)]> (writers W)) W.

(** The sample of a gauge. *)
Definition sample_of (c : Gauge) : Metric :=
  {| metric_Name := gauge_Name c; metric_Help := gauge_Help c;
     metric_value := gauge_value c |}.

(** What a registry yields for one of its collectors. *)
Definition collect (G : gmap ptr Gauge) (c : Collector) : option Metric :=
  match c with
  | CGauge g => sample_of <$> G !! g
  | CMetric m => Some m
  end.

(** [registry.Gather()]: the samples of the collectors of the registry, in
    the order of their registration. *)
Definition gather (registry : ptr) (W : World) : list Metric :=
  omap (collect (gauges W)) (default [] (registries W !! registry)).

(** [registry.MustRegister(c...)]. *)
Definition register (registry : ptr) (cs : list Collector) (W : World) : World :=
  set_registries
    (<[registry := default [] (registries W !! registry) ++ cs]> (registries W)) W.

(** [g.Set(v)]. *)
Definition gauge_set (g : ptr) (v : float) (W : World) : World :=
  set_gauges
    (alter (fun c => {| gauge_Name := gauge_Name c; gauge_Help := gauge_Help c;
                        gauge_value := v |}) g (gauges W)) W.

(** A prober returning: its measurements are in the registry it was
    given, and the time it took has passed. *)
Definition probed (registry : ptr) (out : ProbeOutcome) (W : World) : World :=
  set_clock (clock W + po_elapsed out)
    (register registry (map CMetric (po_registered out)) W).

End Runtime.

(** ** What the orchestrator calls and does not define

    Functions of Go's library and of the packages of the repository whose
    code [main.go] only calls.  Results that carry an [error] are sums
    whose right side is the error's text. *)

Module Collab.
Import Config Http Runtime.

Class Collaborators := {
  (** [strconv.ParseFloat(v, 64)] *)
  ParseFloat : string -> float + string;
  (** the verb [%q] of [fmt.Sprintf] *)
  Quote : string -> string;
  (** the parser and merger behind [config.RecoverConfig] *)
  ParseAndMerge : string -> ConfigModule -> ConfigModule + string;
  (** the parser of the configuration file *)
  UnmarshalConfig : string -> Config + string;
  (** the validation of a parsed configuration: an error, or none *)
  ValidateConfig : Config -> option string;
  (** [yaml.Marshal(sc.C)] *)
  MarshalYAML : Config -> string + string;
  (** the exposition format of the gathered samples *)
  Expfmt : list Metric -> string;
  (** the outcome of calling a prober at the given clock reading *)
  Probe : ProbeFn -> Context -> string -> ConfigModule -> Z -> ProbeOutcome;
  (** the response of the access gate to a denied client *)
  DenyStatus : Z;
  DenyMessage : string;
  DenyStatus_client_error : 400 <= DenyStatus < 500
}.

End Collab.

(** ** Package [main] *)

Module Exporter.
Import Config Http Runtime Collab GoNet.

(** The command line flags of [main.go]. *)
Record Flags := {
  configFile : string;
  listenAddress : string;
  timeoutOffset : float;
  ipWhitelistString : string
}.

(** Their [Default(...)] values. *)
Definition defaultFlags : Flags :=
  {| configFile := "blackbox.yml";
     listenAddress := ":9115";
     timeoutOffset := 0.5%float;
     ipWhitelistString := "0.0.0.0/0,::/0" |}.

(** [Probers]: the dispatch table from protocol kind to prober. *)
Definition Probers : gmap string ProbeFn :=
  <["http" := ProbeHTTP]> (<["tcp" := ProbeTCP]>
    (<["icmp" := ProbeICMP]> (<["dns" := ProbeDNS]> ∅))).

(** The registry [prometheus.MustRegister] and [promhttp.Handler] use. *)
Definition DefaultRegistry : ptr := 1%positive.

Notation "x <- o ;; k" := (Do o (fun x => k))
  (at level 100, o at next level, right associativity).
Notation "o ;;; k" := (Do o (fun _ => k))
  (at level 100, right associativity).
Notation "'let*' x := p 'in' k" := (bind p (fun x => k))
  (at level 100, x name, p at next level, right associativity).

Section WithCollaborators.
Context `{Collaborators}.

(** Modelled from the spec: [config.RecoverConfig] (package [config] is not
    among the sources).  "parse and merge it onto a copy of the resolved
    module (never mutate the shared Configuration); reject on parse/merge
    failure, with the parser's error": a function of the override text and
    of the module value it is given, returning the merged module or the
    parser's error. *)
Definition RecoverConfig (configData : string) (module : ConfigModule)
  : ConfigModule + string :=
  ParseAndMerge configData module.

(** Modelled from the spec: [SafeConfig.ReloadConfig] (package [config] is
    not among the sources).  One reload attempt: read the file, parse,
    validate, build the Configuration.  "On success: install the new
    Configuration into the Store.  On failure (file unreadable, parse
    error, validation error): leave the Store's current Configuration
    untouched".  The result is the error, if any. *)
Definition ReloadConfig (confFile : string) (W : World) : option string * World :=
  match files W !! confFile with
  | None => (Some ("Error reading config file: " +:+ confFile), W)
  | Some yamlFile =>
      match UnmarshalConfig yamlFile with
      | inr e => (Some ("Error parsing config file: " +:+ e), W)
      | inl c =>
          match ValidateConfig c with
          | Some e => (Some e, W)
          | None => (None, set_sc_C c W)
          end
      end
  end.

(** Modelled from the spec: the decision of [promhttp.CheckInIpWhitelist]
    (the modified package [promhttp] is not among the sources).  "address
    is allowed iff it falls inside at least one whitelist range; address
    family mismatches never match". *)
Definition inWhitelist (ip : IP) (ipWhitelist : list IPNet) : bool :=
  existsb (fun n => Contains n ip) ipWhitelist.

(** Modelled from the spec: [promhttp.CheckInIpWhitelist(w, r, ipWhitelist)].
    "On deny: respond with a client-error status": the result tells the
    caller whether to go on. *)
Definition CheckInIpWhitelist (w : ptr) (r : Request) (ipWhitelist : list IPNet)
  : Prog bool :=
  if inWhitelist (RemoteIP r) ipWhitelist then Done true
  else HttpError w DenyMessage DenyStatus ;;; Done false.

(** Modelled from the spec: [promhttp.HandlerFor(registry, opts,
    ipWhitelist).ServeHTTP(w, r)].  Access control applies as on every
    endpoint; then "render the metrics container in the standard exposition
    format as the response body, status 200". *)
Definition HandlerFor_ServeHTTP (registry : ptr) (ipWhitelist : list IPNet)
  (w : ptr) (r : Request) : Prog unit :=
  let* ok := CheckInIpWhitelist w r ipWhitelist in
  if negb ok then Done tt
  else
    mfs <- Gather registry ;;
    WriteBody w (Expfmt mfs) ;;;
    Done tt.

(** Modelled from the spec: [promhttp.Handler(ipWhitelist)], the handler of
    [/metrics]: the same over the default registry. *)
Definition Handler (ipWhitelist : list IPNet) (w : ptr) (r : Request) : Prog unit :=
  HandlerFor_ServeHTTP DefaultRegistry ipWhitelist w r.

(** [func probeHandler(w, r, c, ipWhitelistString)]. *)
Definition probeHandler (fl : Flags) (w : ptr) (r : Request) (c : Config)
  (ipWhitelistString : list IPNet) : Prog unit :=
  let moduleName := Get (Query r) "module" in
  let moduleName := if GoStrings.is_empty moduleName then "http_2xx" else moduleName in
  match Modules c !! moduleName with
  | None =>
      HttpError w ("Unknown module " +:+ Quote moduleName) 400 ;;; Done tt
  | Some module =>
      (* If a timeout is configured via the Prometheus header, add it to
         the request. *)
      let v := Get (Header r) "X-Prometheus-Scrape-Timeout-Seconds" in
      let parsed :=
        if negb (GoStrings.is_empty v) then ParseFloat v else inl 0%float in
      match parsed with
      | inr err =>
          HttpError w ("Failed to parse timeout from Prometheus header: " +:+ err)
                    StatusInternalServerError ;;; Done tt
      | inl timeoutSeconds =>
          let timeoutSeconds :=
            if (timeoutSeconds =? 0)%float then 10%float else timeoutSeconds in
          let timeoutSeconds :=
            if (GoTime.Seconds (Timeout module) <? timeoutSeconds)%float
               && (0 <? GoTime.Seconds (Timeout module))%float
            then GoTime.Seconds (Timeout module) else timeoutSeconds in
          ctx <- WithTimeout
                   (GoTime.int64_of_float64
                      ((timeoutSeconds - timeoutOffset fl) * 1e9)%float) ;;
          (* defer cancel() *)
          let* _ :=
           (probeSuccessGauge <-
              NewGauge "probe_success"
                       "Displays whether or not the probe was a success" ;;
            probeDurationGauge <-
              NewGauge "probe_duration_seconds"
                       "Returns how long the probe took to complete in seconds" ;;
            let params := Query r in
            let target := Get params "target" in
            let configData := Get params "config" in
            if GoStrings.is_empty target then
              HttpError w "Target parameter is missing" 400 ;;; Done tt
            else
              let recovered :=
                if negb (GoStrings.is_empty configData)
                then RecoverConfig configData module else inl module in
              match recovered with
              | inr err => HttpError w err 400 ;;; Done tt
              | inl module =>
                  match Probers !! Prober module with
                  | None =>
                      HttpError w ("Unknown prober " +:+ Quote (Prober module)) 400 ;;;
                      Done tt
                  | Some prober =>
                      start <- TimeNow ;;
                      registry <- NewRegistry ;;
                      MustRegister registry probeSuccessGauge ;;;
                      MustRegister registry probeDurationGauge ;;;
                      success <- CallProber prober ctx target module registry ;;
                      t <- TimeNow ;;
                      GaugeSet probeDurationGauge (GoTime.Seconds (t - start)) ;;;
                      let* _ :=
                        (if success : bool
                         then GaugeSet probeSuccessGauge 1%float ;;; Done tt
                         else Done tt) in
                      HandlerFor_ServeHTTP registry ipWhitelistString w r
                  end
              end) in
          Cancel ctx ;;; Done tt
      end
  end.

(** *** The reload loop of [main] *)

(** What the loop receives: a [SIGHUP] on [hup], or a reply channel on
    [reloadCh]. *)
Inductive Trigger :=
| Hup
| ReloadRequest (rc : ptr).

(** The body of [for { select { case <-hup: ... case rc := <-reloadCh: ... } }]
    for the trigger received. *)
Definition reloadLoopBody (fl : Flags) (t : Trigger) : Prog unit :=
  match t with
  | Hup =>
      err <- ReloadConfigOp (configFile fl) ;;
      match err with
      | Some e => Log LError ("Error reloading config: " +:+ e) ;;; Done tt
      | None => Log LInfo "Loaded config file" ;;; Done tt
      end
  | ReloadRequest rc =>
      err <- ReloadConfigOp (configFile fl) ;;
      match err with
      | Some e =>
          Log LError ("Error reloading config: " +:+ e) ;;;
          ChanSend rc (Some e) ;;;
          Done tt
      | None =>
          Log LInfo "Loaded config file" ;;;
          ChanSend rc None ;;;
          Done tt
      end
  end.

(** The loop over the triggers it receives, one at a time. *)
Fixpoint reloadLoop (fl : Flags) (ts : list Trigger) : Prog unit :=
  match ts with
  | [] => Done tt
  | t :: ts' => let* _ := reloadLoopBody fl t in reloadLoop fl ts'
  end.

(** *** The handlers [main] installs *)

(** [http.HandleFunc("/-/reload", ...)]. *)
Definition reloadHandler (ipWhitelist : list IPNet) (w : ptr) (r : Request)
  : Prog unit :=
  let* ok := CheckInIpWhitelist w r ipWhitelist in
  if negb ok then Done tt
  else if negb (String.eqb (Method r) "POST") then
    WriteHeader w StatusMethodNotAllowed ;;;
    WriteBody w ("This endpoint requires a POST request." +:+ newline) ;;;
    Done tt
  else
    rc <- MakeChan ;;
    SendReloadCh rc ;;;
    err <- ChanRecv rc ;;
    match err with
    | Some e =>
        HttpError w ("failed to reload config: " +:+ e) StatusInternalServerError ;;;
        Done tt
    | None => Done tt
    end.

(** [http.HandleFunc("/probe", ...)]. *)
Definition probeRoute (fl : Flags) (ipWhitelist : list IPNet) (w : ptr)
  (r : Request) : Prog unit :=
  let* ok := CheckInIpWhitelist w r ipWhitelist in
  if negb ok then Done tt
  else
    conf <- LockedConfig ;;
    probeHandler fl w r conf ipWhitelist.

Definition landingPage : string :=
  "<html>" +:+ newline +:+
  "    <head><title>Blackbox Exporter</title></head>" +:+ newline +:+
  "    <body>" +:+ newline +:+
  "    <h1>Blackbox Exporter</h1>" +:+ newline +:+
  "    <p><a href=" +:+ GoStrings.dquote +:+
  "/probe?target=www.bilibili.com&module=http_2xx" +:+ GoStrings.dquote +:+
  ">Probe www.bilibili.com for http_2xx</a></p>" +:+ newline +:+
  "    <p><a href=" +:+ GoStrings.dquote +:+ "/metrics" +:+ GoStrings.dquote +:+
  ">Metrics</a></p>" +:+ newline +:+
  "    <p><a href=" +:+ GoStrings.dquote +:+ "/config" +:+ GoStrings.dquote +:+
  ">Configuration</a></p>" +:+ newline +:+
  "    </body>" +:+ newline +:+
  "    </html>".

(** [http.HandleFunc("/", ...)]. *)
Definition landingHandler (ipWhitelist : list IPNet) (w : ptr) (r : Request)
  : Prog unit :=
  let* ok := CheckInIpWhitelist w r ipWhitelist in
  if negb ok then Done tt
  else WriteBody w landingPage ;;; Done tt.

(** [http.HandleFunc("/config", ...)]. *)
Definition configHandler (ipWhitelist : list IPNet) (w : ptr) (r : Request)
  : Prog unit :=
  let* ok := CheckInIpWhitelist w r ipWhitelist in
  if negb ok then Done tt
  else
    res <- MarshalConfig ;;
    match res with
    | inr err =>
        Log LWarn ("Error marshalling configuration: " +:+ err) ;;;
        HttpError w err 500 ;;;
        Done tt
    | inl c => WriteBody w c ;;; Done tt
    end.

(** The endpoints [main] exposes. *)
Inductive Endpoint := EpReload | EpMetrics | EpProbe | EpLanding | EpConfig.

(** The patterns registered with the default [ServeMux]: the four exact
    paths, and ["/"] for every other path. *)
Definition route (path : string) : Endpoint :=
  if String.eqb path "/-/reload" then EpReload
  else if String.eqb path "/metrics" then EpMetrics
  else if String.eqb path "/probe" then EpProbe
  else if String.eqb path "/config" then EpConfig
  else EpLanding.

Definition endpointHandler (fl : Flags) (ipWhitelist : list IPNet) (e : Endpoint)
  (w : ptr) (r : Request) : Prog unit :=
  match e with
  | EpReload => reloadHandler ipWhitelist w r
  | EpMetrics => Handler ipWhitelist w r
  | EpProbe => probeRoute fl ipWhitelist w r
  | EpLanding => landingHandler ipWhitelist w r
  | EpConfig => configHandler ipWhitelist w r
  end.

Definition serveHTTP (fl : Flags) (ipWhitelist : list IPNet) (w : ptr)
  (r : Request) : Prog unit :=
  endpointHandler fl ipWhitelist (route (Path r)) w r.

(** *** The whitelist [main] builds from the flag *)

(** The body of [for _, netIpString := range strings.Split(...)]: the
    string handed to [net.ParseCIDR]. *)
Definition normalizeEntry (netIpString : string) : string :=
  match ParseIP netIpString with
  | Some ipAdd =>
      match To4 ipAdd with
      | Some _ => netIpString +:+ "/32"
      | None => netIpString +:+ "/128"
      end
  | None => netIpString
  end.

(** The loop: the whitelist, or the message of [log.Fatalf]. *)
Fixpoint buildWhitelist_loop (entries : list string) (ipWhitelist : list IPNet)
  : list IPNet + string :=
  match entries with
  | [] => inl ipWhitelist
  | netIpString :: rest =>
      let netIpString := normalizeEntry netIpString in
      match ParseCIDR netIpString with
      | None =>
          inr ("Add netip error: invalid CIDR address: " +:+ netIpString)
      | Some (_, netIp) => buildWhitelist_loop rest (ipWhitelist ++ [netIp])
      end
  end.

Definition buildWhitelist (fl : Flags) : list IPNet + string :=
  buildWhitelist_loop (GoStrings.Split (ipWhitelistString fl) ","%char) [].

(** *** Running a handler *)

(** What one operation does to the world, and what it returns.  [reload]
    is what the reload loop does with a reply channel it receives. *)
Definition exec (reload : ptr -> World -> World) (o : Op) (W0 : World)
  : Ret o * World :=
  let W := set_trace (trace W0 ++ [o]) W0 in
  match o return Ret o * World with
  | HttpError w msg code => (tt, on_writer w (Http.error msg code) W)
  | WriteHeader w code => (tt, on_writer w (writeHeader code) W)
  | WriteBody w b => (tt, on_writer w (write b) W)
  | WithTimeout d => ({| ctx_created := clock W; ctx_timeout := d |}, W)
  | Cancel _ => (tt, W)
  | NewGauge Name Help =>
      let g := fresh (dom (gauges W)) in
      (g, set_gauges (<[g := {| gauge_Name := Name; gauge_Help := Help;
                                gauge_value := 0%float |}]> (gauges W)) W)
  | NewRegistry =>
      let r := fresh (dom (registries W)) in
      (r, set_registries (<[r := []]> (registries W)) W)
  | MustRegister registry g => (tt, register registry [CGauge g] W)
  | GaugeSet g v => (tt, gauge_set g v W)
  | TimeNow => (clock W, W)
  | CallProber fn ctx target module registry =>
      let out := Probe fn ctx target module (clock W) in
      (po_success out, probed registry out W)
  | Gather registry => (gather registry W, W)
  | LockedConfig => (sc_C W, W)
  | MarshalConfig => (MarshalYAML (sc_C W), W)
  | MakeChan =>
      let c := fresh (dom (chans W)) in
      (c, set_chans (<[c := []]> (chans W)) W)
  | SendReloadCh rc => (tt, reload rc W)
  | ChanRecv rc =>
      match default [] (chans W !! rc) with
      | v :: q => (v, set_chans (<[rc := q]> (chans W)) W)
      | [] => (None, W)
      end
  | ChanSend rc err =>
      (tt, set_chans (<[rc := default [] (chans W !! rc) ++ [err]]> (chans W)) W)
  | ReloadConfigOp confFile => ReloadConfig confFile W
  | Log lvl msg => (tt, set_logged (logged W ++ [(lvl, msg)]) W)
  end.

(** A handler run to its end. *)
Fixpoint run_with {A} (reload : ptr -> World -> World) (p : Prog A) (W : World)
  : A * World :=
  match p with
  | Done a => (a, W)
  | Do o k => let '(x, W') := exec reload o W in run_with reload (k x) W'
  end.

(** The reload loop serving one request sent on [reloadCh]; the loop
    itself sends nothing on [reloadCh]. *)
Definition serveReload (fl : Flags) (rc : ptr) (W : World) : World :=
  snd (run_with (fun _ W => W) (reloadLoopBody fl (ReloadRequest rc)) W).

(** A handler of the running server, the reload loop standing by. *)
Definition run {A} (fl : Flags) (p : Prog A) (W : World) : A * World :=
  run_with (serveReload fl) p W.

(** *** Startup: the part of [main] before the listener *)

Definition main_startup (fl : Flags) (W : World)
  : (World * list IPNet) + string :=
  match ReloadConfig (configFile fl) W with
  | (Some e, _) => inr ("Error loading config: " +:+ e)
  | (None, W1) =>
      let W2 := set_logged (logged W1 ++ [(LInfo, "Loaded config file")]) W1 in
      match buildWhitelist fl with
      | inr msg => inr msg
      | inl ipWhitelist => inl (W2, ipWhitelist)
      end
  end.

End WithCollaborators.

End Exporter.

(** ** Requests served at the same time

    [net/http] runs every handler in a goroutine of its own.  The requests
    to [/probe] in flight are a pool of handlers that take turns, one
    operation at a time, on the world they share; between two of their
    operations the rest of the process (the clock, the reload loop, the
    handlers of the other endpoints, the probers at work) may change the
    world in any way that leaves the gauges and registries that exist as
    they are. *)

Module Pool.
Import Config Http Runtime Collab GoNet Exporter.

(** What a prober answers, at each of its calls. *)
Definition Oracle : Type :=
  ProbeFn -> Context -> string -> ConfigModule -> Z -> ProbeOutcome.

(** One operation a request performed: the operation, what it returned,
    what the probers would answer, and the world it was performed in. *)
Record Step := {
  st_op : Op;
  st_ret : Ret st_op;
  st_oracle : Oracle;
  st_before : World
}.

(** A request in flight: what is left of its handler, and what it did so
    far, oldest first. *)
Record Thread := { th_prog : Prog unit; th_log : list Step }.

Record State := { shared : World; threads : list Thread }.

(** The registries and the gauges a request made. *)
Definition registries_made (log : list Step) : list ptr :=
  omap (fun s => match st_op s as o return Ret o -> option ptr with
                 | NewRegistry => fun r => Some r
                 | _ => fun _ => None
                 end (st_ret s)) log.

Definition gauges_made (log : list Step) : list ptr :=
  omap (fun s => match st_op s as o return Ret o -> option ptr with
                 | NewGauge _ _ => fun g => Some g
                 | _ => fun _ => None
                 end (st_ret s)) log.

(** The clock readings a request took. *)
Definition readings (log : list Step) : list Z :=
  omap (fun s => match st_op s as o return Ret o -> option Z with
                 | TimeNow => fun t => Some t
                 | _ => fun _ => None
                 end (st_ret s)) log.

(** The outcomes of the prober calls of a request. *)
Definition outcomes (log : list Step) : list ProbeOutcome :=
  omap (fun s => match st_op s with
                 | CallProber fn ctx target module _ =>
                     Some (st_oracle s fn ctx target module (clock (st_before s)))
                 | _ => None
                 end) log.

(** What a request gathered, from which registry. *)
Definition gathered (log : list Step) : list (ptr * list Metric) :=
  omap (fun s => match st_op s as o return Ret o -> option (ptr * list Metric) with
                 | Gather registry => fun mfs => Some (registry, mfs)
                 | _ => fun _ => None
                 end (st_ret s)) log.

(** The gauges a request registered, with which registry, and the values
    it set its gauges to. *)
Definition registered (log : list Step) : list (ptr * ptr) :=
  omap (fun s => match st_op s with
                 | MustRegister registry g => Some (registry, g)
                 | _ => None
                 end) log.

Definition settings (log : list Step) : list (ptr * float) :=
  omap (fun s => match st_op s with
                 | GaugeSet g v => Some (g, v)
                 | _ => None
                 end) log.

(** What the registry handed to a prober held when the prober was
    called. *)
Definition handed_to_prober (log : list Step) : list (ptr * list Metric) :=
  omap (fun s => match st_op s with
                 | CallProber _ _ _ _ registry =>
                     Some (registry, gather registry (st_before s))
                 | _ => None
                 end) log.

Section WithCollaborators.
Context `{H : Collaborators}.

(** The same collaborators with the probers answering as [p] says. *)
Definition with_probe (p : Oracle) : Collaborators :=
  {| ParseFloat := ParseFloat; Quote := Quote;
     ParseAndMerge := ParseAndMerge;
     UnmarshalConfig := UnmarshalConfig; ValidateConfig := ValidateConfig;
     MarshalYAML := MarshalYAML; Expfmt := Expfmt;
     Probe := p;
     DenyStatus := DenyStatus; DenyMessage := DenyMessage;
     DenyStatus_client_error := DenyStatus_client_error |}.

(** A request performing its next operation, if it has one. *)
Definition advance (fl : Flags) (p : Oracle) (W : World) (th : Thread)
  : option (Thread * World) :=
  match th_prog th with
  | Done _ => None
  | Do o k =>
      let xW := exec (H := with_probe p) (serveReload fl) o W in
      Some ({| th_prog := k (fst xW);
               th_log := th_log th ++
                 [{| st_op := o; st_ret := fst xW; st_oracle := p;
                     st_before := W |}] |},
            snd xW)
  end.

Inductive step (fl : Flags) : State -> State -> Prop :=
| step_request (P : State) (i : nat) (th th' : Thread) (p : Oracle)
    (W' : World) :
    threads P !! i = Some th ->
    advance fl p (shared P) th = Some (th', W') ->
    step fl P {| shared := W'; threads := <[i := th']> (threads P) |}
| step_others (P : State) (W' : World) :
    gauges (shared P) ⊆ gauges W' ->
    registries (shared P) ⊆ registries W' ->
    step fl P {| shared := W'; threads := threads P |}.

(** The requests [reqs], each with its response writer, about to be
    served in the world [W]. *)
Definition arriving (fl : Flags) (ipWhitelist : list IPNet)
  (reqs : list (ptr * Request)) (W : World) : State :=
  {| shared := W;
     threads :=
       map (fun wr => {| th_prog := probeRoute fl ipWhitelist (fst wr) (snd wr);
                         th_log := [] |}) reqs |}.

(** A schedule says, turn by turn, which request performs its next
    operation and what the probers would answer it; a turn of a request
    that has returned, or that there is not, changes nothing. *)
Definition play1 (fl : Flags) (P : State) (turn : nat * Oracle) : State :=
  match threads P !! fst turn with
  | Some th =>
      match advance fl (snd turn) (shared P) th with
      | Some (th', W') =>
          {| shared := W'; threads := <[fst turn := th']> (threads P) |}
      | None => P
      end
  | None => P
  end.

Definition play (fl : Flags) (schedule : list (nat * Oracle)) (P : State)
  : State :=
  fold_left (play1 fl) schedule P.

(** The log of the request at position [i]. *)
Definition log_of (i : nat) (P : State) : list Step :=
  from_option th_log [] (threads P !! i).

End WithCollaborators.

End Pool.

(** ** A concrete set of collaborators, for evaluation *)

Module Sample.
Import Config Http Runtime Collab GoNet Exporter Pool.

(** The digits of a plain decimal literal: the number they spell and how
    many there are. *)
Fixpoint digits (s : string) (n : Z) (k : nat) : Z * nat * string :=
  match s with
  | String c rest =>
      if (48 <=? code c) && (code c <=? 57)
      then digits rest (n * 10 + (code c - 48)) (S k)
      else (n, k, s)
  | EmptyString => (n, k, s)
  end.

Definition quote_plain (s : string) : string :=
  GoStrings.dquote +:+ s +:+ GoStrings.dquote.

Definition syntax_error (s : string) : string :=
  "strconv.ParseFloat: parsing " +:+ quote_plain s +:+ ": invalid syntax".

(** [strconv.ParseFloat] on the plain decimal literals [ddd] and [ddd.ddd]
    with an optional sign, where the exact path of [strconv] applies (a
    mantissa below [2^53] divided by a power of ten up to [10^22]).  This
    instance reports every other text as a syntax error, although
    [strconv] reads more forms (exponents, [Inf], [NaN], hexadecimal). *)
Definition atof_plain (s : string) : float + string :=
  let '(neg, body) :=
    match s with
    | String "-"%char r => (true, r)
    | String "+"%char r => (false, r)
    | _ => (false, s)
    end in
  let '(ip, ni, rest) := digits body 0 0 in
  let '(mant, nf, rest) :=
    match rest with
    | String "."%char r => let '(m, k, rest') := digits r ip 0 in (m, k, rest')
    | _ => (ip, 0%nat, rest)
    end in
  if negb (GoStrings.is_empty rest) || Nat.eqb (ni + nf) 0 then inr (syntax_error s)
  else if (2 ^ 53 <=? mant) || (22 <? nf)%nat then inr (syntax_error s)
  else
    let f := (GoTime.float64_of_int mant
              / GoTime.float64_of_int (10 ^ Z.of_nat nf))%float in
    inl (if neg then (- f)%float else f).

Definition http_2xx : ConfigModule :=
  {| Prober := "http"; Timeout := 0; Settings := "" |}.

Definition tcp_5s : ConfigModule :=
  {| Prober := "tcp"; Timeout := 5 * GoTime.Second; Settings := "" |}.

Definition conf0 : Config :=
  {| Modules := <["http_2xx" := http_2xx]> (<["tcp_5s" := tcp_5s]> ∅) |}.

Definition conf1 : Config :=
  {| Modules := <["http_2xx" := http_2xx]> ∅ |}.

(** A prober that succeeds on the target ["up"], takes a quarter of a
    second and registers one measurement of its own. *)
Definition probe_sample (fn : ProbeFn) (ctx : Context) (target : string)
  (module : ConfigModule) (now : Z) : ProbeOutcome :=
  {| po_success := String.eqb target "up";
     po_registered := [{| metric_Name := "probe_ip_protocol";
                          metric_Help := "";
                          metric_value := 4%float |}];
     po_elapsed := 250000000 |}.

Lemma deny_403 : 400 <= 403 < 500.
Proof. lia. Qed.

#[local] Instance sample : Collaborators := {|
  ParseFloat := atof_plain;
  Quote := quote_plain;
  ParseAndMerge := fun configData module =>
    if String.eqb configData "timeout: 1s"
    then inl {| Prober := Prober module; Timeout := GoTime.Second;
                Settings := Settings module |}
    else inr "yaml: unmarshal errors";
  UnmarshalConfig := fun data =>
    if String.eqb data "modules: one" then inl conf1
    else inr "yaml: did not find expected key";
  ValidateConfig := fun _ => None;
  MarshalYAML := fun c => inl (String.concat "," (map fst (map_to_list (Modules c))));
  Expfmt := fun ms => String.concat "," (map metric_Name ms);
  Probe := probe_sample;
  DenyStatus := 403;
  DenyMessage := "Forbidden";
  DenyStatus_client_error := deny_403
|}.

(** A world before any request: the configuration [conf0] is active, the
    file on disk does not parse. *)
Definition W0 : World :=
  {| clock := 1000; gauges := ∅; registries := <[DefaultRegistry := []]> ∅;
     writers := ∅; chans := ∅; sc_C := conf0;
     files := <["blackbox.yml" := "modules: ["]> ∅;
     logged := []; trace := [] |}.

Definition localhost : IP := [127; 0; 0; 1].

Definition request (query header : list (string * string)) : Request :=
  {| Method := "GET"; Path := "/probe"; Query := query; Header := header;
     RemoteIP := localhost |}.

Definition hint (v : string) : list (string * string) :=
  [("X-Prometheus-Scrape-Timeout-Seconds", v)].

(** Requests of an allowed client. *)
Definition req_plain : Request := request [("target", "up")] [].
Definition req_tcp_20 : Request :=
  request [("target", "up"); ("module", "tcp_5s")] (hint "20").
Definition req_hint_3 : Request := request [("target", "down")] (hint "3").
Definition req_zero : Request := request [("target", "up")] (hint "0").
Definition req_bad_hint : Request := request [("target", "up")] (hint "abc").
Definition req_no_target : Request := request [("module", "tcp_5s")] [].
Definition req_no_target_bad_hint : Request := request [] (hint "abc").
Definition req_unknown_bad_hint : Request :=
  request [("module", "nope"); ("target", "up")] (hint "abc").
Definition req_override : Request :=
  request [("target", "up"); ("config", "timeout: 1s")] [].
Definition req_bad_override : Request :=
  request [("target", "up"); ("config", "timeout: [")] [].

(** A request from an address outside the whitelist [onlyLocalhost]. *)
Definition req_stranger : Request :=
  {| Method := "POST"; Path := "/-/reload"; Query := []; Header := [];
     RemoteIP := [10; 0; 0; 7] |}.

Definition req_reload : Request :=
  {| Method := "POST"; Path := "/-/reload"; Query := []; Header := [];
     RemoteIP := localhost |}.

Definition onlyLocalhost : list IPNet :=
  [{| IPNet_IP := [127; 0; 0; 1]; IPNet_Mask := [255; 255; 255; 255] |}].

(** The whitelist of the default flags. *)
Definition allowAll : list IPNet :=
  match buildWhitelist defaultFlags with
  | inl l => l
  | inr _ => []
  end.

(** The flags with a whitelist of one IPv4-mapped IPv6 literal, and with
    a whitelist whose second entry is no address and no range. *)
Definition mappedFlags : Flags :=
  {| configFile := "blackbox.yml"; listenAddress := ":9115";
     timeoutOffset := 0.5%float; ipWhitelistString := "::ffff:1.2.3.4" |}.

Definition malformedFlags : Flags :=
  {| configFile := "blackbox.yml"; listenAddress := ":9115";
     timeoutOffset := 0.5%float; ipWhitelistString := "10.0.0.0/8,localhost" |}.

(** Two requests served at the same time, to a target that is up and to
    one that is down, taking turns operation by operation. *)
Definition two_requests : list (ptr * Request) :=
  [(10%positive, req_plain); (11%positive, req_hint_3)].

Definition alternate (rounds : nat) : list (nat * Oracle) :=
  concat (repeat [(0%nat, probe_sample); (1%nat, probe_sample)] rounds).

Definition served : State :=
  play defaultFlags (alternate 16)
    (arriving defaultFlags allowAll two_requests W0).

End Sample.


(** ** The vocabulary of the specification *)

Module Spec.
Import Config Http Runtime Collab GoNet Exporter.

(** The caller-declared timeout hint of a request. *)
Inductive Hint :=
| HintAbsent
| HintValue (f : float)
| HintUnparseable (err : string).

(** The baseline of the negotiation, in seconds. *)
Definition baseline : float := 10%float.

(** "if the resolved module declares a positive ceiling timeout smaller
    than the current candidate, clamp down to it". *)
Definition clamp (ceiling candidate : float) : float :=
  if ((0 <? ceiling) && (ceiling <? candidate))%float then ceiling else candidate.

(** "subtract a fixed configured safety offset from the final value". *)
Definition budget (start ceiling offset : float) : float :=
  (clamp ceiling start - offset)%float.

(** The budget in seconds as the [time.Duration] handed to
    [context.WithTimeout]. *)
Definition deadline (seconds : float) : option Z :=
  GoTime.int64_of_float64 (seconds * 1e9)%float.

(** Where the candidate starts as the claim words it: "at the caller's
    parseable timeout hint if one is present, otherwise at the baseline". *)
Definition stated_start (h : Hint) : option float :=
  match h with
  | HintAbsent => Some baseline
  | HintValue f => Some f
  | HintUnparseable _ => None
  end.

(** Where it starts once a hint that parses to zero counts as absent. *)
Definition negotiation_start (h : Hint) : option float :=
  match h with
  | HintAbsent => Some baseline
  | HintValue f => Some (if (f =? 0)%float then baseline else f)
  | HintUnparseable _ => None
  end.

(** The two entries every probe request seeds its container with. *)
Definition success_entry (v : float) : Metric :=
  {| metric_Name := "probe_success";
     metric_Help := "Displays whether or not the probe was a success";
     metric_value := v |}.

Definition duration_entry (v : float) : Metric :=
  {| metric_Name := "probe_duration_seconds";
     metric_Help := "Returns how long the probe took to complete in seconds";
     metric_value := v |}.

(** The calls of probers among a list of operations, with the module
    each was given. *)
Definition prober_calls (t : list Op) : list (ProbeFn * string * ConfigModule) :=
  omap (fun o => match o with
                 | CallProber fn _ target module _ => Some (fn, target, module)
                 | _ => None
                 end) t.

(** Operations that read the Configuration, touch a metric or a registry,
    or submit a reload trigger. *)
Definition side_effect (o : Op) : bool :=
  match o with
  | LockedConfig | MarshalConfig => true
  | NewGauge _ _ | NewRegistry | MustRegister _ _ | GaugeSet _ _
  | Gather _ | CallProber _ _ _ _ _ => true
  | MakeChan | SendReloadCh _ | ChanRecv _ | ChanSend _ _
  | ReloadConfigOp _ => true
  | _ => false
  end.

(** Every operation a handler may perform satisfies [P], whatever the
    results of the operations before it. *)
Inductive ops_in {A} (P : Op -> Prop) : Prog A -> Prop :=
| ops_Done (a : A) : ops_in P (Done a)
| ops_Do (o : Op) (k : Ret o -> Prog A) :
    P o -> (forall x, ops_in P (k x)) -> ops_in P (Do o k).

(** Operations other than a reload attempt and a reload request. *)
Definition not_reloading (o : Op) : Prop :=
  match o with
  | ReloadConfigOp _ | SendReloadCh _ => False
  | _ => True
  end.

(** The first operation of a handler. *)
Definition first_op {A} (p : Prog A) : option Op :=
  match p with
  | Do o _ => Some o
  | Done _ => None
  end.

Definition hintHeader : string := "X-Prometheus-Scrape-Timeout-Seconds".

(** The same request without its timeout hint header. *)
Definition without_hint (r : Request) : Request :=
  {| Method := Method r; Path := Path r; Query := Query r;
     Header := filter (fun kv => fst kv <> hintHeader) (Header r);
     RemoteIP := RemoteIP r |}.

Section WithCollaborators.
Context `{Collaborators}.

(** The module a request names: [module], or ["http_2xx"] by default. *)
Definition moduleName (r : Request) : string :=
  if GoStrings.is_empty (Get (Query r) "module") then "http_2xx"
  else Get (Query r) "module".

Definition timeoutHint (r : Request) : Hint :=
  if GoStrings.is_empty (Get (Header r) hintHeader) then HintAbsent
  else match ParseFloat (Get (Header r) hintHeader) with
       | inl f => HintValue f
       | inr err => HintUnparseable err
       end.

(** The module the prober is given: the resolved module, or the result of
    merging the inline [config] override onto it. *)
Definition effective_module (r : Request) (module : ConfigModule)
  : ConfigModule + string :=
  if GoStrings.is_empty (Get (Query r) "config") then inl module
  else RecoverConfig (Get (Query r) "config") module.

(** The execution context the negotiation derives at clock reading [now]. *)
Definition negotiated_context (fl : Flags) (start : float)
  (module : ConfigModule) (now : Z) : Context :=
  {| ctx_created := now;
     ctx_timeout := deadline (budget start (GoTime.Seconds (Timeout module))
                                     (timeoutOffset fl)) |}.

(** C1 as the claim states it, at one request. *)
Definition stated_timeout_negotiation (fl : Flags) (w : ptr) (r : Request)
  (c : Config) (ipWhitelist : list IPNet) : Prop :=
  forall module start,
    Modules c !! moduleName r = Some module ->
    stated_start (timeoutHint r) = Some start ->
    first_op (probeHandler fl w r c ipWhitelist)
    = Some (WithTimeout
              (deadline (budget start (GoTime.Seconds (Timeout module))
                                (timeoutOffset fl)))).

(** Why a reload attempt fails, and the error it reports: the file is
    unreadable, it does not parse, or what it holds does not validate. *)
Inductive reload_failure (fl : Flags) (W : World) : string -> Prop :=
| Unreadable :
    files W !! configFile fl = None ->
    reload_failure fl W ("Error reading config file: " +:+ configFile fl)
| ParseError (yamlFile e : string) :
    files W !! configFile fl = Some yamlFile ->
    UnmarshalConfig yamlFile = inr e ->
    reload_failure fl W ("Error parsing config file: " +:+ e)
| ValidationError (yamlFile : string) (c : Config) (e : string) :
    files W !! configFile fl = Some yamlFile ->
    UnmarshalConfig yamlFile = inl c ->
    ValidateConfig c = Some e ->
    reload_failure fl W e.

(** What the inspection endpoint answers to an allowed client, given the
    active Configuration. *)
Definition inspection_response (c : Config) (rw : ResponseWriter)
  : ResponseWriter :=
  match MarshalYAML c with
  | inr err => Http.error err 500 rw
  | inl text => write text rw
  end.

(** C2 as the claim states it, at one request: rejected with 400 and the
    message about the missing parameter, whatever the other parameters
    and the hint. *)
Definition stated_missing_target (fl : Flags) (W : World) (w : ptr)
  (r : Request) (c : Config) (ipWhitelist : list IPNet) : Prop :=
  Get (Query r) "target" = "" ->
  writer w W = newResponseWriter ->
  writer w (snd (run fl (probeHandler fl w r c ipWhitelist) W))
  = {| Status := Some 400;
       Body := "Target parameter is missing" +:+ newline |}.

(** C8 as the claim states it, at one request: every request whose hint is
    present and unparseable is answered 500. *)
Definition stated_unparseable_hint (fl : Flags) (W : World) (w : ptr)
  (r : Request) (c : Config) (ipWhitelist : list IPNet) : Prop :=
  forall err,
    timeoutHint r = HintUnparseable err ->
    writer w W = newResponseWriter ->
    Status (writer w (snd (run fl (probeHandler fl w r c ipWhitelist) W)))
    = Some StatusInternalServerError.

End WithCollaborators.

End Spec.

(** ** The points of a probe request

    Where a request to [/probe] stands between two of its operations, what
    it holds in its local variables there, and what is left of its handler
    from there on. *)

Module Stages.
Import Config Http Runtime Collab GoNet Exporter Pool Spec.

(** A point names the operation the request performs next. *)
Inductive PC :=
| AtStart        (* the access check, then reading the Configuration *)
| Configured     (* module and hint; deriving the context *)
| Negotiated     (* making the success gauge *)
| Gauge1         (* making the duration gauge *)
| Gauge2         (* target, override, dispatch table; reading the start time *)
| Started        (* making the registry *)
| Registry       (* registering the success gauge *)
| Registered1    (* registering the duration gauge *)
| Registered2    (* calling the prober *)
| Probed         (* reading the time since the start *)
| Since          (* setting the duration *)
| DurationSet    (* setting the success, the prober having succeeded *)
| SuccessSet     (* gathering *)
| Gathered       (* writing the response *)
| Written        (* the deferred cancel, after a served probe *)
| Failing        (* the deferred cancel, after an error response *)
| Rejected       (* returned before the context was derived *)
| Failed         (* returned after an error response and the cancel *)
| Served.        (* returned after a served probe *)

(** The local variables of [probeHandler]. *)
Record Locals := {
  l_conf : Config;
  l_module : ConfigModule;
  l_effective : ConfigModule;
  l_prober : ProbeFn;
  l_ctx : Context;
  l_gs : ptr;
  l_gd : ptr;
  l_registry : ptr;
  l_start : Z;
  l_t : Z;
  l_out : ProbeOutcome
}.

Definition no_locals : Locals :=
  {| l_conf := {| Modules := ∅ |};
     l_module := {| Prober := ""; Timeout := 0; Settings := "" |};
     l_effective := {| Prober := ""; Timeout := 0; Settings := "" |};
     l_prober := ProbeHTTP;
     l_ctx := {| ctx_created := 0; ctx_timeout := None |};
     l_gs := 1%positive; l_gd := 1%positive; l_registry := 1%positive;
     l_start := 0; l_t := 0;
     l_out := {| po_success := false; po_registered := []; po_elapsed := 0 |} |}.

(** Assignments to the local variables. *)
Definition with_conf (x : Config) (L : Locals) : Locals :=
  {| l_conf := x; l_module := l_module L; l_effective := l_effective L;
     l_prober := l_prober L; l_ctx := l_ctx L; l_gs := l_gs L;
     l_gd := l_gd L; l_registry := l_registry L; l_start := l_start L;
     l_t := l_t L; l_out := l_out L |}.

Definition with_module (x : ConfigModule) (L : Locals) : Locals :=
  {| l_conf := l_conf L; l_module := x; l_effective := l_effective L;
     l_prober := l_prober L; l_ctx := l_ctx L; l_gs := l_gs L;
     l_gd := l_gd L; l_registry := l_registry L; l_start := l_start L;
     l_t := l_t L; l_out := l_out L |}.

Definition with_effective (x : ConfigModule) (L : Locals) : Locals :=
  {| l_conf := l_conf L; l_module := l_module L; l_effective := x;
     l_prober := l_prober L; l_ctx := l_ctx L; l_gs := l_gs L;
     l_gd := l_gd L; l_registry := l_registry L; l_start := l_start L;
     l_t := l_t L; l_out := l_out L |}.

Definition with_prober (x : ProbeFn) (L : Locals) : Locals :=
  {| l_conf := l_conf L; l_module := l_module L;
     l_effective := l_effective L; l_prober := x; l_ctx := l_ctx L;
     l_gs := l_gs L; l_gd := l_gd L; l_registry := l_registry L;
     l_start := l_start L; l_t := l_t L; l_out := l_out L |}.

Definition with_ctx (x : Context) (L : Locals) : Locals :=
  {| l_conf := l_conf L; l_module := l_module L;
     l_effective := l_effective L; l_prober := l_prober L; l_ctx := x;
     l_gs := l_gs L; l_gd := l_gd L; l_registry := l_registry L;
     l_start := l_start L; l_t := l_t L; l_out := l_out L |}.

Definition with_gs (x : ptr) (L : Locals) : Locals :=
  {| l_conf := l_conf L; l_module := l_module L;
     l_effective := l_effective L; l_prober := l_prober L; l_ctx := l_ctx L;
     l_gs := x; l_gd := l_gd L; l_registry := l_registry L;
     l_start := l_start L; l_t := l_t L; l_out := l_out L |}.

Definition with_gd (x : ptr) (L : Locals) : Locals :=
  {| l_conf := l_conf L; l_module := l_module L;
     l_effective := l_effective L; l_prober := l_prober L; l_ctx := l_ctx L;
     l_gs := l_gs L; l_gd := x; l_registry := l_registry L;
     l_start := l_start L; l_t := l_t L; l_out := l_out L |}.

Definition with_registry (x : ptr) (L : Locals) : Locals :=
  {| l_conf := l_conf L; l_module := l_module L;
     l_effective := l_effective L; l_prober := l_prober L; l_ctx := l_ctx L;
     l_gs := l_gs L; l_gd := l_gd L; l_registry := x; l_start := l_start L;
     l_t := l_t L; l_out := l_out L |}.

Definition with_start (x : Z) (L : Locals) : Locals :=
  {| l_conf := l_conf L; l_module := l_module L;
     l_effective := l_effective L; l_prober := l_prober L; l_ctx := l_ctx L;
     l_gs := l_gs L; l_gd := l_gd L; l_registry := l_registry L;
     l_start := x; l_t := l_t L; l_out := l_out L |}.

Definition with_t (x : Z) (L : Locals) : Locals :=
  {| l_conf := l_conf L; l_module := l_module L;
     l_effective := l_effective L; l_prober := l_prober L; l_ctx := l_ctx L;
     l_gs := l_gs L; l_gd := l_gd L; l_registry := l_registry L;
     l_start := l_start L; l_t := x; l_out := l_out L |}.

Definition with_out (x : ProbeOutcome) (L : Locals) : Locals :=
  {| l_conf := l_conf L; l_module := l_module L;
     l_effective := l_effective L; l_prober := l_prober L; l_ctx := l_ctx L;
     l_gs := l_gs L; l_gd := l_gd L; l_registry := l_registry L;
     l_start := l_start L; l_t := l_t L; l_out := x |}.

(** The two gauges of a request as the heap holds them. *)
Definition gauge_success (v : float) : Gauge :=
  {| gauge_Name := "probe_success";
     gauge_Help := "Displays whether or not the probe was a success";
     gauge_value := v |}.

Definition gauge_duration (v : float) : Gauge :=
  {| gauge_Name := "probe_duration_seconds";
     gauge_Help := "Returns how long the probe took to complete in seconds";
     gauge_value := v |}.

(** What the request gathers in the end. *)
Definition expected (L : Locals) : list Metric :=
  [success_entry (if po_success (l_out L) then 1 else 0)%float;
   duration_entry (GoTime.Seconds (l_t L - l_start L))]
  ++ po_registered (l_out L).

(** *** What holds at each point *)

(** The gauges and the registry the request has made. *)
Definition made_g (pc : PC) (L : Locals) : list ptr :=
  match pc with
  | AtStart | Configured | Negotiated | Rejected => []
  | Gauge1 => [l_gs L]
  | _ => [l_gs L; l_gd L]
  end.

Definition made_r (pc : PC) (L : Locals) : list ptr :=
  match pc with
  | Registry | Registered1 | Registered2 | Probed | Since | DurationSet
  | SuccessSet | Gathered | Written | Served => [l_registry L]
  | _ => []
  end.

(** The clock readings it has taken. *)
Definition taken (pc : PC) (L : Locals) : list Z :=
  match pc with
  | Started | Registry | Registered1 | Registered2 | Probed => [l_start L]
  | Since | DurationSet | SuccessSet | Gathered | Written | Served =>
      [l_start L; l_t L]
  | _ => []
  end.

(** The gauges it has registered, and the values it has set. *)
Definition regd (pc : PC) (L : Locals) : list (ptr * ptr) :=
  match pc with
  | Registered1 => [(l_registry L, l_gs L)]
  | Registered2 | Probed | Since | DurationSet | SuccessSet | Gathered
  | Written | Served => [(l_registry L, l_gs L); (l_registry L, l_gd L)]
  | _ => []
  end.

Definition sets (pc : PC) (L : Locals) : list (ptr * float) :=
  match pc with
  | DurationSet => [(l_gd L, GoTime.Seconds (l_t L - l_start L))]
  | SuccessSet | Gathered | Written | Served =>
      (l_gd L, GoTime.Seconds (l_t L - l_start L))
      :: (if po_success (l_out L) then [(l_gs L, 1%float)] else [])
  | _ => []
  end.

(** Whether it has called its prober, and gathered its registry. *)
Definition called (pc : PC) : bool :=
  match pc with
  | Probed | Since | DurationSet | SuccessSet | Gathered | Written | Served =>
      true
  | _ => false
  end.

Definition rendered (pc : PC) : bool :=
  match pc with
  | Gathered | Written | Served => true
  | _ => false
  end.

(** The values of its gauges and the collectors of its registry, where
    the rest of the handler depends on them. *)
Definition at_gs (pc : PC) (L : Locals) : option float :=
  match pc with
  | Gauge1 | Gauge2 | Started | Registry | Registered1 | Registered2 | Probed
  | Since | DurationSet => Some 0%float
  | SuccessSet => Some (if po_success (l_out L) then 1 else 0)%float
  | _ => None
  end.

Definition at_gd (pc : PC) (L : Locals) : option float :=
  match pc with
  | Gauge2 | Started | Registry | Registered1 | Registered2 | Probed | Since =>
      Some 0%float
  | DurationSet | SuccessSet => Some (GoTime.Seconds (l_t L - l_start L))
  | _ => None
  end.

Definition at_reg (pc : PC) (L : Locals) : option (list Collector) :=
  match pc with
  | Registry => Some []
  | Registered1 => Some [CGauge (l_gs L)]
  | Registered2 => Some [CGauge (l_gs L); CGauge (l_gd L)]
  | Probed | Since | DurationSet | SuccessSet =>
      Some (CGauge (l_gs L) :: CGauge (l_gd L)
            :: map CMetric (po_registered (l_out L)))
  | _ => None
  end.

(** The points between the access check of the route and the one of the
    rendering handler. *)
Definition passed (pc : PC) : bool :=
  match pc with
  | AtStart | Rejected | Failing | Failed | Gathered | Written | Served => false
  | _ => true
  end.

Definition sure (pc : PC) (L : Locals) : Prop :=
  match pc with
  | DurationSet => po_success (l_out L) = true
  | _ => True
  end.

Section OneRequest.
Context `{Collaborators}.
Variables (fl : Flags) (ipWhitelist : list IPNet) (w : ptr) (r : Request).

(** The rest of [probeHandler] from each point on, last point first; the
    deferred [cancel] is kept apart. *)
Definition cancel (ctx : Context) : unit -> Prog unit :=
  fun _ => Cancel ctx ;;; Done tt.

Definition tail_render (registry : ptr) : Prog unit :=
  HandlerFor_ServeHTTP registry ipWhitelist w r.

Definition tail_success (gs registry : ptr) (success : bool) : Prog unit :=
  let* _ := (if success then GaugeSet gs 1%float ;;; Done tt else Done tt) in
  tail_render registry.

Definition tail_set (gs gd registry : ptr) (start : Z) (success : bool) (t : Z)
  : Prog unit :=
  GaugeSet gd (GoTime.Seconds (t - start)) ;;; tail_success gs registry success.

Definition tail_since (gs gd registry : ptr) (start : Z) (success : bool)
  : Prog unit :=
  t <- TimeNow ;; tail_set gs gd registry start success t.

Definition tail_probe (prober : ProbeFn) (ctx : Context) (module : ConfigModule)
  (gs gd registry : ptr) (start : Z) : Prog unit :=
  success <- CallProber prober ctx (Get (Query r) "target") module registry ;;
  tail_since gs gd registry start success.

Definition tail_reg2 (prober : ProbeFn) (ctx : Context) (module : ConfigModule)
  (gs gd registry : ptr) (start : Z) : Prog unit :=
  MustRegister registry gd ;;; tail_probe prober ctx module gs gd registry start.

Definition tail_reg1 (prober : ProbeFn) (ctx : Context) (module : ConfigModule)
  (gs gd registry : ptr) (start : Z) : Prog unit :=
  MustRegister registry gs ;;; tail_reg2 prober ctx module gs gd registry start.

Definition tail_newreg (prober : ProbeFn) (ctx : Context) (module : ConfigModule)
  (gs gd : ptr) (start : Z) : Prog unit :=
  registry <- NewRegistry ;; tail_reg1 prober ctx module gs gd registry start.

Definition tail_checked (module : ConfigModule) (ctx : Context) (gs gd : ptr)
  : Prog unit :=
  if GoStrings.is_empty (Get (Query r) "target") then
    HttpError w "Target parameter is missing" 400 ;;; Done tt
  else
    match effective_module r module with
    | inr err => HttpError w err 400 ;;; Done tt
    | inl module =>
        match Probers !! Prober module with
        | None =>
            HttpError w ("Unknown prober " +:+ Quote (Prober module)) 400 ;;;
            Done tt
        | Some prober =>
            start <- TimeNow ;; tail_newreg prober ctx module gs gd start
        end
    end.

Definition tail_gauge2 (module : ConfigModule) (ctx : Context) (gs : ptr)
  : Prog unit :=
  gd <- NewGauge "probe_duration_seconds"
                 "Returns how long the probe took to complete in seconds" ;;
  tail_checked module ctx gs gd.

Definition tail_gauge1 (module : ConfigModule) (ctx : Context) : Prog unit :=
  gs <- NewGauge "probe_success"
                 "Displays whether or not the probe was a success" ;;
  tail_gauge2 module ctx gs.

(** What is left of the handler at each point. *)
Definition prog_at (pc : PC) (L : Locals) : Prog unit :=
  match pc with
  | AtStart => probeRoute fl ipWhitelist w r
  | Configured => probeHandler fl w r (l_conf L) ipWhitelist
  | Negotiated => bind (tail_gauge1 (l_module L) (l_ctx L)) (cancel (l_ctx L))
  | Gauge1 =>
      bind (tail_gauge2 (l_module L) (l_ctx L) (l_gs L)) (cancel (l_ctx L))
  | Gauge2 =>
      bind (tail_checked (l_module L) (l_ctx L) (l_gs L) (l_gd L))
           (cancel (l_ctx L))
  | Started =>
      bind (tail_newreg (l_prober L) (l_ctx L) (l_effective L) (l_gs L)
              (l_gd L) (l_start L)) (cancel (l_ctx L))
  | Registry =>
      bind (tail_reg1 (l_prober L) (l_ctx L) (l_effective L) (l_gs L)
              (l_gd L) (l_registry L) (l_start L)) (cancel (l_ctx L))
  | Registered1 =>
      bind (tail_reg2 (l_prober L) (l_ctx L) (l_effective L) (l_gs L)
              (l_gd L) (l_registry L) (l_start L)) (cancel (l_ctx L))
  | Registered2 =>
      bind (tail_probe (l_prober L) (l_ctx L) (l_effective L) (l_gs L)
              (l_gd L) (l_registry L) (l_start L)) (cancel (l_ctx L))
  | Probed =>
      bind (tail_since (l_gs L) (l_gd L) (l_registry L) (l_start L)
              (po_success (l_out L))) (cancel (l_ctx L))
  | Since =>
      bind (tail_set (l_gs L) (l_gd L) (l_registry L) (l_start L)
              (po_success (l_out L)) (l_t L)) (cancel (l_ctx L))
  | DurationSet =>
      bind (tail_success (l_gs L) (l_registry L) true) (cancel (l_ctx L))
  | SuccessSet => bind (tail_render (l_registry L)) (cancel (l_ctx L))
  | Gathered =>
      bind (WriteBody w (Expfmt (expected L)) ;;; Done tt) (cancel (l_ctx L))
  | Written | Failing => cancel (l_ctx L) tt
  | Rejected | Failed | Served => Done tt
  end.

(** What holds of the world and of the log of the request at a point. *)
Definition stage_inv (pc : PC) (L : Locals) (W : World) (log : list Step)
  : Prop :=
  (passed pc = true -> inWhitelist (RemoteIP r) ipWhitelist = true)
  /\ sure pc L
  /\ gauges_made log = made_g pc L
  /\ registries_made log = made_r pc L
  /\ readings log = taken pc L
  /\ outcomes log = (if called pc then [l_out L] else [])
  /\ handed_to_prober log
     = (if called pc
        then [(l_registry L, [success_entry 0; duration_entry 0])] else [])
  /\ gathered log = (if rendered pc then [(l_registry L, expected L)] else [])
  /\ registered log = regd pc L
  /\ settings log = sets pc L
  /\ (forall v, at_gs pc L = Some v ->
        gauges W !! l_gs L = Some (gauge_success v))
  /\ (forall v, at_gd pc L = Some v ->
        gauges W !! l_gd L = Some (gauge_duration v))
  /\ (forall cs, at_reg pc L = Some cs ->
        registries W !! l_registry L = Some cs).

End OneRequest.

(** A request in flight stands at one of the points of its handler. *)
Definition thread_inv `{Collaborators} (fl : Flags) (ipWhitelist : list IPNet)
  (W : World) (th : Thread) : Prop :=
  exists w r pc L,
    th_prog th = prog_at fl ipWhitelist w r pc L
    /\ stage_inv ipWhitelist r pc L W (th_log th).

(** The operations that change a gauge or a registry someone made are the
    ones a request performs on its own. *)
Definition own (log : list Step) (o : Op) : Prop :=
  match o with
  | GaugeSet g _ => g ∈ gauges_made log
  | MustRegister registry _ | CallProber _ _ _ _ registry =>
      registry ∈ registries_made log
  | SendReloadCh _ | ReloadConfigOp _ => False
  | _ => True
  end.

(** What one operation of a request may do to the gauges and registries
    of the world: it leaves those the request did not make as they are,
    what it makes did not exist before, and nothing ceases to exist. *)
Definition effects (W W' : World) (log log' : list Step) : Prop :=
  (forall g x, g ∉ gauges_made log ->
     gauges W !! g = Some x -> gauges W' !! g = Some x)
  /\ (forall g x, g ∉ registries_made log ->
        registries W !! g = Some x -> registries W' !! g = Some x)
  /\ (forall g, g ∈ gauges_made log' ->
        (g ∈ gauges_made log)
        \/ ((g ∉ dom (gauges W)) /\ g ∈ dom (gauges W')))
  /\ (forall g, g ∈ registries_made log' ->
        (g ∈ registries_made log)
        \/ ((g ∉ dom (registries W)) /\ g ∈ dom (registries W')))
  /\ dom (gauges W) ⊆ dom (gauges W')
  /\ dom (registries W) ⊆ dom (registries W').

(** Two lists of pointers with no pointer in common. *)
Definition apart (l1 l2 : list ptr) : Prop :=
  forall g, g ∈ l1 -> g ∉ l2.

(** What holds of the requests in flight, [W0] being the world they
    arrived in: each stands at a point of its handler; the gauges and
    registries it made exist and did not exist in [W0]; no two requests
    made the same gauge or the same registry. *)
Definition pool_inv `{Collaborators} (fl : Flags) (ipWhitelist : list IPNet)
  (W0 : World) (P : State) : Prop :=
  (forall i th, threads P !! i = Some th ->
     thread_inv fl ipWhitelist (shared P) th
     /\ (forall g, g ∈ gauges_made (th_log th) ->
           g ∈ dom (gauges (shared P)) /\ g ∉ dom (gauges W0))
     /\ (forall g, g ∈ registries_made (th_log th) ->
           g ∈ dom (registries (shared P)) /\ g ∉ dom (registries W0)))
  /\ (forall i j th th', i <> j ->
        threads P !! i = Some th -> threads P !! j = Some th' ->
        apart (gauges_made (th_log th)) (gauges_made (th_log th'))
        /\ apart (registries_made (th_log th)) (registries_made (th_log th')))
  /\ dom (gauges W0) ⊆ dom (gauges (shared P))
  /\ dom (registries W0) ⊆ dom (registries (shared P)).

(** *** Isolation

    What C6 states of the requests in flight [P], [W0] being the world they
    arrived in.  For every request:

    - what its prober was handed is a registry the request made itself,
      that did not exist in [W0], holding exactly the two entries
      [probe_success] and [probe_duration_seconds], both 0;
    - from the registration of its two gauges until it sets the first of
      them, its registry is made of gauges it made itself and yields
      exactly these two entries, both 0, and what its own prober
      registered;
    - what it gathered for its response comes from the registry it made
      and is exactly its own success, its own duration between its own two
      clock readings, and what its own prober registered;

    and no registry and no gauge made by one request is made by another. *)
Definition isolated (W0 : World) (P : State) : Prop :=
  (forall i th, threads P !! i = Some th ->
     (forall registry ms,
        (registry, ms) ∈ handed_to_prober (th_log th) ->
        ms = [success_entry 0; duration_entry 0]
        /\ registries_made (th_log th) = [registry]
        /\ registry ∉ dom (registries W0))
     /\ (forall registry gs gd,
          registered (th_log th) = [(registry, gs); (registry, gd)] ->
          settings (th_log th) = [] ->
          registries_made (th_log th) = [registry]
          /\ gauges_made (th_log th) = [gs; gd]
          /\ gather registry (shared P)
             = [success_entry 0; duration_entry 0]
               ++ concat (map po_registered (outcomes (th_log th))))
     /\ (forall registry mfs,
          (registry, mfs) ∈ gathered (th_log th) ->
          registries_made (th_log th) = [registry]
          /\ exists out t1 t2,
               outcomes (th_log th) = [out]
               /\ readings (th_log th) = [t1; t2]
               /\ mfs = [success_entry (if po_success out then 1 else 0)%float;
                         duration_entry (GoTime.Seconds (t2 - t1))]
                        ++ po_registered out))
  /\ (forall i j th th', i <> j ->
        threads P !! i = Some th -> threads P !! j = Some th' ->
        apart (registries_made (th_log th)) (registries_made (th_log th'))
        /\ apart (gauges_made (th_log th)) (gauges_made (th_log th'))).

End Stages.
(** ** The operations of a probe request, in order

    What [probeHandler] performs for a request, as a function of the
    request, the Configuration it is given and the world it starts in:
    the pointers it will be given for its gauges and its registry, the
    clock, and what the prober answers. *)

Module Paths.
Import Config Http Runtime Collab GoNet Exporter Spec.

(** The same request with one more query parameter, in front. *)
Definition with_param (k v : string) (r : Request) : Request :=
  {| Method := Method r; Path := Path r; Query := (k, v) :: Query r;
     Header := Header r; RemoteIP := RemoteIP r |}.

(** The response an operation writes to, if it writes to one. *)
Definition written_to (o : Op) : option ptr :=
  match o with
  | HttpError w _ _ | WriteHeader w _ | WriteBody w _ => Some w
  | _ => None
  end.

(** Operations on a context. *)
Definition context_op (o : Op) : bool :=
  match o with
  | WithTimeout _ | Cancel _ => true
  | _ => false
  end.

(** The calls of probers among a list of operations, with all they were
    given. *)
Definition prober_runs (t : list Op)
  : list (ProbeFn * Context * string * ConfigModule * ptr) :=
  omap (fun o => match o with
                 | CallProber fn ctx target module registry =>
                     Some (fn, ctx, target, module, registry)
                 | _ => None
                 end) t.

(** What the reload loop logs after an attempt. *)
Definition reload_log (err : option string) : LogLevel * string :=
  match err with
  | Some e => (LError, "Error reloading config: " +:+ e)
  | None => (LInfo, "Loaded config file")
  end.

Section WithCollaborators.
Context `{Collaborators}.
Variables (fl : Flags) (w : ptr) (r : Request) (c : Config)
  (ipWhitelist : list IPNet).

(** From the start time to the rendering, the module and the prober being
    settled. *)
Definition probing_ops (ctx : Context) (module : ConfigModule) (fn : ProbeFn)
  (W : World) : list Op :=
  let gs := fresh (dom (gauges W)) in
  let gd := fresh (dom (<[gs := {| gauge_Name := "probe_success";
                                   gauge_Help := "Displays whether or not the probe was a success";
                                   gauge_value := 0%float |}]> (gauges W))) in
  let registry := fresh (dom (registries W)) in
  let target := Get (Query r) "target" in
  let out := Probe fn ctx target module (clock W) in
  [TimeNow; NewRegistry; MustRegister registry gs; MustRegister registry gd;
   CallProber fn ctx target module registry; TimeNow;
   GaugeSet gd (GoTime.Seconds (clock W + po_elapsed out - clock W))]
  ++ (if po_success out then [GaugeSet gs 1%float] else [])
  ++ (if inWhitelist (RemoteIP r) ipWhitelist
      then [Gather registry;
            WriteBody w
              (Expfmt ([success_entry (if po_success out then 1 else 0)%float;
                        duration_entry
                          (GoTime.Seconds (clock W + po_elapsed out - clock W))]
                       ++ po_registered out))]
      else [HttpError w DenyMessage DenyStatus]).

(** From the target check on. *)
Definition checked_ops (ctx : Context) (module : ConfigModule) (W : World)
  : list Op :=
  if GoStrings.is_empty (Get (Query r) "target") then
    [HttpError w "Target parameter is missing" 400]
  else
    match effective_module r module with
    | inr err => [HttpError w err 400]
    | inl module =>
        match Probers !! Prober module with
        | None => [HttpError w ("Unknown prober " +:+ Quote (Prober module)) 400]
        | Some fn => probing_ops ctx module fn W
        end
    end.

(** The whole of [probeHandler]. *)
Definition handler_ops (W : World) : list Op :=
  match Modules c !! moduleName r with
  | None => [HttpError w ("Unknown module " +:+ Quote (moduleName r)) 400]
  | Some module =>
      match timeoutHint r with
      | HintUnparseable err =>
          [HttpError w ("Failed to parse timeout from Prometheus header: "
                        +:+ err) StatusInternalServerError]
      | hint =>
          let start := match hint with
                       | HintValue f => if (f =? 0)%float then baseline else f
                       | _ => baseline
                       end in
          let ctx := negotiated_context fl start module (clock W) in
          [WithTimeout (ctx_timeout ctx);
           NewGauge "probe_success"
                    "Displays whether or not the probe was a success";
           NewGauge "probe_duration_seconds"
                    "Returns how long the probe took to complete in seconds"]
          ++ checked_ops ctx module W
          ++ [Cancel ctx]
      end
  end.

End WithCollaborators.

End Paths.

(** ** The text of a whitelist entry *)

Module Entries.
Import GoNet.

(** Every character of a string satisfies [P]. *)
Fixpoint all_chars (P : ascii -> bool) (s : string) : bool :=
  match s with
  | EmptyString => true
  | String c rest => P c && all_chars P rest
  end.

Definition is_digit (c : ascii) : bool := (48 <=? code c) && (code c <=? 57).

(** The characters of a dotted quad, and of an IPv6 literal. *)
Definition quad_char (c : ascii) : bool := is_digit c || Ascii.eqb c "."%char.

Definition literal_char (c : ascii) : bool :=
  match hexval c with
  | Some _ => true
  | None => Ascii.eqb c ":"%char || Ascii.eqb c "."%char
  end.

(** The values a byte takes. *)
Definition is_byte (v : Z) : Prop := 0 <= v <= 255.

(** An address of sixteen bytes. *)
Definition sixteen_bytes (ip : list Z) : Prop :=
  length ip = 16%nat /\ Forall is_byte ip.

End Entries.

(** ** More requests and configurations, for evaluation *)

Module Cases.
Import Config Http Runtime Collab GoNet Exporter Spec.

(** A Configuration whose default module names a kind of prober the
    dispatch table does not hold. *)
Definition conf_smtp : Config :=
  {| Modules := <["http_2xx" := {| Prober := "smtp"; Timeout := 0;
                                  Settings := "" |}]> ∅ |}.

Definition req_unknown_module : Request :=
  Sample.request [("module", "nope"); ("target", "up")] [].

(** The module of [conf_smtp]. *)
Definition smtp_module : ConfigModule :=
  {| Prober := "smtp"; Timeout := 0; Settings := "" |}.

(** Requests of an allowed client to the reload endpoint, with the wrong
    method, and to the inspection endpoint. *)
Definition req_reload_get : Request :=
  {| Method := "GET"; Path := "/-/reload"; Query := []; Header := [];
     RemoteIP := Sample.localhost |}.

Definition req_config : Request :=
  {| Method := "GET"; Path := "/config"; Query := []; Header := [];
     RemoteIP := Sample.localhost |}.

(** The flags with a whitelist that ends with a comma. *)
Definition trailingCommaFlags : Flags :=
  {| configFile := "blackbox.yml"; listenAddress := ":9115";
     timeoutOffset := 0.5%float; ipWhitelistString := "127.0.0.1," |}.

(** The loopback address of IPv6, [::1]. *)
Definition loopback6 : IP := [0; 0; 0; 0; 0; 0; 0; 0; 0; 0; 0; 0; 0; 0; 0; 1].

End Cases.
(** * Properties *)

Import Config Http Runtime Collab GoNet Exporter Spec.

(** ** Running a handler, one operation at a time *)

(** Performs the first operation of the program being run on a world
    given by its fields, and continues with its result. *)
Lemma run_Do `{Collaborators} {A} rl o (k : Ret o -> Prog A) W x W' :
  exec rl o W = (x, W') -> run_with rl (Do o k) W = run_with rl (k x) W'.
Proof. intros E. cbn [run_with]. now rewrite E. Qed.

Ltac run_step_by tac :=
  lazymatch goal with
  | |- context [run_with ?rl (Do ?o ?k) ?W] =>
      erewrite (run_Do rl o k W);
      [ | cbv [exec fst snd
               on_writer writer set_clock set_gauges set_registries set_writers
               set_chans set_sc_C set_logged set_trace
               gather register gauge_set probed
               clock gauges registries writers chans sc_C files logged trace];
          tac; reflexivity ];
      cbv beta iota; cbn [bind negb]
  end.

Ltac run_step := run_step_by idtac.

Ltac map_lookups :=
  repeat first
    [ rewrite lookup_alter_eq | rewrite lookup_insert_eq
    | rewrite lookup_alter_ne by congruence
    | rewrite lookup_insert_ne by congruence ].

Ltac run_done := cbn [run_with fst snd].

Ltac fields :=
  cbv [writer clock gauges registries writers chans sc_C files logged trace].

(** ** What holds of every run of a handler *)

Section Frames.
Context `{Collaborators}.

Lemma ops_in_bind {A B} (P : Op -> Prop) (p : Prog A) (f : A -> Prog B) :
  ops_in P p -> (forall a, ops_in P (f a)) -> ops_in P (bind p f).
Proof.
  intros Hp Hf. induction Hp as [a|o k Ho Hk IH]; cbn [bind].
  - apply Hf.
  - apply ops_Do; [exact Ho|exact IH].
Qed.

Lemma run_invariant {A} rl (P : Op -> Prop) (I : World -> Prop) (p : Prog A) :
  (forall o W, P o -> I W -> I (snd (exec rl o W))) ->
  ops_in P p -> forall W, I W -> I (snd (run_with rl p W)).
Proof.
  intros Hstep Hp. induction Hp as [a|o k Ho Hk IH]; intros W HW; cbn [run_with].
  - exact HW.
  - specialize (Hstep o W Ho HW). destruct (exec rl o W) as [x W1].
    apply IH. exact Hstep.
Qed.

Lemma exec_keeps_configuration rl o W :
  not_reloading o -> sc_C (snd (exec rl o W)) = sc_C W.
Proof.
  destruct W. destruct o; cbn [not_reloading]; intros Ho; try contradiction;
    try reflexivity.
  cbv [exec snd set_trace set_chans chans trace sc_C default from_option id].
  now destruct (_ !! rc) as [[|v q]|].
Qed.

Lemma run_keeps_configuration {A} rl (p : Prog A) W :
  ops_in not_reloading p -> sc_C (snd (run_with rl p W)) = sc_C W.
Proof.
  intros Hp.
  apply (run_invariant rl not_reloading (fun W' => sc_C W' = sc_C W) p);
    [|exact Hp|reflexivity].
  intros o W1 Ho HW. now rewrite exec_keeps_configuration.
Qed.

End Frames.

(** Walks through a handler, branch by branch. *)
Ltac walk_ops :=
  repeat first
    [ match goal with
      | |- ops_in _ (bind _ _) => apply ops_in_bind; [| intros ?]
      | |- ops_in _ (match ?x with _ => _ end) => destruct x
      | |- ops_in _ (if ?x then _ else _) => destruct x
      | |- ops_in _ (Done _) => apply ops_Done
      | |- ops_in _ (Do _ _) => apply ops_Do; [exact I | intros ?]
      end ].

Section HandlerFacts.
Context `{Collaborators}.

Lemma is_empty_true (s : string) : GoStrings.is_empty s = true <-> s = "".
Proof. destruct s; simpl; split; congruence. Qed.

Lemma clamp_code (ceiling candidate : float) :
  (if ((ceiling <? candidate) && (0 <? ceiling))%float then ceiling else candidate)
  = clamp ceiling candidate.
Proof. unfold clamp. now rewrite andb_comm. Qed.

Lemma run_bind {A B} rl (p : Prog A) (f : A -> Prog B) W :
  run_with rl (bind p f) W
  = run_with rl (f (fst (run_with rl p W))) (snd (run_with rl p W)).
Proof.
  revert W. induction p as [a|o k IH]; intros W; cbn [bind run_with fst snd].
  - reflexivity.
  - destruct (exec rl o W) as [x W']. apply IH.
Qed.

Lemma fresh_insert_ne {A} (m : gmap ptr A) (x : A) :
  fresh (dom (<[fresh (dom m) := x]> m)) <> fresh (dom m).
Proof.
  intros E. apply (is_fresh (dom (<[fresh (dom m) := x]> m))).
  rewrite E, dom_insert_L. set_solver.
Qed.

Lemma omap_CMetric (G : gmap ptr Gauge) (ms : list Metric) :
  omap (collect G) (map CMetric ms) = ms.
Proof. induction ms as [|m ms IH]; [reflexivity|]. cbn. f_equal. exact IH. Qed.

Lemma gather_two (G : gmap ptr Gauge) gs gd m1 m2 ms :
  sample_of <$> G !! gs = Some m1 -> sample_of <$> G !! gd = Some m2 ->
  omap (collect G) (CGauge gs :: CGauge gd :: map CMetric ms) = m1 :: m2 :: ms.
Proof.
  intros Ha Hb. cbn [omap list_omap collect]. rewrite Ha, Hb.
  do 2 f_equal. apply omap_CMetric.
Qed.

(** The text [probeHandler] parses as the hint, read through
    [timeoutHint]. *)
Lemma parsed_start (r : Request) start :
  negotiation_start (timeoutHint r) = Some start ->
  exists f,
    (if negb (GoStrings.is_empty (Get (Header r) "X-Prometheus-Scrape-Timeout-Seconds"))
     then ParseFloat (Get (Header r) "X-Prometheus-Scrape-Timeout-Seconds")
     else inl 0%float) = inl f
    /\ (if (f =? 0)%float then 10%float else f) = start.
Proof.
  unfold timeoutHint, hintHeader.
  destruct (GoStrings.is_empty _); simpl.
  - intros [= <-]. now exists 0%float.
  - destruct (ParseFloat _) as [f|e]; [|discriminate]. intros [= <-]. now exists f.
Qed.

Lemma parsed_hint (r : Request) :
  (if negb (GoStrings.is_empty (Get (Header r) "X-Prometheus-Scrape-Timeout-Seconds"))
   then ParseFloat (Get (Header r) "X-Prometheus-Scrape-Timeout-Seconds")
   else inl 0%float)
  = match timeoutHint r with
    | HintAbsent => inl 0%float
    | HintValue f => inl f
    | HintUnparseable err => inr err
    end.
Proof.
  unfold timeoutHint, hintHeader.
  destruct (GoStrings.is_empty _); simpl; [reflexivity|].
  now destruct (ParseFloat _).
Qed.

Lemma recovered_module (r : Request) (module : ConfigModule) :
  (if negb (GoStrings.is_empty (Get (Query r) "config"))
   then RecoverConfig (Get (Query r) "config") module else inl module)
  = effective_module r module.
Proof. unfold effective_module. now destruct (GoStrings.is_empty _). Qed.

(** [probeHandler] once the module is resolved and the hint read: the
    negotiation, then the rest under the derived context. *)
Lemma probeHandler_resolved fl w r c ipWhitelist module start :
  Modules c !! moduleName r = Some module ->
  negotiation_start (timeoutHint r) = Some start ->
  exists k,
    probeHandler fl w r c ipWhitelist
    = Do (WithTimeout (deadline (budget start (GoTime.Seconds (Timeout module))
                                        (timeoutOffset fl)))) k.
Proof.
  intros Hm Hs. unfold probeHandler. fold (moduleName r). rewrite Hm.
  destruct (parsed_start _ _ Hs) as (f & Hf & Hf').
  rewrite Hf, Hf', clamp_code. eexists; reflexivity.
Qed.

Lemma Get_without (hs : list (string * string)) :
  Get (filter (fun kv => fst kv <> hintHeader) hs) hintHeader = "".
Proof.
  unfold Get. induction hs as [|[k v] hs IH]; [reflexivity|].
  rewrite filter_cons. cbn [fst]. destruct (decide (k <> hintHeader)) as [Hk|Hk].
  - cbn [find fst]. destruct (String.eqb_spec k hintHeader); [contradiction|exact IH].
  - exact IH.
Qed.

(** What [probeHandler] does first once the module is resolved and the
    hint, if any, is read. *)
Lemma probeHandler_negotiates fl w r c ipWhitelist module start :
  Modules c !! moduleName r = Some module ->
  negotiation_start (timeoutHint r) = Some start ->
  first_op (probeHandler fl w r c ipWhitelist)
  = Some (WithTimeout
            (deadline (budget start (GoTime.Seconds (Timeout module))
                              (timeoutOffset fl)))).
Proof.
  intros Hm Hs. destruct (probeHandler_resolved fl w r c ipWhitelist _ _ Hm Hs) as [k ->].
  reflexivity.
Qed.

(** *** The paths of [probeHandler] *)

Ltac enter_probeHandler Hm :=
  unfold probeHandler;
  match type of Hm with Modules _ !! moduleName ?r = _ => fold (moduleName r) end;
  rewrite Hm.

Ltac negotiate Hs :=
  let f := fresh "f" in
  let Hf := fresh "Hf" in
  let Hf' := fresh "Hf" in
  destruct (parsed_start _ _ Hs) as (f & Hf & Hf');
  rewrite Hf, Hf', clamp_code.

(** The module is not in the Configuration. *)
Lemma probeHandler_unknown_module fl W w r c ipWhitelist :
  Modules c !! moduleName r = None ->
  run fl (probeHandler fl w r c ipWhitelist) W
  = exec (serveReload fl)
      (HttpError w ("Unknown module " +:+ Quote (moduleName r)) 400) W.
Proof.
  intros Hm. unfold probeHandler. fold (moduleName r). rewrite Hm.
  unfold run. cbn [run_with]. now destruct (exec _ _ W) as [[] W'].
Qed.

(** The hint is present and does not parse. *)
Lemma probeHandler_unparseable fl W w r c ipWhitelist module err :
  Modules c !! moduleName r = Some module ->
  timeoutHint r = HintUnparseable err ->
  run fl (probeHandler fl w r c ipWhitelist) W
  = exec (serveReload fl)
      (HttpError w ("Failed to parse timeout from Prometheus header: " +:+ err)
                 StatusInternalServerError) W.
Proof.
  intros Hm Hh. enter_probeHandler Hm. rewrite parsed_hint, Hh.
  unfold run. cbn [run_with]. now destruct (exec _ _ W) as [[] W'].
Qed.

(** The target is missing. *)
Lemma probeHandler_missing_target fl W w r c ipWhitelist module start :
  Modules c !! moduleName r = Some module ->
  negotiation_start (timeoutHint r) = Some start ->
  GoStrings.is_empty (Get (Query r) "target") = true ->
  let ctx := negotiated_context fl start module (clock W) in
  let W' := snd (run fl (probeHandler fl w r c ipWhitelist) W) in
  writer w W' = Http.error "Target parameter is missing" 400 (writer w W)
  /\ trace W' = trace W ++
       [WithTimeout (ctx_timeout ctx);
        NewGauge "probe_success"
                 "Displays whether or not the probe was a success";
        NewGauge "probe_duration_seconds"
                 "Returns how long the probe took to complete in seconds";
        HttpError w "Target parameter is missing" 400;
        Cancel ctx]
  /\ sc_C W' = sc_C W.
Proof.
  intros Hm Hs Ht ctx W'. subst ctx W'. destruct W.
  unfold negotiated_context, deadline, budget.
  enter_probeHandler Hm.
  negotiate Hs. rewrite Ht.
  unfold run; cbn [bind]; repeat run_step; run_done; fields;
    rewrite lookup_insert_eq; cbn [default from_option id];
    rewrite <- !app_assoc; cbn [app]; auto.
Qed.

(** The inline override does not parse or merge. *)
Lemma probeHandler_bad_override fl W w r c ipWhitelist module start err :
  Modules c !! moduleName r = Some module ->
  negotiation_start (timeoutHint r) = Some start ->
  GoStrings.is_empty (Get (Query r) "target") = false ->
  effective_module r module = inr err ->
  let W' := snd (run fl (probeHandler fl w r c ipWhitelist) W) in
  writer w W' = Http.error err 400 (writer w W)
  /\ prober_calls (trace W') = prober_calls (trace W)
  /\ sc_C W' = sc_C W.
Proof.
  intros Hm Hs Ht He W'. subst W'. destruct W.
  enter_probeHandler Hm.
  negotiate Hs. rewrite Ht, recovered_module, He.
  unfold run; cbn [bind]; repeat run_step; run_done; fields;
    rewrite lookup_insert_eq; cbn [default from_option id];
    unfold prober_calls; rewrite !omap_app; cbn [omap list_omap];
    rewrite !app_nil_r; auto.
Qed.

(** No prober is registered for the kind of the module. *)
Lemma probeHandler_unknown_prober fl W w r c ipWhitelist module start m' :
  Modules c !! moduleName r = Some module ->
  negotiation_start (timeoutHint r) = Some start ->
  GoStrings.is_empty (Get (Query r) "target") = false ->
  effective_module r module = inl m' ->
  Probers !! Prober m' = None ->
  let W' := snd (run fl (probeHandler fl w r c ipWhitelist) W) in
  writer w W'
  = Http.error ("Unknown prober " +:+ Quote (Prober m')) 400 (writer w W)
  /\ prober_calls (trace W') = prober_calls (trace W)
  /\ sc_C W' = sc_C W.
Proof.
  intros Hm Hs Ht He Hp W'. subst W'. destruct W.
  enter_probeHandler Hm.
  negotiate Hs. rewrite Ht, recovered_module, He, Hp.
  unfold run; cbn [bind]; repeat run_step; run_done; fields;
    rewrite lookup_insert_eq; cbn [default from_option id];
    unfold prober_calls; rewrite !omap_app; cbn [omap list_omap];
    rewrite !app_nil_r; auto.
Qed.

(** The prober is called. *)
Lemma probeHandler_probes fl W w r c ipWhitelist module start m' fn :
  Modules c !! moduleName r = Some module ->
  negotiation_start (timeoutHint r) = Some start ->
  GoStrings.is_empty (Get (Query r) "target") = false ->
  effective_module r module = inl m' ->
  Probers !! Prober m' = Some fn ->
  inWhitelist (RemoteIP r) ipWhitelist = true ->
  let ctx := negotiated_context fl start module (clock W) in
  let out := Probe fn ctx (Get (Query r) "target") m' (clock W) in
  let W' := snd (run fl (probeHandler fl w r c ipWhitelist) W) in
  writer w W'
  = write (Expfmt ([success_entry (if po_success out then 1 else 0)%float;
                    duration_entry (GoTime.Seconds (clock W' - clock W))]
                   ++ po_registered out))
          (writer w W)
  /\ clock W' = clock W + po_elapsed out
  /\ prober_calls (trace W')
     = prober_calls (trace W) ++ [(fn, Get (Query r) "target", m')]
  /\ sc_C W' = sc_C W.
Proof.
  intros Hm Hs Ht He Hp Hw ctx out W'. subst W' out ctx. destruct W.
  unfold negotiated_context, deadline, budget, success_entry, duration_entry.
  enter_probeHandler Hm.
  negotiate Hs. rewrite Ht, recovered_module, He, Hp.
  unfold HandlerFor_ServeHTTP, CheckInIpWhitelist; rewrite Hw.
  unfold run; cbn [bind]; do 9 run_step.
  match goal with |- context [if po_success ?o then _ else _] =>
      set (out := o); destruct (po_success out) eqn:Eo end.
  all: cbn [bind negb]; repeat run_step; run_done; fields;
    rewrite !lookup_insert_eq; cbv [default from_option id]; cbn [app];
    repeat match goal with |- context [Probe ?a ?b ?c ?d ?e] =>
      progress change (Probe a b c d e) with out end;
    rewrite ?Eo;
    (split; [|split; [reflexivity|split; [|reflexivity]]]).
  all: try (unfold prober_calls; rewrite !omap_app; cbn [omap list_omap];
            rewrite !app_nil_r; reflexivity).
  all: match goal with |- context [CGauge ?a :: CGauge ?b :: _] =>
         assert (b <> a) by apply fresh_insert_ne;
         set (gd := b) in *; set (gs := a) in * end;
       do 2 f_equal; apply gather_two.
  all: map_lookups.
  all: try reflexivity.
Qed.

End HandlerFacts.

(** ** Timeout negotiation (C1, C10) *)

Section Negotiation.
Context `{Collaborators}.

(** C10: a timeout hint that is present and parses to zero is treated as an
    absent hint.  The handler is the very program it is for the same request
    without the hint header, and once the module is resolved it starts by
    deriving the context from the baseline 10, clamped by a positive module
    ceiling, minus the offset: the value 0 is never the candidate. *)
Theorem zero_hint_is_absent_hint fl w r c ipWhitelist f :
  timeoutHint r = HintValue f ->
  (f =? 0)%float = true ->
  probeHandler fl w r c ipWhitelist
  = probeHandler fl w (without_hint r) c ipWhitelist
  /\ timeoutHint (without_hint r) = HintAbsent
  /\ forall module,
       Modules c !! moduleName r = Some module ->
       first_op (probeHandler fl w r c ipWhitelist)
       = Some (WithTimeout
                 (deadline (budget baseline (GoTime.Seconds (Timeout module))
                                   (timeoutOffset fl)))).
Proof.
  intros Hh Hz.
  assert (Ha : timeoutHint (without_hint r) = HintAbsent).
  { unfold timeoutHint. cbn [Header without_hint]. now rewrite Get_without. }
  split; [|split; [exact Ha|]].
  - unfold probeHandler. cbn [Query Header RemoteIP without_hint].
    rewrite !parsed_hint. fold hintHeader.
    change (Get (filter _ (Header r)) hintHeader) with
      (Get (Header (without_hint r)) hintHeader).
    rewrite !parsed_hint, Hh, Ha, Hz.
    unfold HandlerFor_ServeHTTP, CheckInIpWhitelist.
    cbn [RemoteIP without_hint]. reflexivity.
  - intros module Hm. apply probeHandler_negotiates; [exact Hm|].
    rewrite Hh. cbn [negotiation_start]. now rewrite Hz.
Qed.

(** C1 (amended): once the module is resolved and the hint is absent or
    parses, the handler starts by deriving a context whose timeout is
    (candidate - offset), where the candidate starts at the hint if it is
    present, parses and is not zero, and at the baseline 10 otherwise, and
    is clamped down to a positive module ceiling strictly below it; the
    default offset is 0.5.  In particular: no ceiling and no hint give
    10 - offset; ceiling 5 and hint 20 give 5 - offset; ceiling 0 and hint 3
    give 3 - offset. *)
Theorem timeout_negotiation fl w r c ipWhitelist module start :
  Modules c !! moduleName r = Some module ->
  negotiation_start (timeoutHint r) = Some start ->
  first_op (probeHandler fl w r c ipWhitelist)
  = Some (WithTimeout
            (deadline (budget start (GoTime.Seconds (Timeout module))
                              (timeoutOffset fl))))
  /\ timeoutOffset defaultFlags = 0.5%float
  /\ (Timeout module = 0 -> timeoutHint r = HintAbsent ->
      budget start (GoTime.Seconds (Timeout module)) (timeoutOffset fl)
      = (10 - timeoutOffset fl)%float)
  /\ (Timeout module = 5 * GoTime.Second -> timeoutHint r = HintValue 20%float ->
      budget start (GoTime.Seconds (Timeout module)) (timeoutOffset fl)
      = (5 - timeoutOffset fl)%float)
  /\ (Timeout module = 0 -> timeoutHint r = HintValue 3%float ->
      budget start (GoTime.Seconds (Timeout module)) (timeoutOffset fl)
      = (3 - timeoutOffset fl)%float).
Proof.
  intros Hm Hs. split; [now apply probeHandler_negotiates|].
  split; [reflexivity|].
  repeat split; intros Ht Hh; rewrite Hh in Hs; injection Hs as <-;
    rewrite Ht; reflexivity.
Qed.

End Negotiation.

(** ** Rejections (C2, C8) *)

Section Rejections.
Context `{Collaborators}.

(** C8 (amended): for every probe request whose module resolves and whose
    timeout hint is present but does not parse, the orchestrator answers
    with the server error 500 and a body that carries the parser's error;
    it does nothing else. *)
Theorem unparseable_hint_is_server_error fl W w r c ipWhitelist module err :
  Modules c !! moduleName r = Some module ->
  timeoutHint r = HintUnparseable err ->
  writer w W = newResponseWriter ->
  let msg := "Failed to parse timeout from Prometheus header: " +:+ err in
  let W' := snd (run fl (probeHandler fl w r c ipWhitelist) W) in
  writer w W' = {| Status := Some 500; Body := msg +:+ newline |}
  /\ trace W' = trace W ++ [HttpError w msg 500].
Proof.
  intros Hm Hh Hw msg W'. subst W'.
  rewrite (probeHandler_unparseable fl W w r c ipWhitelist module err Hm Hh).
  destruct W. cbv [exec snd on_writer set_trace set_writers] in *. fields.
  cbv [writer writers] in Hw.
  rewrite lookup_insert_eq. cbn [default from_option id]. split; [|reflexivity].
  fold (default newResponseWriter (writers0 !! w)). rewrite Hw. reflexivity.
Qed.

(** C2 (amended): for every probe request without a [target] whose module
    resolves and whose timeout hint is absent or parses, the orchestrator
    answers 400 with the message that the target parameter is missing,
    whatever the [config] parameter holds; the rejection comes after the
    module resolution and the timeout negotiation, and no prober is
    called. *)
Theorem missing_target_rejected fl W w r c ipWhitelist module start :
  Modules c !! moduleName r = Some module ->
  negotiation_start (timeoutHint r) = Some start ->
  Get (Query r) "target" = "" ->
  writer w W = newResponseWriter ->
  let ctx := negotiated_context fl start module (clock W) in
  let W' := snd (run fl (probeHandler fl w r c ipWhitelist) W) in
  writer w W' = {| Status := Some 400;
                   Body := "Target parameter is missing" +:+ newline |}
  /\ trace W' = trace W ++
       [WithTimeout (ctx_timeout ctx);
        NewGauge "probe_success"
                 "Displays whether or not the probe was a success";
        NewGauge "probe_duration_seconds"
                 "Returns how long the probe took to complete in seconds";
        HttpError w "Target parameter is missing" 400;
        Cancel ctx]
  /\ prober_calls (trace W') = prober_calls (trace W).
Proof.
  intros Hm Hs Ht Hw ctx W'.
  assert (Ht' : GoStrings.is_empty (Get (Query r) "target") = true)
    by now rewrite Ht.
  destruct (probeHandler_missing_target fl W w r c ipWhitelist module start
              Hm Hs Ht') as (Hwr & Htr & _).
  fold ctx W' in Hwr, Htr. split; [|split; [exact Htr|]].
  - rewrite Hwr, Hw. reflexivity.
  - rewrite Htr. unfold prober_calls. rewrite omap_app. cbn [omap list_omap].
    now rewrite app_nil_r.
Qed.

End Rejections.

(** ** Finalization and the inline override (C5, C7) *)

Section Probing.
Context `{Collaborators}.

(** C5: for every probe request that reaches the prober call, after the
    prober returns the duration entry holds the elapsed time (the clock
    when the prober has returned less the clock at the start) whatever the
    outcome, the success entry holds 1 if the prober returned true and its
    default 0 otherwise, and the response is 200 with the rendered
    container: these two entries, then what the prober registered. *)
Theorem probe_finalization fl W w r c ipWhitelist module start m' fn :
  Modules c !! moduleName r = Some module ->
  negotiation_start (timeoutHint r) = Some start ->
  GoStrings.is_empty (Get (Query r) "target") = false ->
  effective_module r module = inl m' ->
  Probers !! Prober m' = Some fn ->
  inWhitelist (RemoteIP r) ipWhitelist = true ->
  writer w W = newResponseWriter ->
  let ctx := negotiated_context fl start module (clock W) in
  let out := Probe fn ctx (Get (Query r) "target") m' (clock W) in
  let W' := snd (run fl (probeHandler fl w r c ipWhitelist) W) in
  writer w W'
  = {| Status := Some 200;
       Body := Expfmt ([success_entry (if po_success out then 1 else 0)%float;
                        duration_entry (GoTime.Seconds (clock W' - clock W))]
                       ++ po_registered out) |}
  /\ clock W' - clock W = po_elapsed out.
Proof.
  intros Hm Hs Ht He Hp Hal Hw ctx out W'.
  destruct (probeHandler_probes fl W w r c ipWhitelist module start m' fn
              Hm Hs Ht He Hp Hal) as (Hwr & Hck & _).
  fold ctx out W' in Hwr, Hck. split; [|lia].
  rewrite Hwr, Hw. reflexivity.
Qed.

(** No path of [probeHandler] attempts or requests a reload. *)
Lemma probeHandler_ops fl w r c ipWhitelist :
  ops_in not_reloading (probeHandler fl w r c ipWhitelist).
Proof.
  unfold probeHandler, HandlerFor_ServeHTTP, CheckInIpWhitelist. walk_ops.
Qed.

Lemma probeRoute_ops fl ipWhitelist w r :
  ops_in not_reloading (probeRoute fl ipWhitelist w r).
Proof.
  unfold probeRoute, CheckInIpWhitelist. walk_ops. apply probeHandler_ops.
Qed.

(** The handler of [/probe] for an allowed client: the Configuration is
    read, and [probeHandler] runs on what was read. *)
Lemma probeRoute_allowed fl ipWhitelist w r W :
  inWhitelist (RemoteIP r) ipWhitelist = true ->
  run fl (probeRoute fl ipWhitelist w r) W
  = run fl (probeHandler fl w r (sc_C W) ipWhitelist)
        (set_trace (trace W ++ [LockedConfig]) W).
Proof.
  intros Hal. unfold probeRoute, CheckInIpWhitelist. rewrite Hal.
  unfold run. cbn [bind negb run_with exec]. reflexivity.
Qed.

Lemma effective_module_override (r : Request) (module : ConfigModule) :
  Get (Query r) "config" <> "" ->
  effective_module r module = RecoverConfig (Get (Query r) "config") module.
Proof.
  intros Hc. unfold effective_module.
  destruct (GoStrings.is_empty (Get (Query r) "config")) eqn:E; [|reflexivity].
  apply is_empty_true in E. contradiction.
Qed.

(** C7: the inline [config] override is parsed and merged onto the module
    value the handler holds, and no [/probe] request ever writes the shared
    Configuration; when the override does not parse or merge, the request
    is answered 400 with the parser's message and no prober is called; when
    it merges, the prober is given the merged module; and a request without
    [config] hands the prober the module of the Configuration itself,
    whatever request, with whatever override, was served before it. *)
Theorem inline_override fl ipWhitelist W w r module start :
  Modules (sc_C W) !! moduleName r = Some module ->
  negotiation_start (timeoutHint r) = Some start ->
  GoStrings.is_empty (Get (Query r) "target") = false ->
  inWhitelist (RemoteIP r) ipWhitelist = true ->
  let target := Get (Query r) "target" in
  let W' := snd (run fl (probeRoute fl ipWhitelist w r) W) in
  (forall w1 r1,
     sc_C (snd (run fl (probeRoute fl ipWhitelist w1 r1) W)) = sc_C W)
  /\ (forall err,
        Get (Query r) "config" <> "" ->
        RecoverConfig (Get (Query r) "config") module = inr err ->
        writer w W = newResponseWriter ->
        writer w W' = {| Status := Some 400; Body := err +:+ newline |}
        /\ prober_calls (trace W') = prober_calls (trace W))
  /\ (forall m' fn,
        Get (Query r) "config" <> "" ->
        RecoverConfig (Get (Query r) "config") module = inl m' ->
        Probers !! Prober m' = Some fn ->
        prober_calls (trace W') = prober_calls (trace W) ++ [(fn, target, m')])
  /\ (forall fn w1 r1,
        Get (Query r) "config" = "" ->
        Probers !! Prober module = Some fn ->
        let W1 := snd (run fl (probeRoute fl ipWhitelist w1 r1) W) in
        prober_calls (trace (snd (run fl (probeRoute fl ipWhitelist w r) W1)))
        = prober_calls (trace W1) ++ [(fn, target, module)]).
Proof.
  intros Hm Hs Ht Hal target W'.
  assert (Hframe : forall w1 r1 W0,
            sc_C (snd (run fl (probeRoute fl ipWhitelist w1 r1) W0)) = sc_C W0).
  { intros w1 r1 W0. apply run_keeps_configuration, probeRoute_ops. }
  assert (Hcalls : forall W0, prober_calls (trace (set_trace (trace W0 ++ [LockedConfig]) W0))
                              = prober_calls (trace W0)).
  { intros W0. destruct W0. cbv [set_trace trace]. unfold prober_calls.
    rewrite omap_app. cbn [omap list_omap]. now rewrite app_nil_r. }
  assert (Hwriter : forall W0, writer w (set_trace (trace W0 ++ [LockedConfig]) W0)
                               = writer w W0) by (intros W0; now destruct W0).
  assert (Hconf : forall W0, sc_C (set_trace (trace W0 ++ [LockedConfig]) W0) = sc_C W0)
    by (intros W0; now destruct W0).
  split; [intros w1 r1; apply Hframe|].
  subst W'. rewrite probeRoute_allowed by exact Hal.
  split; [|split].
  - intros err Hc He Hw.
    assert (He' : effective_module r module = inr err)
      by now rewrite effective_module_override.
    destruct (probeHandler_bad_override fl (set_trace (trace W ++ [LockedConfig]) W)
                w r (sc_C W) ipWhitelist module start err Hm Hs Ht He')
      as (Hwr & Hpc & _).
    rewrite Hwr, Hpc, Hwriter, Hcalls, Hw. split; reflexivity.
  - intros m' fn Hc He Hp.
    assert (He' : effective_module r module = inl m')
      by now rewrite effective_module_override.
    destruct (probeHandler_probes fl (set_trace (trace W ++ [LockedConfig]) W)
                w r (sc_C W) ipWhitelist module start m' fn Hm Hs Ht He' Hp Hal)
      as (_ & _ & Hpc & _).
    rewrite Hpc, Hcalls. reflexivity.
  - intros fn w1 r1 Hc Hp W1.
    assert (He' : effective_module r module = inl module).
    { unfold effective_module. now rewrite Hc. }
    rewrite probeRoute_allowed by exact Hal.
    assert (HW1 : sc_C W1 = sc_C W) by apply Hframe.
    rewrite HW1.
    destruct (probeHandler_probes fl (set_trace (trace W1 ++ [LockedConfig]) W1)
                w r (sc_C W) ipWhitelist module start module fn Hm Hs Ht He' Hp Hal)
      as (_ & _ & Hpc & _).
    rewrite Hpc, Hcalls. reflexivity.
Qed.

End Probing.

(** ** Access control (C4) *)

Section AccessControl.
Context `{Collaborators}.

(** C4: on every exposed endpoint (reload, metrics, probe, landing page,
    configuration) the handler is the access check followed by the rest,
    and for a client the whitelist denies, the whole run of the handler is
    the one operation that writes the denial, a client error: the
    Configuration is not read, no gauge or registry is created, registered
    or gathered, no reload is requested, nothing is logged. *)
Theorem denied_request_has_no_effect fl ipWhitelist e w r W :
  inWhitelist (RemoteIP r) ipWhitelist = false ->
  let deny := HttpError w DenyMessage DenyStatus in
  let W' := snd (run fl (endpointHandler fl ipWhitelist e w r) W) in
  (exists rest,
     endpointHandler fl ipWhitelist e w r
     = bind (CheckInIpWhitelist w r ipWhitelist)
            (fun ok => if negb ok then Done tt else rest))
  /\ run fl (endpointHandler fl ipWhitelist e w r) W
     = exec (serveReload fl) deny W
  /\ trace W' = trace W ++ [deny]
  /\ side_effect deny = false
  /\ writer w W' = Http.error DenyMessage DenyStatus (writer w W)
  /\ 400 <= DenyStatus < 500
  /\ sc_C W' = sc_C W /\ gauges W' = gauges W /\ registries W' = registries W
  /\ chans W' = chans W /\ logged W' = logged W /\ files W' = files W.
Proof.
  intros Hd deny W'.
  split.
  { destruct e; eexists; reflexivity. }
  assert (Hrun : run fl (endpointHandler fl ipWhitelist e w r) W
                 = exec (serveReload fl) deny W).
  { destruct e; cbn [endpointHandler];
      unfold reloadHandler, Handler, HandlerFor_ServeHTTP, probeRoute,
        landingHandler, configHandler, CheckInIpWhitelist;
      rewrite Hd; unfold run; cbn [bind negb run_with];
      now destruct (exec _ _ W) as [[] W1]. }
  split; [exact Hrun|]. subst W'. rewrite Hrun. subst deny.
  split; [now destruct W|]. split; [reflexivity|].
  split.
  { destruct W. cbv [exec snd on_writer set_trace set_writers]. fields.
    now rewrite lookup_insert_eq. }
  split; [exact DenyStatus_client_error|].
  destruct W. repeat split; reflexivity.
Qed.

End AccessControl.

(** ** Reload (C3) *)

Section Reload.
Context `{Collaborators}.

Lemma ReloadConfig_fails fl W e :
  reload_failure fl W e ->
  forall W1, files W1 = files W ->
             ReloadConfig (configFile fl) W1 = (Some e, W1).
Proof.
  intros Hf W1 Hfiles. unfold ReloadConfig. rewrite Hfiles.
  destruct Hf as [Hr|y e Hr Hp|y c e Hr Hp Hv]; rewrite Hr; [reflexivity| |];
    rewrite Hp; [reflexivity|]. now rewrite Hv.
Qed.

(** One turn of the reload loop whose attempt fails. *)
Lemma reloadLoopBody_fails rl fl W t e :
  reload_failure fl W e ->
  let W' := snd (run_with rl (reloadLoopBody fl t) W) in
  sc_C W' = sc_C W /\ writers W' = writers W /\ files W' = files W
  /\ gauges W' = gauges W /\ registries W' = registries W
  /\ logged W' = logged W ++ [(LError, "Error reloading config: " +:+ e)]
  /\ chans W'
     = match t with
       | Hup => chans W
       | ReloadRequest rc =>
           <[rc := default [] (chans W !! rc) ++ [Some e]]> (chans W)
       end.
Proof.
  intros Hf W'. subst W'.
  pose proof (ReloadConfig_fails fl W e Hf) as HR.
  destruct t as [|rc]; cbn [reloadLoopBody run_with];
    cbn [exec]; rewrite HR by (now destruct W); destruct W;
    repeat run_step; run_done; fields; repeat split; reflexivity.
Qed.

Lemma configHandler_response fl ipWhitelist w r W :
  inWhitelist (RemoteIP r) ipWhitelist = true ->
  writer w (snd (run fl (configHandler ipWhitelist w r) W))
  = inspection_response (sc_C W) (writer w W).
Proof.
  intros Hal. unfold configHandler, CheckInIpWhitelist, inspection_response.
  rewrite Hal. unfold run. cbn [bind negb]. destruct W. run_step.
  fields. destruct (MarshalYAML sc_C0) as [text|err];
    repeat run_step; run_done; fields; now rewrite lookup_insert_eq.
Qed.

(** The reload loop serving a request when the attempt fails. *)
Lemma serveReload_fails fl rc W e :
  reload_failure fl W e ->
  sc_C (serveReload fl rc W) = sc_C W
  /\ writers (serveReload fl rc W) = writers W
  /\ chans (serveReload fl rc W)
     = <[rc := default [] (chans W !! rc) ++ [Some e]]> (chans W).
Proof.
  intros Hf.
  destruct (reloadLoopBody_fails (fun _ W => W) fl W (ReloadRequest rc) e Hf)
    as (Hc & Hw & _ & _ & _ & _ & Hch).
  unfold serveReload. auto.
Qed.

(** The administrative endpoint when the attempt it triggers fails. *)
Lemma reloadHandler_fails fl ipWhitelist w r W e :
  reload_failure fl W e ->
  inWhitelist (RemoteIP r) ipWhitelist = true ->
  Method r = "POST" ->
  let W' := snd (run fl (reloadHandler ipWhitelist w r) W) in
  sc_C W' = sc_C W
  /\ writer w W'
     = Http.error ("failed to reload config: " +:+ e) StatusInternalServerError
                  (writer w W).
Proof.
  intros Hf Hal Hpost W'. subst W'.
  unfold reloadHandler, CheckInIpWhitelist. rewrite Hal, Hpost.
  unfold run. cbn [bind negb String.eqb Ascii.eqb Bool.eqb].
  destruct W. run_step.
  match goal with |- context [run_with ?rl (Do (SendReloadCh ?rc) ?k) ?W1] =>
    assert (Hf2 : reload_failure fl (set_trace (trace W1 ++ [SendReloadCh rc]) W1) e)
      by (destruct Hf; econstructor; eassumption);
    pose proof (serveReload_fails fl rc _ e Hf2) as (Hc & Hw & Hch);
    erewrite (run_Do rl (SendReloadCh rc) k W1 tt
                (serveReload fl rc (set_trace (trace W1 ++ [SendReloadCh rc]) W1)))
      by reflexivity
  end.
  match goal with |- context [serveReload fl ?rc ?W1] =>
    set (W2 := serveReload fl rc W1) in *
  end.
  cbv [set_trace sc_C writers chans trace] in Hc, Hw, Hch.
  clearbody W2. destruct W2. cbv [sc_C writers chans] in Hc, Hw, Hch. subst.
  rewrite lookup_insert_eq. cbn [default from_option id app bind].
  run_step_by ltac:(rewrite lookup_insert_eq; cbv [default from_option id]).
  repeat run_step. run_done. fields.
  split; [reflexivity|now rewrite lookup_insert_eq].
Qed.

(** C3: every reload attempt that fails (file unreadable, parse error,
    validation error) leaves the Configuration of the store as it was, and
    the inspection endpoint answers from it as before; the error is sent on
    the reply channel when the trigger carried one (and the administrative
    endpoint then answers 500 with it), and it is logged when the trigger
    was the signal. *)
Theorem failed_reload_keeps_configuration fl W t e :
  reload_failure fl W e ->
  let W' := snd (run fl (reloadLoopBody fl t) W) in
  sc_C W' = sc_C W
  /\ (forall ipWhitelist w r,
        inWhitelist (RemoteIP r) ipWhitelist = true ->
        writer w (snd (run fl (configHandler ipWhitelist w r) W'))
        = writer w (snd (run fl (configHandler ipWhitelist w r) W)))
  /\ match t with
     | ReloadRequest rc =>
         chans W' !! rc = Some (default [] (chans W !! rc) ++ [Some e])
     | Hup =>
         chans W' = chans W
         /\ logged W' = logged W ++ [(LError, "Error reloading config: " +:+ e)]
     end
  /\ (forall ipWhitelist w r,
        inWhitelist (RemoteIP r) ipWhitelist = true ->
        Method r = "POST" ->
        writer w W = newResponseWriter ->
        let W2 := snd (run fl (reloadHandler ipWhitelist w r) W) in
        sc_C W2 = sc_C W
        /\ writer w W2
           = {| Status := Some 500;
                Body := "failed to reload config: " +:+ e +:+ newline |}).
Proof.
  intros Hf W'.
  destruct (reloadLoopBody_fails (serveReload fl) fl W t e Hf)
    as (Hc & Hw & _ & _ & _ & Hl & Hch).
  fold (run fl (reloadLoopBody fl t) W) in Hc, Hw, Hl, Hch. fold W' in Hc, Hw, Hl, Hch.
  split; [exact Hc|]. split; [|split].
  - intros ipWhitelist w r Hal. rewrite !configHandler_response by exact Hal.
    unfold writer. now rewrite Hc, Hw.
  - destruct t as [|rc]; [now split|]. rewrite Hch. apply lookup_insert_eq.
  - intros ipWhitelist w r Hal Hpost Hfresh W2.
    destruct (reloadHandler_fails fl ipWhitelist w r W e Hf Hal Hpost) as (Hc2 & Hw2).
    fold W2 in Hc2, Hw2. split; [exact Hc2|]. rewrite Hw2, Hfresh. reflexivity.
Qed.

End Reload.


(** ** The whitelist built at startup (C9) *)

Section Whitelist.
Context `{Collaborators}.

(** The loop stops at the first entry [net.ParseCIDR] refuses. *)
Lemma buildWhitelist_loop_fails (entries : list string) (acc : list IPNet) e :
  e ∈ entries -> ParseCIDR (normalizeEntry e) = None ->
  exists msg, buildWhitelist_loop entries acc = inr msg.
Proof.
  intros Hin Hbad. revert acc.
  induction entries as [|e' entries IH]; intros acc.
  - now apply elem_of_nil in Hin.
  - cbn [buildWhitelist_loop].
    destruct (ParseCIDR (normalizeEntry e')) as [[ip n]|] eqn:He'; [|eauto].
    apply elem_of_cons in Hin as [->|Hin]; [congruence|]. now apply IH.
Qed.

(** A mask of zeros compares nothing. *)
Lemma zero_mask_matches (nn ip : list Z) (m : IPMask) :
  Forall (eq 0) m ->
  forallb (fun t : Z * Z * Z => let '(a, b, k) := t in Z.land a k =? Z.land b k)
          (zip (zip nn ip) m) = true.
Proof.
  intros Hm. revert nn ip.
  induction Hm as [|k m <- _ IH]; intros nn ip.
  - now destruct (zip nn ip).
  - destruct nn as [|a nn]; [reflexivity|]. destruct ip as [|b ip]; [reflexivity|].
    cbn [zip zip_with forallb]. rewrite !Z.land_0_r, IH. reflexivity.
Qed.

(** An address of four bytes, or the four-byte form of an address of
    sixteen, is of four bytes. *)
Lemma To4_length (ip ip4 : IP) : To4 ip = Some ip4 -> length ip4 = 4%nat.
Proof.
  unfold To4. destruct (Nat.eqb_spec (length ip) IPv4len) as [E|_].
  - now intros [= <-].
  - destruct (Nat.eqb_spec (length ip) IPv6len) as [E|_]; [|discriminate].
    cbn [andb]. destruct (_ && _); [|discriminate].
    intros [= <-]. rewrite length_drop, E. reflexivity.
Qed.

(** X1: an entry of the whitelist flag that [net.ParseCIDR] still refuses
    after the normalization is fatal at startup, whatever the other
    entries: the loop ends in [log.Fatalf], and [main] reports an error and
    never reaches the listener. *)
Theorem malformed_entry_is_fatal (fl : Flags) (W : World) (e : string) :
  e ∈ GoStrings.Split (ipWhitelistString fl) ","%char ->
  ParseCIDR (normalizeEntry e) = None ->
  (exists msg, buildWhitelist fl = inr msg)
  /\ exists msg, main_startup fl W = inr msg.
Proof.
  intros Hin Hbad.
  destruct (buildWhitelist_loop_fails _ [] e Hin Hbad) as [msg Hmsg].
  fold (buildWhitelist fl) in Hmsg. split; [eauto|].
  unfold main_startup. destruct (ReloadConfig _ W) as [[err|] W1]; [eauto|].
  rewrite Hmsg. eauto.
Qed.

(** X2: the whitelist built from the default value of the flag,
    [0.0.0.0/0,::/0], holds a range that contains every address of four
    bytes and every address of sixteen. *)
Theorem default_whitelist_permits_every_address :
  exists ipWhitelist,
    buildWhitelist defaultFlags = inl ipWhitelist
    /\ forall ip : IP,
         (length ip = 4 \/ length ip = 16)%nat ->
         exists n, n ∈ ipWhitelist /\ Contains n ip = true.
Proof.
  eexists. split; [vm_compute; reflexivity|].
  intros ip Hlen.
  destruct (To4 ip) as [ip4|] eqn:H4.
  - eexists. split; [apply list_elem_of_here|].
    unfold Contains. rewrite H4.
    change (networkNumberAndMask _) with (Some ([0; 0; 0; 0], [0; 0; 0; 0])).
    cbn [from_option id]. rewrite (To4_length _ _ H4). cbn [length Nat.eqb negb].
    apply zero_mask_matches. repeat constructor.
  - assert (Hl : length ip = 16%nat).
    { destruct Hlen as [Hl|Hl]; [|exact Hl]. unfold To4 in H4. rewrite Hl in H4.
      discriminate. }
    eexists. split; [apply list_elem_of_further, list_elem_of_here|].
    unfold Contains. rewrite H4.
    change (networkNumberAndMask _)
      with (Some (replicate 16 0, replicate 16 0)).
    cbn [from_option id]. rewrite Hl. cbn [length replicate Nat.eqb negb].
    apply zero_mask_matches. repeat constructor.
Qed.

(** C9: a bare single address is not always normalized to an exact-match
    range.  The flag [::ffff:1.2.3.4] is one address, an
    IPv4-mapped IPv6 literal.  [net.ParseIP] accepts it and [To4] of the
    result is not [nil], so the loop appends ["/32"]; [net.ParseCIDR] reads
    ["::ffff:1.2.3.4/32"] as an IPv6 prefix of 32 bits.  The whitelist built
    is the one range [::/32]: it contains [::1], and it does not contain
    the address of the entry, in its form of four bytes or of sixteen. *)
Theorem mapped_literal_whitelists_a_range :
  ParseIP "::ffff:1.2.3.4" = Some (IPv4 1 2 3 4)
  /\ normalizeEntry "::ffff:1.2.3.4" = "::ffff:1.2.3.4/32"
  /\ buildWhitelist Sample.mappedFlags
     = inl [{| IPNet_IP := replicate 16 0;
               IPNet_Mask := replicate 4 255 ++ replicate 12 0 |}]
  /\ Contains {| IPNet_IP := replicate 16 0;
                 IPNet_Mask := replicate 4 255 ++ replicate 12 0 |}
              (IPv4 1 2 3 4) = false
  /\ Contains {| IPNet_IP := replicate 16 0;
                 IPNet_Mask := replicate 4 255 ++ replicate 12 0 |}
              [1; 2; 3; 4] = false
  /\ ParseIP "::1" = Some (replicate 15 0 ++ [1])
  /\ Contains {| IPNet_IP := replicate 16 0;
                 IPNet_Mask := replicate 4 255 ++ replicate 12 0 |}
              (replicate 15 0 ++ [1]) = true.
Proof. vm_compute. repeat split. Qed.

End Whitelist.
(** ** Requests in flight (C6) *)

Import Pool Stages.

Section OneRequest.
Context `{Collaborators}.
Variables (fl : Flags) (ipWhitelist : list IPNet) (w : ptr) (r : Request).

(** [probeHandler] up to the context, and the points from there on. *)
Lemma probeHandler_cases c :
  probeHandler fl w r c ipWhitelist
  = match Modules c !! moduleName r with
    | None => HttpError w ("Unknown module " +:+ Quote (moduleName r)) 400 ;;; Done tt
    | Some module =>
        match negotiation_start (timeoutHint r) with
        | None =>
            match timeoutHint r with
            | HintUnparseable err =>
                HttpError w ("Failed to parse timeout from Prometheus header: " +:+ err)
                          StatusInternalServerError ;;; Done tt
            | _ => Done tt
            end
        | Some start =>
            ctx <- WithTimeout
                     (deadline (budget start (GoTime.Seconds (Timeout module))
                                       (timeoutOffset fl))) ;;
            bind (tail_gauge1 ipWhitelist w r module ctx) (cancel ctx)
        end
    end.
Proof.
  destruct (Modules c !! moduleName r) as [module|] eqn:Hm.
  - destruct (negotiation_start (timeoutHint r)) as [start|] eqn:Hs.
    + destruct (parsed_start _ _ Hs) as (f & Hf & Hf').
      unfold probeHandler. fold (moduleName r). rewrite Hm.
      rewrite Hf, Hf', clamp_code.
      unfold tail_gauge1, tail_gauge2, tail_checked.
      unfold effective_module, deadline, budget.
      destruct (GoStrings.is_empty (Get (Query r) "config")); reflexivity.
    + unfold probeHandler. fold (moduleName r). rewrite Hm.
      revert Hs. unfold timeoutHint, hintHeader.
      destruct (GoStrings.is_empty _); [discriminate|]. cbn [negb].
      destruct (ParseFloat _); [discriminate|]. reflexivity.
  - unfold probeHandler. fold (moduleName r). rewrite Hm. reflexivity.
Qed.

End OneRequest.

(** *** What one operation does to the cells of the others *)

Section Effects.
Context `{Collaborators}.

(** A new cell is none of those there are. *)
Lemma insert_fresh_keeps {A} (m : gmap ptr A) (v : A) g x :
  m !! g = Some x -> <[fresh (dom m) := v]> m !! g = Some x.
Proof.
  intros Hg. rewrite lookup_insert_ne; [exact Hg|].
  intros E. apply (is_fresh (dom m)). rewrite E. now apply elem_of_dom_2 in Hg.
Qed.

(** What a log tells, one more operation performed. *)
Lemma gauges_made_snoc log s :
  gauges_made (log ++ [s]) = gauges_made log ++ gauges_made [s].
Proof. apply omap_app. Qed.

Lemma registries_made_snoc log s :
  registries_made (log ++ [s]) = registries_made log ++ registries_made [s].
Proof. apply omap_app. Qed.

Lemma readings_snoc log s : readings (log ++ [s]) = readings log ++ readings [s].
Proof. apply omap_app. Qed.

Lemma outcomes_snoc log s : outcomes (log ++ [s]) = outcomes log ++ outcomes [s].
Proof. apply omap_app. Qed.

Lemma gathered_snoc log s : gathered (log ++ [s]) = gathered log ++ gathered [s].
Proof. apply omap_app. Qed.

Lemma registered_snoc log s :
  registered (log ++ [s]) = registered log ++ registered [s].
Proof. apply omap_app. Qed.

Lemma settings_snoc log s : settings (log ++ [s]) = settings log ++ settings [s].
Proof. apply omap_app. Qed.

Lemma handed_to_prober_snoc log s :
  handed_to_prober (log ++ [s]) = handed_to_prober log ++ handed_to_prober [s].
Proof. apply omap_app. Qed.

(** An operation on one's own leaves the gauges and registries of the
    others as they are, and what it makes is new. *)
Lemma exec_effects rl p (o : Op) (W : World) (log : list Step) :
  own log o ->
  effects W (snd (exec (H := with_probe p) rl o W)) log
    (log ++ [{| st_op := o; st_ret := fst (exec (H := with_probe p) rl o W);
                st_oracle := p; st_before := W |}]).
Proof.
  unfold effects. rewrite gauges_made_snoc, registries_made_snoc.
  destruct W as [ck G R ws cs c fs lg tr].
  destruct o; cbn [own]; try contradiction.
  all: generalize (gauges_made log) (registries_made log); intros mg mr Hown.
  all: cbv [exec fst snd on_writer writer set_clock set_gauges set_registries
            set_writers set_chans set_sc_C set_logged set_trace gather
            register gauge_set probed clock gauges registries writers chans
            sc_C files logged trace gauges_made registries_made omap
            list_omap st_op st_ret].
  all: rewrite ?app_nil_r.
  all: try match goal with
           | |- context [match ?x with [] => _ | _ :: _ => _ end] => destruct x
           end.
  all: split; [|split; [|split; [|split; [|split]]]].
  all: try reflexivity; try apply dom_insert_subseteq;
    try (rewrite dom_alter_L; reflexivity); try (intros g' ?; tauto);
    try (intros g' x _ Hx; exact Hx).
  all: try (intros g' x _ Hx; apply insert_fresh_keeps; exact Hx).
  all: try (intros g' x Hg' Hx; rewrite lookup_insert_ne;
            [exact Hx | intros ->; contradiction]).
  all: try (intros g' x Hg' Hx; rewrite lookup_alter_ne;
            [exact Hx | intros ->; contradiction]).
  all: try (intros g' Hg'; left; exact Hg').
  all: intros g' [Hg'| ->%list_elem_of_singleton]%elem_of_app; [now left|right].
  all: split; [apply is_fresh|].
  all: apply elem_of_dom; rewrite lookup_insert_eq; eexists; reflexivity.
Qed.

Lemma advance_effects fl p W th th' W' :
  advance fl p W th = Some (th', W') ->
  (forall o, first_op (th_prog th) = Some o -> own (th_log th) o) ->
  effects W W' (th_log th) (th_log th').
Proof.
  unfold advance. destruct (th_prog th) as [|o k]; [discriminate|].
  intros [= <- <-] Hown. cbn [th_log snd]. apply exec_effects.
  apply Hown. reflexivity.
Qed.

(** *** One operation of a request, point by point *)

(** The two gauges of a request are two cells: their names differ. *)
Lemma gauges_distinct (G : gmap ptr Gauge) gs gd v v' :
  G !! gs = Some (gauge_success v) -> G !! gd = Some (gauge_duration v') ->
  gs <> gd.
Proof. intros Hs Hd ->. rewrite Hs in Hd. discriminate. Qed.


(** What the registry of a request yields. *)
Lemma gather_request (W : World) reg gs gd v v' ms :
  registries W !! reg = Some (CGauge gs :: CGauge gd :: map CMetric ms) ->
  gauges W !! gs = Some (gauge_success v) ->
  gauges W !! gd = Some (gauge_duration v') ->
  gather reg W = success_entry v :: duration_entry v' :: ms.
Proof.
  intros Hr Hs Hd. unfold gather. rewrite Hr. cbn [default from_option].
  apply gather_two; [rewrite Hs|rewrite Hd]; reflexivity.
Qed.

(** The tactics below take a request from one point to the next: the
    next operation is performed on a world given by its fields, the log
    grows by it, and what holds at the next point is read off the tables. *)
Ltac stage_hyps :=
  repeat match goal with
         | H : forall v, Some ?x = Some v -> _ |- _ => specialize (H _ eq_refl)
         | H : forall v, None = Some v -> _ |- _ => clear H
         | H : true = true -> _ |- _ => specialize (H eq_refl)
         | H : false = true -> _ |- _ => clear H
         end.

Ltac stage_tables :=
  cbn [passed sure made_g made_r taken called rendered at_gs at_gd at_reg
       regd sets
       l_conf l_module l_effective l_prober l_ctx l_gs l_gd l_registry
       l_start l_t l_out with_conf with_module with_effective with_prober
       with_ctx with_gs with_gd with_registry with_start with_t with_out
       clock gauges registries sc_C]
    in *.

Ltac own_cell :=
  match goal with
  | H : ?f ?log = _ |- _ ∈ ?f ?log =>
      rewrite H, !elem_of_cons; auto
  end.

Ltac stage_next pc' L' :=
  intros [= <- <-]; split;
  [ intros o [= <-]; cbn [own]; first [exact I | own_cell]
  | exists pc', L'; split; [reflexivity|] ].

Ltac stage_goal :=
  unfold stage_inv; cbn [th_log];
  rewrite gauges_made_snoc, registries_made_snoc, readings_snoc,
    outcomes_snoc, gathered_snoc, handed_to_prober_snoc, registered_snoc,
    settings_snoc;
  repeat match goal with
         | H : gauges_made _ = _ |- _ => rewrite H; clear H
         | H : registries_made _ = _ |- _ => rewrite H; clear H
         | H : readings _ = _ |- _ => rewrite H; clear H
         | H : outcomes _ = _ |- _ => rewrite H; clear H
         | H : gathered _ = _ |- _ => rewrite H; clear H
         | H : handed_to_prober _ = _ |- _ => rewrite H; clear H
         | H : registered _ = _ |- _ => rewrite H; clear H
         | H : settings _ = _ |- _ => rewrite H; clear H
         end;
  stage_tables;
  cbv [gauges_made registries_made readings outcomes gathered registered
       settings handed_to_prober omap list_omap st_op st_ret st_oracle st_before
       exec fst snd on_writer writer set_clock set_gauges set_registries
       set_writers set_chans set_sc_C set_logged set_trace
       register gauge_set probed clock gauges registries writers chans
       sc_C files logged trace Probe with_probe];
  cbn [app]; rewrite ?app_nil_r.

Ltac heap_cell :=
  first
    [ assumption
    | rewrite lookup_insert_eq; reflexivity
    | apply insert_fresh_keeps; assumption
    | rewrite lookup_alter_eq;
      match goal with H : _ !! _ = Some _ |- _ => rewrite H; reflexivity end
    | rewrite lookup_alter_ne by eauto using gauges_distinct, not_eq_sym;
      assumption
    | rewrite lookup_insert_eq;
      match goal with H : _ !! _ = Some _ |- _ => rewrite H; reflexivity end ].

Ltac stage_close :=
  try match goal with H : po_success _ = _ |- _ => rewrite H end;
  repeat apply conj;
  try reflexivity; try exact I; try assumption; try (intros _; assumption);
  try (intros [=]; fail);
  try (intros ? [=]; fail);
  try (intros ? [= <-]; heap_cell);
  try (erewrite (gather_request _ _ _ _ _ _ []);
       [reflexivity | cbn [registries gauges map]; eassumption ..]).

Ltac stage tac pc' L' :=
  tac; stage_next pc' L'; [..|stage_goal; stage_close].

(** A request at a point of its handler performs an operation on its own
    and stands at a point of its handler again. *)
Lemma stage_step fl ipWhitelist w r pc L W log p th' W' :
  stage_inv ipWhitelist r pc L W log ->
  advance fl p W {| th_prog := prog_at fl ipWhitelist w r pc L; th_log := log |}
  = Some (th', W') ->
  (forall o, first_op (prog_at fl ipWhitelist w r pc L) = Some o -> own log o)
  /\ exists pc' L',
       th_prog th' = prog_at fl ipWhitelist w r pc' L'
       /\ stage_inv ipWhitelist r pc' L' W' (th_log th').
Proof.
  intros (Hal & Hsure & Hmg & Hmr & Hrd & Hout & Hhand & Hgath & Hregd
          & Hsets & Hgs & Hgd & Hreg).
  destruct W as [ck G R ws cs c fs lg tr].
  unfold advance. cbn [th_prog th_log].
  destruct pc; stage_tables; stage_hyps; cbn [prog_at]; stage_tables.
  - (* the access check *)
    unfold probeRoute, CheckInIpWhitelist.
    destruct (inWhitelist _ _) eqn:Hin; cbn [bind negb].
    + stage idtac Configured (with_conf c L).
    + stage idtac Rejected L.
  - (* module and hint *)
    rewrite probeHandler_cases.
    destruct (Modules (l_conf L) !! moduleName r) as [m|].
    + destruct (negotiation_start (timeoutHint r)) as [s|] eqn:Hs.
      * cbn [bind].
        stage idtac Negotiated
          (with_ctx {| ctx_created := ck;
                       ctx_timeout :=
                         deadline (budget s (GoTime.Seconds (Timeout m))
                                     (timeoutOffset fl)) |}
             (with_module m L)).
      * destruct (timeoutHint r); try discriminate Hs. cbn [bind].
        stage idtac Rejected L.
    + cbn [bind]. stage idtac Rejected L.
  - stage ltac:(unfold tail_gauge1; cbn [bind]) Gauge1
      (with_gs (fresh (dom G)) L).
  - stage ltac:(unfold tail_gauge2; cbn [bind]) Gauge2
      (with_gd (fresh (dom G)) L).
  - unfold tail_checked.
    destruct (GoStrings.is_empty _);
      [|destruct (effective_module r (l_module L)) as [m|e];
        [destruct (Probers !! Prober m) as [fn|]|]]; cbn [bind].
    + stage idtac Failing L.
    + stage idtac Started (with_start ck (with_prober fn (with_effective m L))).
    + stage idtac Failing L.
    + stage idtac Failing L.
  - stage ltac:(unfold tail_newreg; cbn [bind]) Registry
      (with_registry (fresh (dom R)) L).
  - stage ltac:(unfold tail_reg1; cbn [bind]) Registered1 L.
  - stage ltac:(unfold tail_reg2; cbn [bind]) Registered2 L.
  - stage ltac:(unfold tail_probe; cbn [bind]) Probed
      (with_out (p (l_prober L) (l_ctx L) (Get (Query r) "target")
                   (l_effective L) ck) L).
  - stage ltac:(unfold tail_since; cbn [bind]) Since (with_t ck L).
  - unfold tail_set; cbn [bind]. destruct (po_success (l_out L)) eqn:Hok.
    + stage idtac DurationSet L.
    + stage idtac SuccessSet L.
  - stage ltac:(unfold tail_success; cbn [bind]) SuccessSet L.
  - unfold tail_render, HandlerFor_ServeHTTP, CheckInIpWhitelist.
    rewrite Hal. cbn [bind negb].
    cbv [exec fst snd set_trace clock gauges registries writers chans sc_C
         files logged trace].
    erewrite gather_request by (cbn [registries gauges]; eassumption).
    stage idtac Gathered L.
  - stage ltac:(cbn [bind]) Written L.
  - stage ltac:(unfold cancel) Served L.
  - stage ltac:(unfold cancel) Failed L.
  - discriminate.
  - discriminate.
  - discriminate.
Qed.

(** What holds at a point depends on the gauges and the registry the
    request made only. *)
Lemma stage_frame ipWhitelist r pc L W W' log :
  stage_inv ipWhitelist r pc L W log ->
  (forall g x, g ∈ gauges_made log ->
     gauges W !! g = Some x -> gauges W' !! g = Some x) ->
  (forall g x, g ∈ registries_made log ->
     registries W !! g = Some x -> registries W' !! g = Some x) ->
  stage_inv ipWhitelist r pc L W' log.
Proof.
  intros (Hal & Hsure & Hmg & Hmr & Hrd & Hout & Hhand & Hgath & Hregd
          & Hsets & Hgs & Hgd & Hreg) HG HR.
  unfold stage_inv. rewrite Hmg in HG. rewrite Hmr in HR.
  repeat apply conj; try assumption.
  - intros v Hv. apply HG; [|now apply Hgs].
    destruct pc; try discriminate Hv; cbn [made_g]; rewrite !elem_of_cons; auto.
  - intros v Hv. apply HG; [|now apply Hgd].
    destruct pc; try discriminate Hv; cbn [made_g]; rewrite !elem_of_cons; auto.
  - intros v Hv. apply HR; [|now apply Hreg].
    destruct pc; try discriminate Hv; cbn [made_r]; rewrite !elem_of_cons; auto.
Qed.

End Effects.

(** *** The requests in flight *)

Section PoolFacts.
Context `{Collaborators}.
Variables (fl : Flags) (ipWhitelist : list IPNet) (W0 : World).

(** What a request made, after one of its operations. *)
Lemma made_step (m m' : list ptr) (D D' D0 : gset ptr) :
  (forall g, g ∈ m' -> g ∈ m \/ ((g ∉ D) /\ g ∈ D')) ->
  D ⊆ D' -> D0 ⊆ D ->
  (forall g, g ∈ m -> g ∈ D /\ g ∉ D0) ->
  forall g, g ∈ m' -> g ∈ D' /\ g ∉ D0.
Proof.
  intros Hnew HD HD0 Hm g [Hg|[Hg Hg']]%Hnew.
  - destruct (Hm g Hg) as [Hin Hout]. split; [now apply HD|exact Hout].
  - split; [exact Hg'|]. intros Hin. apply Hg, HD0, Hin.
Qed.

Lemma apart_step_l (m m' mk : list ptr) (D D' : gset ptr) :
  (forall g, g ∈ m' -> g ∈ m \/ ((g ∉ D) /\ g ∈ D')) ->
  apart m mk -> (forall g, g ∈ mk -> g ∈ D) -> apart m' mk.
Proof.
  intros Hnew Hap Hk g [Hg|[Hg _]]%Hnew Hgk.
  - exact (Hap g Hg Hgk).
  - exact (Hg (Hk g Hgk)).
Qed.

Lemma apart_step_r (m m' mk : list ptr) (D D' : gset ptr) :
  (forall g, g ∈ m' -> g ∈ m \/ ((g ∉ D) /\ g ∈ D')) ->
  apart mk m -> (forall g, g ∈ mk -> g ∈ D) -> apart mk m'.
Proof.
  intros Hnew Hap Hk g Hgk [Hg|[Hg _]]%Hnew.
  - exact (Hap g Hgk Hg).
  - exact (Hg (Hk g Hgk)).
Qed.

(** What a request at a point of its handler handed to its prober, what it
    gathered, and what its registry holds between its seeding and its
    finalization. *)
Lemma stage_handed r pc L W log registry ms :
  stage_inv ipWhitelist r pc L W log ->
  (registry, ms) ∈ handed_to_prober log ->
  ms = [success_entry 0; duration_entry 0]
  /\ registries_made log = [registry].
Proof.
  intros (_ & _ & _ & Hmr & _ & _ & Hhand & _). rewrite Hhand, Hmr.
  destruct pc; cbn [called made_r]; intros Hin;
    try (now apply elem_of_nil in Hin);
    apply list_elem_of_singleton in Hin; injection Hin as -> ->; now split.
Qed.

Lemma stage_gathered r pc L W log registry mfs :
  stage_inv ipWhitelist r pc L W log ->
  (registry, mfs) ∈ gathered log ->
  registries_made log = [registry]
  /\ exists out t1 t2,
       outcomes log = [out] /\ readings log = [t1; t2]
       /\ mfs = [success_entry (if po_success out then 1 else 0)%float;
                 duration_entry (GoTime.Seconds (t2 - t1))]
                ++ po_registered out.
Proof.
  intros (_ & _ & _ & Hmr & Hrd & Hout & _ & Hgath & _).
  rewrite Hgath, Hmr, Hrd, Hout.
  destruct pc; cbn [rendered called made_r taken]; intros Hin;
    try (now apply elem_of_nil in Hin);
    apply list_elem_of_singleton in Hin; injection Hin as -> ->;
    (split; [reflexivity|]); exists (l_out L), (l_start L), (l_t L);
    repeat split.
Qed.

Lemma stage_seeded r pc L W log registry gs gd :
  stage_inv ipWhitelist r pc L W log ->
  registered log = [(registry, gs); (registry, gd)] ->
  settings log = [] ->
  registries_made log = [registry]
  /\ gauges_made log = [gs; gd]
  /\ gather registry W
     = [success_entry 0; duration_entry 0]
       ++ concat (map po_registered (outcomes log)).
Proof.
  intros (_ & _ & Hmg & Hmr & _ & Hout & _ & _ & Hregd & Hsets & Hgs & Hgd
          & Hreg).
  rewrite Hregd, Hsets, Hmg, Hmr, Hout.
  destruct pc; cbn [regd sets made_g made_r called]; try discriminate;
    intros [= <- <- _ <-] _; cbn [at_gs at_gd at_reg] in *;
    (repeat split; cbn [map concat app]; rewrite ?app_nil_r;
     eapply gather_request; [apply Hreg|apply Hgs|apply Hgd]; reflexivity).
Qed.

(** The invariant of the pool: it holds when the requests arrive, and
    every step keeps it. *)
Lemma pool_inv_arriving reqs :
  pool_inv fl ipWhitelist W0 (arriving fl ipWhitelist reqs W0).
Proof.
  assert (Hlog : forall i th,
             threads (arriving fl ipWhitelist reqs W0) !! i = Some th ->
             exists w r, th = {| th_prog := probeRoute fl ipWhitelist w r;
                                 th_log := [] |}).
  { intros i th Hi%list_elem_of_lookup_2%list_elem_of_In.
    cbn [arriving threads] in Hi. apply in_map_iff in Hi as ([w r] & <- & _).
    now exists w, r. }
  repeat apply conj; try reflexivity.
  - intros i th (w & r & ->)%Hlog. cbn [th_log]. repeat apply conj.
    + exists w, r, AtStart, no_locals. split; [reflexivity|].
      repeat apply conj; try reflexivity; try discriminate; exact I.
    + intros g Hg. now apply elem_of_nil in Hg.
    + intros g Hg. now apply elem_of_nil in Hg.
  - intros i j th th' _ (w & r & ->)%Hlog _. cbn [th_log].
    split; intros g Hg; now apply elem_of_nil in Hg.
Qed.

Lemma pool_inv_step P P' :
  pool_inv fl ipWhitelist W0 P -> step fl P P' ->
  pool_inv fl ipWhitelist W0 P'.
Proof.
  intros (Hth & Hapart & HdG & HdR) Hstep.
  destruct Hstep as [P i th th' p W' Hi Hadv | P W' HG HR].
  - destruct (Hth i th Hi) as ((w & r & pc & L & Hprog & Hinv) & HmG & HmR).
    destruct th as [prog log]. cbn [th_prog th_log] in *. subst prog.
    destruct (stage_step _ _ _ _ _ _ _ _ _ _ _ Hinv Hadv)
      as (Hown & pc' & L' & Hprog' & Hinv').
    destruct (advance_effects _ _ _ _ _ _ Hadv Hown)
      as (EG & ER & EnG & EnR & EdG & EdR).
    cbn [th_prog th_log] in *.
    assert (Hlen : (i < length (threads P))%nat)
      by (eapply lookup_lt_Some; exact Hi).
    unfold pool_inv. cbn [shared threads].
    repeat apply conj.
    + intros j thj Hj. destruct (decide (i = j)) as [<-|Hne].
      * rewrite list_lookup_insert_eq in Hj by exact Hlen.
        injection Hj as <-. repeat apply conj.
        -- now exists w, r, pc', L'.
        -- eapply made_step; eauto.
        -- eapply made_step; eauto.
      * rewrite list_lookup_insert_ne in Hj by exact Hne.
        destruct (Hth j thj Hj)
          as ((wj & rj & pcj & Lj & Hprogj & Hinvj) & HmGj & HmRj).
        destruct (Hapart j i thj _ (not_eq_sym Hne) Hj Hi) as [HaG HaR].
        repeat apply conj.
        -- exists wj, rj, pcj, Lj. split; [exact Hprogj|].
           eapply stage_frame; [exact Hinvj| |].
           ++ intros g x Hg. apply EG, HaG, Hg.
           ++ intros g x Hg. apply ER, HaR, Hg.
        -- intros g Hg. destruct (HmGj g Hg). split; [now apply EdG|easy].
        -- intros g Hg. destruct (HmRj g Hg). split; [now apply EdR|easy].
    + intros j k thj thk Hjk Hj Hk.
      destruct (decide (i = j)) as [<-|Hij];
        destruct (decide (i = k)) as [<-|Hik]; try contradiction.
      * rewrite list_lookup_insert_eq in Hj by exact Hlen.
        rewrite list_lookup_insert_ne in Hk by exact Hik.
        injection Hj as <-.
        destruct (Hapart i k _ thk Hik Hi Hk) as [HaG HaR].
        destruct (Hth k thk Hk) as (_ & HmGk & HmRk).
        split; [eapply apart_step_l with (D := dom (gauges (shared P)))
               |eapply apart_step_l with (D := dom (registries (shared P)))];
          eauto; intros g Hg; [apply (HmGk g Hg)|apply (HmRk g Hg)].
      * rewrite list_lookup_insert_ne in Hj by exact Hij.
        rewrite list_lookup_insert_eq in Hk by exact Hlen.
        injection Hk as <-.
        destruct (Hapart j i thj _ (not_eq_sym Hij) Hj Hi) as [HaG HaR].
        destruct (Hth j thj Hj) as (_ & HmGj & HmRj).
        split; [eapply apart_step_r with (D := dom (gauges (shared P)))
               |eapply apart_step_r with (D := dom (registries (shared P)))];
          eauto; intros g Hg; [apply (HmGj g Hg)|apply (HmRj g Hg)].
      * rewrite list_lookup_insert_ne in Hj by exact Hij.
        rewrite list_lookup_insert_ne in Hk by exact Hik.
        exact (Hapart j k thj thk Hjk Hj Hk).
    + etransitivity; [exact HdG|exact EdG].
    + etransitivity; [exact HdR|exact EdR].
  - unfold pool_inv. cbn [shared threads]. repeat apply conj.
    + intros j thj Hj.
      destruct (Hth j thj Hj)
        as ((wj & rj & pcj & Lj & Hprogj & Hinvj) & HmGj & HmRj).
      repeat apply conj.
      * exists wj, rj, pcj, Lj. split; [exact Hprogj|].
        eapply stage_frame; [exact Hinvj| |].
        -- intros g x _ Hx. eapply lookup_weaken; [exact Hx|exact HG].
        -- intros g x _ Hx. eapply lookup_weaken; [exact Hx|exact HR].
      * intros g Hg. destruct (HmGj g Hg) as [Hin Hout].
        split; [|exact Hout]. eapply subseteq_dom; [exact HG|exact Hin].
      * intros g Hg. destruct (HmRj g Hg) as [Hin Hout].
        split; [|exact Hout]. eapply subseteq_dom; [exact HR|exact Hin].
    + exact Hapart.
    + etransitivity; [exact HdG|]. apply subseteq_dom, HG.
    + etransitivity; [exact HdR|]. apply subseteq_dom, HR.
Qed.

Lemma pool_inv_reachable reqs P :
  rtc (step fl) (arriving fl ipWhitelist reqs W0) P ->
  pool_inv fl ipWhitelist W0 P.
Proof.
  revert P. apply rtc_ind_r.
  - apply pool_inv_arriving.
  - intros P P' _ Hstep HP. eapply pool_inv_step; eassumption.
Qed.

End PoolFacts.

(** ** Isolation of the probe requests (C6) *)

Section Isolation.
Context `{Collaborators}.

(** A schedule played from a pool is one of the ways the pool may run. *)
Lemma play_reachable fl (schedule : list (nat * Oracle)) (P : State) :
  rtc (step fl) P (play fl schedule P).
Proof.
  revert P. induction schedule as [|turn schedule IH]; intros P; [constructor|].
  cbn [play fold_left]. etransitivity; [|apply IH].
  unfold play1. destruct (threads P !! turn.1) as [th|] eqn:Hth; [|constructor].
  destruct (advance fl turn.2 (shared P) th) as [[th' W']|] eqn:Hadv;
    [|constructor].
  apply rtc_once. eapply step_request; eassumption.
Qed.

(** C6: per-request metric isolation.  Any number of requests to [/probe],
    to any targets and modules, are in flight; their operations take turns
    in any order, one request after the other or interleaved, and between
    them the rest of the process changes the world as it may.  Then at
    every moment the requests are [isolated]: the registry a request hands
    to its prober and gathers for its response is one it made itself, that
    did not exist before, seeded with exactly the two entries
    [probe_success] and [probe_duration_seconds], both 0 until the request
    sets them; it holds nothing but these and what the request's own
    prober registered; and no two requests made the same registry or the
    same gauge. *)
Theorem probe_requests_isolated fl ipWhitelist reqs W0 P :
  rtc (step fl) (arriving fl ipWhitelist reqs W0) P ->
  isolated W0 P.
Proof.
  intros (Hth & Hapart & _)%pool_inv_reachable. split.
  - intros i th Hi.
    destruct (Hth i th Hi) as ((w & r & pc & L & _ & Hinv) & _ & HmR).
    repeat apply conj.
    + intros registry ms Hin.
      destruct (stage_handed _ _ _ _ _ _ _ _ Hinv Hin) as [-> Hmade].
      repeat split; [exact Hmade|].
      apply (HmR registry). rewrite Hmade. apply list_elem_of_singleton.
      reflexivity.
    + intros registry gs gd. apply (stage_seeded _ _ _ _ _ _ _ _ _ Hinv).
    + intros registry mfs. apply (stage_gathered _ _ _ _ _ _ _ _ Hinv).
  - intros i j th th' Hij Hi Hj.
    destruct (Hapart i j th th' Hij Hi Hj) as [HaG HaR]. now split.
Qed.

End Isolation.
(** * More of [main.go] *)

Import Paths.

(** ** The operations of a probe request *)

Section ProbePaths.
Context `{Collaborators}.

(** Once the module is resolved and the hint read. *)
Lemma negotiated_trace fl w r c ipWhitelist W module start :
  Modules c !! moduleName r = Some module ->
  negotiation_start (timeoutHint r) = Some start ->
  let ctx := negotiated_context fl start module (clock W) in
  trace (snd (run fl (probeHandler fl w r c ipWhitelist) W))
  = trace W ++
    [WithTimeout (ctx_timeout ctx);
     NewGauge "probe_success" "Displays whether or not the probe was a success";
     NewGauge "probe_duration_seconds"
              "Returns how long the probe took to complete in seconds"]
    ++ checked_ops w r ipWhitelist ctx module W ++ [Cancel ctx].
Proof.
  intros Hm Hs ctx. subst ctx. destruct W.
  unfold checked_ops, probing_ops, negotiated_context, deadline, budget,
    success_entry, duration_entry.
  unfold probeHandler. fold (moduleName r). rewrite Hm.
  destruct (parsed_start _ _ Hs) as (f & Hf & Hf').
  rewrite Hf, Hf', clamp_code, recovered_module.
  destruct (GoStrings.is_empty (Get (Query r) "target")) eqn:Ht;
    [|destruct (effective_module r module) as [m'|err] eqn:He;
      [destruct (Probers !! Prober m') as [fn|] eqn:Hp|]].
  1,3,4: unfold run; cbn [bind]; repeat run_step; run_done; fields;
    rewrite <- !app_assoc; reflexivity.
  unfold HandlerFor_ServeHTTP, CheckInIpWhitelist.
  unfold run; cbn [bind]; do 9 run_step.
  match goal with |- context [if po_success ?o then _ else _] =>
      set (out := o); destruct (po_success out) eqn:Eo end.
  all: destruct (inWhitelist (RemoteIP r) ipWhitelist) eqn:Hw.
  all: cbn [bind negb]; repeat run_step; run_done; fields;
    repeat match goal with |- context [Probe ?a ?b ?c ?d ?e] =>
      progress change (Probe a b c d e) with out end;
    rewrite ?Eo; rewrite <- !app_assoc; cbn [app]; try reflexivity.
  all: repeat f_equal.
  all: unfold gather; cbn [registries gauges]; map_lookups;
    cbv [default from_option id]; cbn [app].
  all: match goal with |- context [CGauge ?a :: CGauge ?b :: _] =>
         assert (b <> a) by apply fresh_insert_ne;
         set (gd := b) in *; set (gs := a) in * end;
       apply gather_two.
  all: map_lookups.
  all: try reflexivity.
Qed.

(** The operations [probeHandler] performs, in order. *)
Lemma probeHandler_trace fl w r c ipWhitelist W :
  trace (snd (run fl (probeHandler fl w r c ipWhitelist) W))
  = trace W ++ handler_ops fl w r c ipWhitelist W.
Proof.
  unfold handler_ops.
  destruct (Modules c !! moduleName r) as [module|] eqn:Hm.
  2: { rewrite probeHandler_unknown_module by exact Hm.
       destruct W. reflexivity. }
  destruct (timeoutHint r) as [|f|err] eqn:Hh.
  3: { rewrite (probeHandler_unparseable _ _ _ _ _ _ _ _ Hm Hh).
       destruct W. reflexivity. }
  all: apply negotiated_trace; [exact Hm|rewrite Hh; reflexivity].
Qed.

(** An operation leaves the responses it does not write to as they are. *)
Lemma exec_keeps_writers rl o W w' :
  not_reloading o -> written_to o <> Some w' ->
  writers (snd (exec rl o W)) !! w' = writers W !! w'.
Proof.
  destruct W. destruct o; cbn [not_reloading written_to]; intros Hr Hw;
    try contradiction; try reflexivity.
  1-3: cbv [exec snd on_writer set_writers set_trace writers trace];
    apply lookup_insert_ne; congruence.
  cbv [exec snd set_trace set_chans chans trace writers default from_option id].
  now destruct (_ !! rc) as [[|v q]|].
Qed.

Lemma probeHandler_writes fl w r c ipWhitelist w' :
  w' <> w ->
  ops_in (fun o => not_reloading o /\ written_to o <> Some w')
         (probeHandler fl w r c ipWhitelist).
Proof.
  intros Hw. unfold probeHandler, HandlerFor_ServeHTTP, CheckInIpWhitelist.
  repeat first
    [ match goal with
      | |- ops_in _ (bind _ _) => apply ops_in_bind; [| intros ?]
      | |- ops_in _ (match ?x with _ => _ end) => destruct x
      | |- ops_in _ (if ?x then _ else _) => destruct x
      | |- ops_in _ (Done _) => apply ops_Done
      | |- ops_in _ (Do _ _) =>
          apply ops_Do;
          [split; [exact I|cbn [written_to]; congruence] | intros ?]
      end ].
Qed.

(** X3: a request without a [module] parameter, or with an empty one, is
    handled as the same request naming the module [http_2xx]: the handler
    is the same program. *)
Theorem default_module_is_http_2xx fl w r c ipWhitelist :
  Get (Query r) "module" = "" ->
  probeHandler fl w r c ipWhitelist
  = probeHandler fl w (with_param "module" "http_2xx" r) c ipWhitelist.
Proof.
  intros Hm. unfold probeHandler, HandlerFor_ServeHTTP, CheckInIpWhitelist.
  cbn [with_param Query Header RemoteIP].
  change (Get (("module", "http_2xx") :: Query r) "module") with "http_2xx".
  change (Get (("module", "http_2xx") :: Query r) "target")
    with (Get (Query r) "target").
  change (Get (("module", "http_2xx") :: Query r) "config")
    with (Get (Query r) "config").
  rewrite Hm. reflexivity.
Qed.

(** X4: a request naming a module the Configuration does not hold is
    answered 400 with [Unknown module] and the name quoted, and that is
    all the handler does: no context is derived, no gauge or registry is
    made, no prober is called. *)
Theorem unknown_module_rejected fl w r c ipWhitelist W :
  Modules c !! moduleName r = None ->
  writer w W = newResponseWriter ->
  let msg := "Unknown module " +:+ Quote (moduleName r) in
  let W' := snd (run fl (probeHandler fl w r c ipWhitelist) W) in
  writer w W' = {| Status := Some 400; Body := msg +:+ newline |}
  /\ trace W' = trace W ++ [HttpError w msg 400]
  /\ gauges W' = gauges W /\ registries W' = registries W
  /\ clock W' = clock W /\ sc_C W' = sc_C W.
Proof.
  intros Hm Hw msg W'. subst msg W'.
  rewrite probeHandler_unknown_module by exact Hm.
  destruct W. cbv [exec snd on_writer set_writers set_trace writers trace
                   gauges registries clock sc_C] in *.
  unfold writer in *. cbn [writers] in *. rewrite lookup_insert_eq, Hw.
  repeat split.
Qed.

(** X5: when the module to probe with, the override merged if there is
    one, names a kind of prober the dispatch table does not hold, the
    request is answered 400 with [Unknown prober] and the kind quoted; the
    context and the two gauges are made and the context is cancelled, no
    registry is made and no prober is called. *)
Theorem unknown_prober_rejected fl w r c ipWhitelist W module start m' :
  Modules c !! moduleName r = Some module ->
  negotiation_start (timeoutHint r) = Some start ->
  GoStrings.is_empty (Get (Query r) "target") = false ->
  effective_module r module = inl m' ->
  Probers !! Prober m' = None ->
  writer w W = newResponseWriter ->
  let msg := "Unknown prober " +:+ Quote (Prober m') in
  let ctx := negotiated_context fl start module (clock W) in
  let W' := snd (run fl (probeHandler fl w r c ipWhitelist) W) in
  writer w W' = {| Status := Some 400; Body := msg +:+ newline |}
  /\ trace W' = trace W ++
       [WithTimeout (ctx_timeout ctx);
        NewGauge "probe_success"
                 "Displays whether or not the probe was a success";
        NewGauge "probe_duration_seconds"
                 "Returns how long the probe took to complete in seconds";
        HttpError w msg 400;
        Cancel ctx].
Proof.
  intros Hm Hs Ht He Hp Hw msg ctx W'. subst msg ctx W'. split.
  - destruct (probeHandler_unknown_prober fl W w r c ipWhitelist module start
                m' Hm Hs Ht He Hp) as (-> & _).
    rewrite Hw. reflexivity.
  - rewrite (negotiated_trace _ _ _ _ _ _ _ _ Hm Hs).
    unfold checked_ops. rewrite Ht, He, Hp. reflexivity.
Qed.

(** X6: the derived context never outlives the handler.  Whatever the
    request, the Configuration and the outcome of the probe, either the
    handler derives no context at all, or deriving it is the first thing
    it does, cancelling it is the last, and it derives and cancels nothing
    in between. *)
Theorem context_always_cancelled fl w r c ipWhitelist W :
  exists ops,
    trace (snd (run fl (probeHandler fl w r c ipWhitelist) W)) = trace W ++ ops
    /\ (forallb (fun o => negb (context_op o)) ops = true
        \/ exists d mid,
             ops = WithTimeout d :: mid
                   ++ [Cancel {| ctx_created := clock W; ctx_timeout := d |}]
             /\ forallb (fun o => negb (context_op o)) mid = true).
Proof.
  exists (handler_ops fl w r c ipWhitelist W).
  split; [apply probeHandler_trace|].
  unfold handler_ops.
  destruct (Modules c !! moduleName r) as [module|]; [|now left].
  assert (Hmid : forall ctx,
             forallb (fun o => negb (context_op o))
                     (checked_ops w r ipWhitelist ctx module W) = true).
  { intros ctx. unfold checked_ops, probing_ops.
    destruct (GoStrings.is_empty _); [reflexivity|].
    destruct (effective_module r module) as [m'|err]; [|reflexivity].
    destruct (Probers !! Prober m') as [fn|]; [|reflexivity].
    destruct (po_success _); destruct (inWhitelist _ _); reflexivity. }
  destruct (timeoutHint r) as [|f|err]; [right|right|now left].
  all: eexists _, (_ :: _ :: checked_ops _ _ _ _ _ _); split;
    [cbn [app]; reflexivity|]; cbn [forallb context_op negb andb];
    apply Hmid.
Qed.

(** X7: every request [probeHandler] is given is answered exactly once,
    on its own response: of the operations the handler performs, one
    writes to a response, and it writes to the response of the request;
    the response of every other request is left as it is. *)
Theorem probe_answered_exactly_once fl w r c ipWhitelist W :
  let W' := snd (run fl (probeHandler fl w r c ipWhitelist) W) in
  (exists ops,
     trace W' = trace W ++ ops /\ omap written_to ops = [w])
  /\ forall w', w' <> w -> writers W' !! w' = writers W !! w'.
Proof.
  intros W'. subst W'. split.
  - exists (handler_ops fl w r c ipWhitelist W).
    split; [apply probeHandler_trace|].
    unfold handler_ops, checked_ops, probing_ops.
    destruct (Modules c !! moduleName r) as [module|]; [|reflexivity].
    destruct (timeoutHint r) as [|f|err]; try reflexivity.
    all: destruct (GoStrings.is_empty _); [reflexivity|].
    all: destruct (effective_module r module) as [m'|err]; [|reflexivity].
    all: destruct (Probers !! Prober m') as [fn|]; [|reflexivity].
    all: destruct (po_success _); destruct (inWhitelist _ _); reflexivity.
  - intros w' Hw'. unfold run.
    apply (run_invariant (serveReload fl)
             (fun o => not_reloading o /\ written_to o <> Some w')
             (fun W1 => writers W1 !! w' = writers W !! w')).
    + intros o W1 [Hr Ho] HW1. rewrite exec_keeps_writers; assumption.
    + apply probeHandler_writes, Hw'.
    + reflexivity.
Qed.

(** X8: a prober is called at most once for a request, and only once the
    module is resolved, the hint read, the target present, the override
    merged and the kind of prober found in the dispatch table; it is then
    the prober of that kind, and it is given the context the negotiation
    derived, the target of the request, the module with the override
    merged, and a registry that did not exist before. *)
Theorem prober_called_as_negotiated fl w r c ipWhitelist W :
  exists ops,
    trace (snd (run fl (probeHandler fl w r c ipWhitelist) W)) = trace W ++ ops
    /\ (prober_runs ops = []
        \/ exists module start m' fn,
             Modules c !! moduleName r = Some module
             /\ negotiation_start (timeoutHint r) = Some start
             /\ Get (Query r) "target" <> ""
             /\ effective_module r module = inl m'
             /\ Probers !! Prober m' = Some fn
             /\ (fresh (dom (registries W)) ∉ dom (registries W))
             /\ prober_runs ops
                = [(fn, negotiated_context fl start module (clock W),
                    Get (Query r) "target", m',
                    fresh (dom (registries W)))]).
Proof.
  exists (handler_ops fl w r c ipWhitelist W).
  split; [apply probeHandler_trace|].
  unfold handler_ops, checked_ops.
  destruct (Modules c !! moduleName r) as [module|] eqn:Hm; [|now left].
  destruct (negotiation_start (timeoutHint r)) as [start|] eqn:Hs.
  2: { destruct (timeoutHint r); try discriminate Hs. now left. }
  assert (Hstart : match timeoutHint r with
                   | HintValue f => if (f =? 0)%float then baseline else f
                   | _ => baseline
                   end = start).
  { destruct (timeoutHint r); cbn in Hs; congruence. }
  destruct (GoStrings.is_empty (Get (Query r) "target")) eqn:Ht.
  { left. now destruct (timeoutHint r). }
  destruct (effective_module r module) as [m'|err] eqn:He.
  2: { left. now destruct (timeoutHint r). }
  destruct (Probers !! Prober m') as [fn|] eqn:Hp.
  2: { left. now destruct (timeoutHint r). }
  right. exists module, start, m', fn.
  do 2 (split; [first [assumption|reflexivity]|]).
  split; [intros E; rewrite E in Ht; discriminate|].
  do 2 (split; [first [assumption|reflexivity]|]).
  split; [apply is_fresh|].
  rewrite <- Hstart. unfold probing_ops.
  destruct (timeoutHint r); try discriminate Hs;
    destruct (po_success _); destruct (inWhitelist _ _); reflexivity.
Qed.

End ProbePaths.

(** ** The reload endpoint and the reload loop *)

Section ReloadPaths.
Context `{Collaborators}.

(** The reload loop serving one request, whatever the attempt gives; the
    attempt depends on the files and on the Configuration only. *)
Lemma serveReload_result fl rc W W0 :
  files W = files W0 -> sc_C W = sc_C W0 ->
  let err := fst (ReloadConfig (configFile fl) W0) in
  let W' := serveReload fl rc W in
  sc_C W' = sc_C (snd (ReloadConfig (configFile fl) W0))
  /\ chans W' = <[rc := default [] (chans W !! rc) ++ [err]]> (chans W)
  /\ logged W' = logged W ++ [reload_log err]
  /\ trace W' = trace W ++ [ReloadConfigOp (configFile fl);
                            Log (fst (reload_log err)) (snd (reload_log err));
                            ChanSend rc err]
  /\ writers W' = writers W.
Proof.
  destruct W, W0. cbn [files sc_C]. intros -> ->.
  unfold serveReload, reload_log.
  cbn [reloadLoopBody run_with exec]. unfold ReloadConfig.
  cbn [files set_trace].
  destruct (files1 !! configFile fl) as [yamlFile|];
    [destruct (UnmarshalConfig yamlFile) as [c'|e];
     [destruct (ValidateConfig c') as [e|]|]|].
  all: cbn [fst snd bind]; repeat run_step; run_done; fields;
    rewrite <- ?app_assoc; repeat split; reflexivity.
Qed.

(** X9: the reload endpoint serves [POST] only.  An allowed client using
    another method is answered 405 with the message that says so; no
    reply channel is made, no reload is requested or attempted, nothing is
    logged, and the Configuration stays as it is. *)
Theorem reload_requires_post ipWhitelist fl w r W :
  inWhitelist (RemoteIP r) ipWhitelist = true ->
  Method r <> "POST" ->
  writer w W = newResponseWriter ->
  let msg := "This endpoint requires a POST request." +:+ newline in
  let W' := snd (run fl (reloadHandler ipWhitelist w r) W) in
  writer w W' = {| Status := Some StatusMethodNotAllowed; Body := msg |}
  /\ trace W' = trace W ++ [WriteHeader w StatusMethodNotAllowed;
                            WriteBody w msg]
  /\ sc_C W' = sc_C W /\ chans W' = chans W /\ logged W' = logged W
  /\ files W' = files W.
Proof.
  intros Hal Hm Hw msg W'. subst msg W'.
  unfold reloadHandler, CheckInIpWhitelist. rewrite Hal.
  apply String.eqb_neq in Hm. rewrite Hm.
  unfold run. cbn [bind negb]. destruct W. unfold writer in Hw. cbn in Hw.
  repeat run_step. run_done. fields.
  rewrite <- app_assoc, Hw, !lookup_insert_eq.
  cbv [default from_option id]. repeat split.
Qed.

(** X10: the handshake of a reload.  An allowed [POST] to the reload
    endpoint makes one reply channel and hands it to the reload loop; the
    loop makes one attempt, logs how it went and sends one reply on that
    channel, the error of the attempt or [nil]; the handler receives it,
    which leaves the channel empty, and answers 500 with the error, or
    writes nothing when there is none. *)
Theorem reload_handshake ipWhitelist fl w r W :
  inWhitelist (RemoteIP r) ipWhitelist = true ->
  Method r = "POST" ->
  writer w W = newResponseWriter ->
  let rc := fresh (dom (chans W)) in
  let err := fst (ReloadConfig (configFile fl) W) in
  let W' := snd (run fl (reloadHandler ipWhitelist w r) W) in
  trace W'
  = trace W ++
    [MakeChan; SendReloadCh rc; ReloadConfigOp (configFile fl);
     Log (fst (reload_log err)) (snd (reload_log err)); ChanSend rc err;
     ChanRecv rc]
    ++ match err with
       | Some e =>
           [HttpError w ("failed to reload config: " +:+ e)
                      StatusInternalServerError]
       | None => []
       end
  /\ chans W' = <[rc := []]> (chans W)
  /\ logged W' = logged W ++ [reload_log err]
  /\ writer w W'
     = match err with
       | Some e =>
           {| Status := Some StatusInternalServerError;
              Body := "failed to reload config: " +:+ e +:+ newline |}
       | None => newResponseWriter
       end
  /\ sc_C W' = sc_C (snd (ReloadConfig (configFile fl) W)).
Proof.
  intros Hal Hpost Hw rc err W'. subst rc W'.
  pose proof (fun rc W1 => serveReload_result fl rc W1 W) as HR.
  cbv zeta in HR. fold err in HR.
  set (conf := sc_C (snd (ReloadConfig (configFile fl) W))) in *.
  clearbody err conf.
  unfold reloadHandler, CheckInIpWhitelist. rewrite Hal, Hpost.
  unfold run. cbn [bind negb String.eqb Ascii.eqb Bool.eqb].
  destruct W. unfold writer in Hw. cbn [writers files sc_C] in Hw, HR. run_step.
  match goal with |- context [run_with ?rl (Do (SendReloadCh ?rc) ?k) ?W1] =>
    destruct (HR rc (set_trace (trace W1 ++ [SendReloadCh rc]) W1)
                eq_refl eq_refl) as (Hc & Hch & Hl & Ht & Hws);
    erewrite (run_Do rl (SendReloadCh rc) k W1 tt
                (serveReload fl rc (set_trace (trace W1 ++ [SendReloadCh rc]) W1)))
      by reflexivity
  end.
  clear HR.
  match goal with |- context [serveReload fl ?rc ?W1] =>
    set (W2 := serveReload fl rc W1) in *
  end.
  cbv [set_trace sc_C writers chans logged trace] in Hc, Hch, Hl, Ht, Hws.
  clearbody W2. destruct W2.
  cbv [sc_C writers chans logged trace] in Hc, Hch, Hl, Ht, Hws. subst.
  rewrite lookup_insert_eq. cbn [default from_option id app bind].
  run_step_by ltac:(rewrite lookup_insert_eq; cbv [default from_option id]).
  destruct err as [e|]; repeat run_step; run_done; fields.
  all: rewrite <- ?app_assoc; cbn [app]; rewrite ?insert_insert_eq.
  all: rewrite ?lookup_insert_eq, Hw; repeat split.
Qed.

(** The reload loop woken by the signal. *)
Lemma hup_result fl W :
  let err := fst (ReloadConfig (configFile fl) W) in
  let W' := snd (run fl (reloadLoopBody fl Hup) W) in
  sc_C W' = sc_C (snd (ReloadConfig (configFile fl) W))
  /\ logged W' = logged W ++ [reload_log err]
  /\ trace W' = trace W ++ [ReloadConfigOp (configFile fl);
                            Log (fst (reload_log err)) (snd (reload_log err))]
  /\ chans W' = chans W /\ writers W' = writers W.
Proof.
  destruct W. unfold run, reload_log.
  cbn [reloadLoopBody run_with exec]. unfold ReloadConfig.
  cbn [files set_trace].
  destruct (files0 !! configFile fl) as [yamlFile|];
    [destruct (UnmarshalConfig yamlFile) as [c'|e];
     [destruct (ValidateConfig c') as [e|]|]|].
  all: cbn [fst snd bind]; repeat run_step; run_done; fields;
    rewrite <- ?app_assoc; repeat split; reflexivity.
Qed.

(** What an allowed [POST] to the reload endpoint leaves in the store. *)
Lemma reloadHandler_post_store ipWhitelist fl w r W :
  inWhitelist (RemoteIP r) ipWhitelist = true ->
  Method r = "POST" ->
  let err := fst (ReloadConfig (configFile fl) W) in
  let W' := snd (run fl (reloadHandler ipWhitelist w r) W) in
  sc_C W' = sc_C (snd (ReloadConfig (configFile fl) W))
  /\ logged W' = logged W ++ [reload_log err].
Proof.
  intros Hal Hpost err W'. subst W'.
  pose proof (fun rc W1 => serveReload_result fl rc W1 W) as HR.
  cbv zeta in HR. fold err in HR.
  set (conf := sc_C (snd (ReloadConfig (configFile fl) W))) in *.
  clearbody err conf.
  unfold reloadHandler, CheckInIpWhitelist. rewrite Hal, Hpost.
  unfold run. cbn [bind negb String.eqb Ascii.eqb Bool.eqb].
  destruct W. cbn [files sc_C] in HR. run_step.
  match goal with |- context [run_with ?rl (Do (SendReloadCh ?rc) ?k) ?W1] =>
    destruct (HR rc (set_trace (trace W1 ++ [SendReloadCh rc]) W1)
                eq_refl eq_refl) as (Hc & Hch & Hl & Ht & Hws);
    erewrite (run_Do rl (SendReloadCh rc) k W1 tt
                (serveReload fl rc (set_trace (trace W1 ++ [SendReloadCh rc]) W1)))
      by reflexivity
  end.
  clear HR.
  match goal with |- context [serveReload fl ?rc ?W1] =>
    set (W2 := serveReload fl rc W1) in *
  end.
  cbv [set_trace sc_C writers chans logged trace] in Hc, Hch, Hl, Ht, Hws.
  clearbody W2. destruct W2.
  cbv [sc_C writers chans logged trace] in Hc, Hch, Hl, Ht, Hws. subst.
  rewrite lookup_insert_eq. cbn [default from_option id app bind].
  run_step_by ltac:(rewrite lookup_insert_eq; cbv [default from_option id]).
  destruct err as [e|]; repeat run_step; run_done; fields.
  all: split; reflexivity.
Qed.

(** X18: a reload by signal and a reload by the endpoint are the same
    reload.  From the same store, the loop woken by [SIGHUP] and an allowed
    [POST] to the reload endpoint leave the same Configuration and log the
    same line; the signal makes one attempt and one log line and touches
    no channel and no response. *)
Theorem signal_reload_matches_endpoint ipWhitelist fl w r W :
  inWhitelist (RemoteIP r) ipWhitelist = true ->
  Method r = "POST" ->
  let err := fst (ReloadConfig (configFile fl) W) in
  let Ws := snd (run fl (reloadLoopBody fl Hup) W) in
  let We := snd (run fl (reloadHandler ipWhitelist w r) W) in
  sc_C Ws = sc_C We
  /\ logged Ws = logged We
  /\ trace Ws = trace W ++ [ReloadConfigOp (configFile fl);
                            Log (fst (reload_log err)) (snd (reload_log err))]
  /\ chans Ws = chans W /\ writers Ws = writers W.
Proof.
  intros Hal Hpost err Ws We. subst Ws We.
  destruct (hup_result fl W) as (Hc & Hl & Ht & Hch & Hws).
  destruct (reloadHandler_post_store ipWhitelist fl w r W Hal Hpost)
    as (Hc' & Hl').
  rewrite Hc, Hc', Hl, Hl'. repeat split; assumption.
Qed.

End ReloadPaths.

(** ** The endpoints that only read *)

Section ReadOnly.
Context `{Collaborators}.

(** X11: the Configuration changes by a reload only.  Whatever the
    endpoint and the request, unless the request is an allowed [POST] to
    the reload endpoint, the handler neither attempts nor requests a
    reload, and the Configuration of the store is after the request what
    it was before. *)
Theorem configuration_changes_only_by_reload fl ipWhitelist e w r W :
  e <> EpReload \/ Method r <> "POST"
  \/ inWhitelist (RemoteIP r) ipWhitelist = false ->
  ops_in not_reloading (endpointHandler fl ipWhitelist e w r)
  /\ sc_C (snd (run fl (endpointHandler fl ipWhitelist e w r) W)) = sc_C W.
Proof.
  intros Hcase.
  assert (Hops : ops_in not_reloading (endpointHandler fl ipWhitelist e w r)).
  { destruct e; cbn [endpointHandler].
    - unfold reloadHandler, CheckInIpWhitelist.
      destruct Hcase as [He|[Hm|Hd]]; [congruence| |].
      + apply String.eqb_neq in Hm. rewrite Hm. cbn [negb]. walk_ops.
      + rewrite Hd. cbn [bind negb]. walk_ops.
    - unfold Handler, HandlerFor_ServeHTTP, CheckInIpWhitelist. walk_ops.
    - apply probeRoute_ops.
    - unfold landingHandler, CheckInIpWhitelist. walk_ops.
    - unfold configHandler, CheckInIpWhitelist. walk_ops. }
  split; [exact Hops|]. now apply run_keeps_configuration.
Qed.

(** X12: the inspection endpoint, for an allowed client.  When the
    Configuration marshals, the response is the text, with status 200, and
    nothing is logged; when it does not, a warning with the error is
    logged and the response is 500 with the error.  Either way the
    Configuration is read once and stays as it is. *)
Theorem config_inspection fl ipWhitelist w r W :
  inWhitelist (RemoteIP r) ipWhitelist = true ->
  writer w W = newResponseWriter ->
  let W' := snd (run fl (configHandler ipWhitelist w r) W) in
  match MarshalYAML (sc_C W) with
  | inl text =>
      writer w W' = {| Status := Some 200; Body := text |}
      /\ logged W' = logged W
      /\ trace W' = trace W ++ [MarshalConfig; WriteBody w text]
  | inr err =>
      writer w W' = {| Status := Some 500; Body := err +:+ newline |}
      /\ logged W'
         = logged W ++ [(LWarn, "Error marshalling configuration: " +:+ err)]
      /\ trace W'
         = trace W ++
           [MarshalConfig;
            Log LWarn ("Error marshalling configuration: " +:+ err);
            HttpError w err 500]
  end
  /\ sc_C W' = sc_C W.
Proof.
  intros Hal Hw W'. subst W'.
  unfold configHandler, CheckInIpWhitelist. rewrite Hal.
  unfold run. cbn [bind negb]. destruct W. unfold writer in Hw.
  cbn [writers sc_C] in *. run_step. fields.
  destruct (MarshalYAML sc_C0) as [text|err];
    repeat run_step; run_done; fields;
    rewrite <- ?app_assoc, Hw, lookup_insert_eq; repeat split.
Qed.

End ReadOnly.

(** ** The entries of the whitelist *)

Section WhitelistEntries.
Import Entries.

Lemma append_cons c (s t : string) : String c s +:+ t = String c (s +:+ t).
Proof. reflexivity. Qed.

Lemma append_assoc (s t u : string) : (s +:+ t) +:+ u = s +:+ (t +:+ u).
Proof.
  induction s as [|c s IH]; [reflexivity|]. now rewrite !append_cons, IH.
Qed.

Lemma append_nil_r (s : string) : s +:+ "" = s.
Proof.
  induction s as [|c s IH]; [reflexivity|]. now rewrite append_cons, IH.
Qed.

Lemma all_chars_app P s t :
  all_chars P (s +:+ t) = all_chars P s && all_chars P t.
Proof.
  induction s as [|c s IH]; [reflexivity|].
  rewrite append_cons. cbn [all_chars]. now rewrite IH, andb_assoc.
Qed.

Lemma all_chars_weaken (P Q : ascii -> bool) s :
  (forall c, P c = true -> Q c = true) ->
  all_chars P s = true -> all_chars Q s = true.
Proof.
  intros HPQ. induction s as [|c s IH]; cbn [all_chars]; [reflexivity|].
  intros [Hc Hs]%andb_prop. now rewrite (HPQ c Hc), IH.
Qed.

(** What [dtoi] read: a run of digits, at least one, and a number that is
    not negative. *)
Lemma dtoi_loop_read s n i n' i' rest :
  0 <= n -> dtoi_loop s n i = (n', i', true, rest) ->
  exists ds, s = ds +:+ rest /\ all_chars is_digit ds = true
             /\ i' = (i + String.length ds)%nat /\ 0 <= n'.
Proof.
  revert n i. induction s as [|c s IH]; intros n i Hn; cbn [dtoi_loop].
  - intros [= <- <- <-]. exists "". cbn [String.length].
    repeat split; [lia|exact Hn].
  - fold (is_digit c). destruct (is_digit c) eqn:Hc.
    + destruct (big <=? n * 10 + (code c - 48)); [discriminate|].
      intros Hrec. apply IH in Hrec as (ds & -> & Hds & -> & Hn').
      * exists (String c ds). rewrite append_cons. cbn [all_chars String.length].
        rewrite Hc, Hds. repeat split; [lia|exact Hn'].
      * unfold is_digit in Hc. lia.
    + intros [= <- <- <-]. exists "". cbn [String.length].
    repeat split; [lia|exact Hn].
Qed.

Lemma dtoi_read s n i rest :
  dtoi s = (n, i, true, rest) ->
  exists ds, s = ds +:+ rest /\ all_chars is_digit ds = true
             /\ ds <> "" /\ 0 <= n.
Proof.
  unfold dtoi. destruct (dtoi_loop s 0 0) as [[[n0 i0] ok] rest0] eqn:Hl.
  destruct ok; cbn [negb]; [|discriminate].
  destruct (Nat.eqb_spec i0 0) as [->|Hi]; [discriminate|].
  intros [= <- <- <-].
  apply dtoi_loop_read in Hl as (ds & -> & Hds & -> & Hn); [|lia].
  exists ds. repeat split; try assumption. intros ->. now apply Hi.
Qed.

(** What the loop of [parseIPv4] read: digits and dots, and as many bytes
    as it was asked for. *)
Lemma parseIPv4_octets_read k first s p s' :
  parseIPv4_octets k first s = Some (p, s') ->
  exists t, s = t +:+ s' /\ all_chars quad_char t = true
            /\ length p = k /\ Forall is_byte p.
Proof.
  revert first s p s'. induction k as [|k IH]; intros first s p s';
    cbn [parseIPv4_octets].
  - intros [= <- <-]. exists "". repeat split. constructor.
  - destruct (GoStrings.is_empty s); [discriminate|].
    match goal with |- context [match ?a with Some _ => _ | None => None end] =>
      set (after := a) end.
    assert (Hafter : forall s1, after = Some s1 ->
               exists pre, s = pre +:+ s1 /\ all_chars quad_char pre = true).
    { subst after. destruct first.
      - intros s1 [= <-]. now exists "".
      - destruct s as [|c r]; [discriminate|].
        destruct (Ascii.eqb_spec c ".") as [->|_]; [|discriminate].
        intros s1 [= <-]. now exists ".". }
    destruct after as [s1|]; [|discriminate].
    destruct (Hafter s1 eq_refl) as (pre & -> & Hpre).
    destruct (dtoi s1) as [[[n i] ok] rest] eqn:Hd.
    destruct ok; cbn [negb orb]; [|discriminate].
    destruct (255 <? n) eqn:Hn; [discriminate|].
    destruct (parseIPv4_octets k false rest) as [[p0 s0]|] eqn:Hrec;
      [|discriminate].
    intros [= <- <-]. apply IH in Hrec as (t & -> & Ht & Hlen & Hp).
    apply dtoi_read in Hd as (ds & -> & Hds & _ & Hn0).
    exists (pre +:+ ds +:+ t). rewrite !append_assoc.
    split; [reflexivity|]. rewrite !all_chars_app, Hpre, Ht.
    rewrite (all_chars_weaken is_digit quad_char ds)
      by (exact Hds || (intros c Hc; unfold quad_char; now rewrite Hc)).
    split; [reflexivity|]. split; [cbn [length]; lia|].
    constructor; [unfold is_byte; lia|exact Hp].
Qed.


(** A dotted quad starts with digits and a dot, and is made of digits and
    dots. *)
Lemma parseIPv4_read e ip :
  parseIPv4 e = Some ip ->
  (exists a b c d,
     ip = IPv4 a b c d /\ is_byte a /\ is_byte b /\ is_byte c /\ is_byte d)
  /\ all_chars quad_char e = true
  /\ exists ds r, e = ds +:+ String "." r /\ all_chars is_digit ds = true.
Proof.
  unfold parseIPv4.
  destruct (parseIPv4_octets IPv4len true e) as [[p s']|] eqn:Hp;
    [|discriminate].
  pose proof (parseIPv4_octets_read _ _ _ _ _ Hp) as (t & -> & Ht & Hlen & Hb).
  destruct p as [|a [|b [|c [|d [|]]]]]; try discriminate.
  destruct s'; [|discriminate]. intros [= <-].
  rewrite append_nil_r in *.
  apply Forall_cons in Hb as [Ha Hb]. apply Forall_cons in Hb as [Hb' Hb].
  apply Forall_cons in Hb as [Hc Hb]. apply Forall_cons in Hb as [Hd _].
  split; [now exists a, b, c, d|]. split; [exact Ht|].
  revert Hp. unfold IPv4len. cbn [parseIPv4_octets].
  destruct (GoStrings.is_empty t); [discriminate|].
  destruct (dtoi t) as [[[n i] ok] rest] eqn:Hdt.
  destruct ok; cbn [negb orb]; [|discriminate].
  destruct (255 <? n); [discriminate|].
  apply dtoi_read in Hdt as (ds & -> & Hds & _).
  destruct rest as [|c0 r]; [discriminate|]. cbn [GoStrings.is_empty].
  destruct (Ascii.eqb_spec c0 ".") as [->|_]; [|discriminate].
  intros _. now exists ds, r.
Qed.

Lemma digit_not_separator c :
  is_digit c = true -> Ascii.eqb c "." = false /\ Ascii.eqb c ":" = false.
Proof.
  intros Hc. split.
  - destruct (Ascii.eqb_spec c ".") as [->|_]; [discriminate|reflexivity].
  - destruct (Ascii.eqb_spec c ":") as [->|_]; [discriminate|reflexivity].
Qed.

(** [ParseIP] on a text whose first separator is a dot. *)
Lemma ParseIP_scan_dot s0 ds r :
  all_chars is_digit ds = true ->
  ParseIP_scan s0 (ds +:+ String "." r) = parseIPv4 s0.
Proof.
  induction ds as [|c ds IH]; [reflexivity|].
  cbn [all_chars]. intros [Hc Hds]%andb_prop.
  rewrite append_cons. cbn [ParseIP_scan].
  destruct (digit_not_separator c Hc) as [-> ->]. now apply IH.
Qed.

(** [ParseCIDR] cuts at the slash that follows a text without slashes. *)
Lemma cut_slash_app e m :
  all_chars (fun c => negb (Ascii.eqb c "/")) e = true ->
  cut_slash (e +:+ String "/" m) = Some (e, m).
Proof.
  induction e as [|c e IH]; [reflexivity|].
  cbn [all_chars]. intros [Hc He]%andb_prop.
  rewrite append_cons. cbn [cut_slash].
  apply negb_true_iff in Hc. rewrite Hc, IH by exact He. reflexivity.
Qed.

Lemma land_byte v : is_byte v -> Z.land v 255 = v.
Proof.
  intros Hv. change 255 with (Z.ones 8).
  rewrite Z.land_ones by lia. apply Z.mod_small. unfold is_byte in Hv. lia.
Qed.

Lemma To4_none_length x : To4 x = None -> length x <> 4%nat.
Proof.
  unfold To4. destruct (Nat.eqb_spec (length x) IPv4len); [discriminate|].
  intros _. assumption.
Qed.

Lemma To4_bytes x x4 : Forall is_byte x -> To4 x = Some x4 -> Forall is_byte x4.
Proof.
  unfold To4. destruct (Nat.eqb (length x) IPv4len); [now intros ? [= <-]|].
  destruct (_ && _); [|discriminate]. intros Hx [= <-]. now apply Forall_drop.
Qed.

(** The range of a [/32] holds one address. *)
Lemma Contains_exact4 a b c d x :
  is_byte a -> is_byte b -> is_byte c -> is_byte d -> Forall is_byte x ->
  Contains {| IPNet_IP := [a; b; c; d];
              IPNet_Mask := [255; 255; 255; 255] |} x = true
  <-> To4 x = Some [a; b; c; d].
Proof.
  intros Ha Hb Hc Hd Hx. unfold Contains.
  change (networkNumberAndMask _)
    with (Some ([a; b; c; d], [255; 255; 255; 255])).
  cbn [from_option id].
  destruct (To4 x) as [x4|] eqn:H4; cbn [from_option id].
  - pose proof (To4_length _ _ H4) as Hlen.
    pose proof (To4_bytes _ _ Hx H4) as Hx4.
    destruct x4 as [|x1 [|x2 [|x3 [|x4 [|]]]]]; try discriminate.
    apply Forall_cons in Hx4 as [H1 Hx4]. apply Forall_cons in Hx4 as [H2 Hx4].
    apply Forall_cons in Hx4 as [H3 Hx4]. apply Forall_cons in Hx4 as [H4' _].
    cbn [length Nat.eqb negb zip zip_with forallb].
    rewrite !land_byte by assumption. rewrite !andb_true_iff, !Z.eqb_eq.
    split; [intros (-> & -> & -> & -> & _); reflexivity|].
    intros [= -> -> -> ->]. repeat split.
  - apply To4_none_length in H4. split; [|discriminate].
    cbn [length]. destruct (Nat.eqb_spec (length x) 4); [contradiction|].
    discriminate.
Qed.

(** X13: a whitelist entry that is a dotted quad is normalized to a range
    that holds this one address.  [ParseIP] reads the four bytes, the loop
    appends [/32], and [ParseCIDR] gives the network of these four bytes
    under the mask of four bytes 255; an address of four or sixteen bytes
    is in it if and only if its four-byte form is the address of the
    entry. *)
Theorem bare_ipv4_entry_is_exact (e : string) (ip : IP) :
  parseIPv4 e = Some ip ->
  exists a b c d,
    ParseIP e = Some (IPv4 a b c d)
    /\ normalizeEntry e = e +:+ "/32"
    /\ ParseCIDR (normalizeEntry e)
       = Some (IPv4 a b c d,
               {| IPNet_IP := [a; b; c; d];
                  IPNet_Mask := [255; 255; 255; 255] |})
    /\ forall x, Forall is_byte x ->
         (Contains {| IPNet_IP := [a; b; c; d];
                      IPNet_Mask := [255; 255; 255; 255] |} x = true
          <-> To4 x = Some [a; b; c; d]).
Proof.
  intros He.
  destruct (parseIPv4_read e ip He)
    as ((a & b & c & d & -> & Ha & Hb & Hc & Hd) & Hq & ds & r & Hds & Hdig).
  exists a, b, c, d.
  assert (Hip : ParseIP e = Some (IPv4 a b c d)).
  { unfold ParseIP. rewrite Hds at 2. now rewrite ParseIP_scan_dot. }
  assert (Hn : normalizeEntry e = e +:+ "/32").
  { unfold normalizeEntry. rewrite Hip. reflexivity. }
  split; [exact Hip|]. split; [exact Hn|]. split.
  - rewrite Hn. unfold ParseCIDR.
    rewrite cut_slash_app, He.
    2: { apply (all_chars_weaken quad_char); [|exact Hq].
         intros ch Hch. destruct (Ascii.eqb_spec ch "/") as [->|_];
           [discriminate|reflexivity]. }
    change (dtoi "32") with (32, 2%nat, true, "").
    cbn [negb orb GoStrings.is_empty].
    change (CIDRMask 32 (8 * Z.of_nat IPv4len))
      with (Some [255; 255; 255; 255]).
    change (32 <? 0) with false. change (8 * Z.of_nat IPv4len <? 32) with false.
    cbn [orb].
    change (Mask (IPv4 a b c d) [255; 255; 255; 255])
      with (Some [Z.land a 255; Z.land b 255; Z.land c 255; Z.land d 255]).
    now rewrite !land_byte.
  - intros x Hx. now apply Contains_exact4.
Qed.

(** *** IPv6 literals *)

(** The matches of [parseIPv6] on a literal character, as tests. *)
Lemma dot_match {A} (s : string) (f : string -> A) (g : A) :
  match s with String "."%char r => f r | _ => g end
  = match s with
    | String c r => if Ascii.eqb c "." then f r else g
    | EmptyString => g
    end.
Proof.
  destruct s as [|c r]; [reflexivity|].
  destruct c as [[] [] [] [] [] [] [] []]; reflexivity.
Qed.

Lemma colon_match {A} (s : string) (f : string -> A) (g : A) :
  match s with String ":"%char r => f r | _ => g end
  = match s with
    | String c r => if Ascii.eqb c ":" then f r else g
    | EmptyString => g
    end.
Proof.
  destruct s as [|c r]; [reflexivity|].
  destruct c as [[] [] [] [] [] [] [] []]; reflexivity.
Qed.

Lemma hexval_range c d : hexval c = Some d -> 0 <= d <= 15.
Proof.
  unfold hexval. cbv zeta.
  destruct ((48 <=? code c) && (code c <=? 57)) eqn:H1;
    [intros [= <-]; lia|].
  destruct ((97 <=? code c) && (code c <=? 102)) eqn:H2;
    [intros [= <-]; lia|].
  destruct ((65 <=? code c) && (code c <=? 70)) eqn:H3;
    [intros [= <-]; lia|discriminate].
Qed.

(** What [xtoi] read: hexadecimal digits, and a number that is not
    negative. *)
Lemma xtoi_loop_read s n i n' i' rest :
  0 <= n -> xtoi_loop s n i = (n', i', true, rest) ->
  exists hs, s = hs +:+ rest /\ all_chars literal_char hs = true /\ 0 <= n'.
Proof.
  revert n i. induction s as [|c s IH]; intros n i Hn; cbn [xtoi_loop].
  - intros [= <- <- <-]. now exists "".
  - destruct (hexval c) as [d|] eqn:Hc.
    + destruct (big <=? n * 16 + d); [discriminate|].
      pose proof (hexval_range c d Hc).
      intros Hrec. apply IH in Hrec as (hs & -> & Hhs & Hn'); [|lia].
      exists (String c hs). rewrite append_cons. cbn [all_chars].
      unfold literal_char at 1. rewrite Hc, Hhs. now repeat split.
    + intros [= <- <- <-]. now exists "".
Qed.

Lemma xtoi_read s n i rest :
  xtoi s = (n, i, true, rest) ->
  exists hs, s = hs +:+ rest /\ all_chars literal_char hs = true /\ 0 <= n.
Proof.
  unfold xtoi. destruct (xtoi_loop s 0 0) as [[[n0 i0] ok] rest0] eqn:Hl.
  destruct ok; cbn [negb]; [|discriminate].
  destruct (Nat.eqb i0 0); [discriminate|]. intros [= <- <- <-].
  apply xtoi_loop_read in Hl; [exact Hl|lia].
Qed.

Lemma quad_is_literal c : quad_char c = true -> literal_char c = true.
Proof.
  unfold quad_char, literal_char, hexval. cbv zeta. fold (is_digit c).
  destruct (is_digit c); [reflexivity|]. cbn [orb]. intros ->.
  destruct ((97 <=? code c) && (code c <=? 102)); [reflexivity|].
  destruct ((65 <=? code c) && (code c <=? 70)); [reflexivity|].
  now rewrite orb_true_r.
Qed.

Lemma sixteen_bytes_insert ip i v :
  sixteen_bytes ip -> is_byte v -> sixteen_bytes (<[i := v]> ip).
Proof.
  intros [Hl Hb] Hv. split; [now rewrite length_insert|].
  now apply Forall_insert.
Qed.

Lemma sixteen_bytes_lookup ip (j : nat) :
  Forall is_byte ip -> is_byte (ip !!! j).
Proof.
  intros Hb. rewrite list_lookup_total_alt.
  destruct (ip !! j) as [v|] eqn:Hj; cbn [default from_option id].
  - eapply Forall_lookup_1; eassumption.
  - unfold is_byte. cbn. lia.
Qed.

Lemma chunk_bytes n :
  0 <= n -> (65535 <? n) = false ->
  is_byte (Z.shiftr n 8) /\ is_byte (Z.land n 255).
Proof.
  intros Hn Hmax%Z.ltb_ge.
  assert (Z.land n 255 = n mod 256) as ->
    by (change 255 with (Z.ones 8); now rewrite Z.land_ones by lia).
  rewrite Z.shiftr_div_pow2 by lia. change (2 ^ 8) with 256.
  unfold is_byte. split.
  - assert (n / 256 < 256) by (apply Z.div_lt_upper_bound; lia).
    assert (0 <= n / 256) by (apply Z.div_pos; lia). lia.
  - pose proof (Z.mod_pos_bound n 256). lia.
Qed.

(** One turn of the loop of [parseIPv6] that does not fail: the address
    stays of sixteen bytes, and what was read is made of the characters of
    a literal. *)
Lemma parseIPv6_body_read st out :
  sixteen_bytes (v6_ip st) ->
  parseIPv6_body st = V6Break out \/ parseIPv6_body st = V6Next out ->
  sixteen_bytes (v6_ip out)
  /\ exists t, v6_s st = t +:+ v6_s out /\ all_chars literal_char t = true.
Proof.
  intros Hwf. unfold parseIPv6_body.
  destruct (xtoi (v6_s st)) as [[[n i0] ok] rest] eqn:Hx.
  destruct ok; cbn [negb orb]; [|intros [|]; discriminate].
  destruct (65535 <? n) eqn:Hn; [intros [|]; discriminate|].
  pose proof (xtoi_read _ _ _ _ Hx) as (hs & Hs & Hhs & Hn0).
  destruct (chunk_bytes n Hn0 Hn) as [Hhi Hlo].
  assert (Hwf2 : sixteen_bytes
                   (<[S (v6_i st) := Z.land n 255]>
                      (<[v6_i st := Z.shiftr n 8]> (v6_ip st))))
    by (apply sixteen_bytes_insert; [apply sixteen_bytes_insert|]; assumption).
  rewrite dot_match.
  destruct rest as [|c s1].
  { intros [[= <-]|]; [|discriminate]. cbn [v6_ip v6_s].
    split; [exact Hwf2|]. exists hs.
    rewrite Hs at 1. split; [reflexivity|exact Hhs]. }
  destruct (Ascii.eqb_spec c ".") as [->|Hdot].
  { destruct (_ && _); [intros [|]; discriminate|].
    destruct (_ <? _)%nat; [intros [|]; discriminate|].
    destruct (parseIPv4 (v6_s st)) as [ip4|] eqn:H4;
      [|intros [|]; discriminate].
    intros [[= <-]|]; [|discriminate]. cbn [v6_ip v6_s].
    destruct (parseIPv4_read _ _ H4)
      as ((a & b & c & d & -> & Ha & Hb & Hc & Hd) & Hq & _).
    assert (Hq4 : Forall is_byte (IPv4 a b c d)).
    { unfold IPv4, v4InV6Prefix. cbn [app].
      repeat (apply Forall_cons_2; [first [assumption|unfold is_byte; lia]|]).
      apply Forall_nil_2. }
    split.
    - repeat (apply sixteen_bytes_insert;
              [|apply sixteen_bytes_lookup; exact Hq4]).
      exact Hwf.
    - exists (v6_s st). rewrite append_nil_r. split; [reflexivity|].
      apply (all_chars_weaken quad_char); [apply quad_is_literal|exact Hq]. }
  destruct (Ascii.eqb_spec c ":") as [->|Hcolon]; cbn [negb orb];
    [|intros [|]; discriminate].
  rewrite colon_match.
  destruct s1 as [|c2 s2]; cbn [GoStrings.is_empty];
    [intros [|]; discriminate|].
  destruct (Ascii.eqb_spec c2 ":") as [->|Hc2].
  - destruct (v6_ellipsis st); [intros [|]; discriminate|].
    intros Hout.
    assert (out = {| v6_ip := <[S (v6_i st) := Z.land n 255]>
                                (<[v6_i st := Z.shiftr n 8]> (v6_ip st));
                     v6_i := (v6_i st + 2)%nat;
                     v6_ellipsis := Some (v6_i st + 2)%nat; v6_s := s2 |})
      as ->.
    { destruct (GoStrings.is_empty s2);
        destruct Hout as [Hout|Hout]; congruence. }
    cbn [v6_ip v6_s]. split; [exact Hwf2|].
    exists (hs +:+ "::"). rewrite Hs at 1. rewrite append_assoc, all_chars_app, Hhs.
    split; reflexivity.
  - intros [|[= <-]]; [discriminate|]. cbn [v6_ip v6_s].
    split; [exact Hwf2|].
    exists (hs +:+ ":"). rewrite Hs at 1. rewrite append_assoc, all_chars_app, Hhs.
    split; reflexivity.
Qed.

Lemma parseIPv6_loop_read turns st out :
  sixteen_bytes (v6_ip st) ->
  parseIPv6_loop turns st = Some out ->
  sixteen_bytes (v6_ip out)
  /\ exists t, v6_s st = t +:+ v6_s out /\ all_chars literal_char t = true.
Proof.
  revert st. induction turns as [|turns IH]; intros st Hwf;
    cbn [parseIPv6_loop]; destruct (v6_i st <? IPv6len)%nat.
  - discriminate.
  - intros [= <-]. split; [exact Hwf|]. now exists "".
  - destruct (parseIPv6_body st) as [|st'|st'] eqn:Hb; [discriminate| |].
    + intros [= <-]. apply (parseIPv6_body_read st); auto.
    + intros Hrec.
      destruct (parseIPv6_body_read st st' Hwf (or_intror Hb))
        as (Hwf' & t1 & Hs1 & Ht1).
      destruct (IH st' Hwf' Hrec) as (Hwf'' & t2 & Hs2 & Ht2).
      split; [exact Hwf''|]. exists (t1 +:+ t2).
      rewrite Hs1, Hs2, append_assoc, all_chars_app, Ht1, Ht2. now split.
  - intros [= <-]. split; [exact Hwf|]. now exists "".
Qed.

Lemma expand_ellipsis_bytes ip i e :
  sixteen_bytes ip -> sixteen_bytes (expand_ellipsis ip i e).
Proof.
  intros Hwf. unfold expand_ellipsis.
  assert (Hzero : forall l ip0, sixteen_bytes ip0 ->
             sixteen_bytes (foldl (fun ip j => <[j := 0]> ip) ip0 l)).
  { induction l as [|j l IH]; intros ip0 H0; cbn [foldl]; [exact H0|].
    apply IH, sixteen_bytes_insert; [exact H0|]. unfold is_byte. lia. }
  apply Hzero. generalize (rev (seq e (i - e))). revert Hwf. generalize ip.
  intros ip0 H0 l. revert ip0 H0.
  induction l as [|j l IH]; intros ip0 H0; cbn [foldl]; [exact H0|].
  apply IH, sixteen_bytes_insert; [exact H0|].
  apply sixteen_bytes_lookup, H0.
Qed.

Lemma double_colon_match {A} (s : string) (f : string -> A) (g : A) :
  match s with String ":"%char (String ":"%char r) => f r | _ => g end
  = match s with
    | String c1 t =>
        if Ascii.eqb c1 ":" then
          match t with
          | String c2 r => if Ascii.eqb c2 ":" then f r else g
          | EmptyString => g
          end
        else g
    | EmptyString => g
    end.
Proof.
  destruct s as [|c1 t]; [reflexivity|].
  destruct c1 as [[] [] [] [] [] [] [] []]; try reflexivity.
  destruct t as [|c2 r]; [reflexivity|].
  destruct c2 as [[] [] [] [] [] [] [] []]; reflexivity.
Qed.

(** An IPv6 literal gives sixteen bytes, and is made of hexadecimal
    digits, colons and dots. *)
Lemma parseIPv6_read e ip :
  parseIPv6 e = Some ip ->
  sixteen_bytes ip /\ all_chars literal_char e = true.
Proof.
  assert (H0 : sixteen_bytes (replicate IPv6len 0)).
  { split; [reflexivity|]. apply Forall_replicate. unfold is_byte. lia. }
  assert (Hfinish : forall s0 ell,
             match parseIPv6_loop 8 {| v6_ip := replicate IPv6len 0; v6_i := 0;
                                       v6_ellipsis := ell; v6_s := s0 |} with
             | Some st =>
                 if negb (GoStrings.is_empty (v6_s st)) then None
                 else if (v6_i st <? IPv6len)%nat then
                   match v6_ellipsis st with
                   | None => None
                   | Some e' => Some (expand_ellipsis (v6_ip st) (v6_i st) e')
                   end
                 else match v6_ellipsis st with
                      | Some _ => None
                      | None => Some (v6_ip st)
                      end
             | None => None
             end = Some ip ->
             sixteen_bytes ip /\ all_chars literal_char s0 = true).
  { intros s0 ell.
    destruct (parseIPv6_loop 8 _) as [st|] eqn:Hl; [|discriminate].
    apply parseIPv6_loop_read in Hl as (Hwf & t & Hs & Ht); [|exact H0].
    cbn [v6_s] in Hs.
    destruct (v6_s st) eqn:Hrest; cbn [GoStrings.is_empty negb];
      [|discriminate].
    rewrite append_nil_r in Hs. subst s0.
    destruct (v6_i st <? IPv6len)%nat; destruct (v6_ellipsis st);
      try discriminate; intros [= <-]; split; try exact Ht; try exact Hwf.
    now apply expand_ellipsis_bytes. }
  unfold parseIPv6. cbv zeta. rewrite double_colon_match.
  destruct e as [|c1 t]; [apply Hfinish|].
  destruct (Ascii.eqb_spec c1 ":") as [->|Hc1]; [|apply Hfinish].
  destruct t as [|c2 r]; [apply Hfinish|].
  destruct (Ascii.eqb_spec c2 ":") as [->|Hc2]; [|apply Hfinish].
  destruct (GoStrings.is_empty r) eqn:Hr.
  - destruct r; [|discriminate]. intros [= <-]. now split.
  - intros Hres. apply Hfinish in Hres as [Hwf Hchars].
    split; [exact Hwf|]. cbn [all_chars]. now rewrite Hchars.
Qed.

(** Which parser [ParseIP] hands the text to: [parseIPv4], or [parseIPv6]
    when a colon comes first, and then the text is no dotted quad. *)
Lemma ParseIP_scan_cases s0 s ip :
  ParseIP_scan s0 s = Some ip ->
  parseIPv4 s0 = Some ip
  \/ (parseIPv6 s0 = Some ip /\ all_chars quad_char s = false).
Proof.
  induction s as [|c s IH]; cbn [ParseIP_scan]; [discriminate|].
  destruct (Ascii.eqb_spec c ".") as [->|Hdot]; [now left|].
  destruct (Ascii.eqb_spec c ":") as [->|Hcolon]; [now right|].
  intros [H4|[H6 Hq]]%IH; [now left|right]. split; [exact H6|].
  cbn [all_chars]. now rewrite Hq, andb_false_r.
Qed.

Lemma ParseIP_chars e ip :
  ParseIP e = Some ip -> all_chars literal_char e = true.
Proof.
  intros [H4|[H6 _]]%ParseIP_scan_cases.
  - apply parseIPv4_read in H4 as (_ & Hq & _).
    apply (all_chars_weaken quad_char); [apply quad_is_literal|exact Hq].
  - now apply parseIPv6_read in H6.
Qed.

Lemma literal_not_slash c :
  literal_char c = true -> negb (Ascii.eqb c "/") = true.
Proof.
  intros Hc. destruct (Ascii.eqb_spec c "/") as [->|_];
    [discriminate|reflexivity].
Qed.

Lemma land_all (ip : list Z) :
  Forall is_byte ip -> zip_with Z.land ip (replicate (length ip) 255) = ip.
Proof.
  induction 1 as [|v ip Hv _ IH]; [reflexivity|].
  cbn [length replicate zip_with]. now rewrite land_byte, IH.
Qed.

Lemma match_all (ip x : list Z) :
  length x = length ip -> Forall is_byte ip -> Forall is_byte x ->
  forallb (fun t : Z * Z * Z => let '(a, b, k) := t in Z.land a k =? Z.land b k)
          (zip (zip ip x) (replicate (length ip) 255)) = true
  <-> x = ip.
Proof.
  intros Hlen Hip. revert x Hlen.
  induction Hip as [|v ip Hv _ IH]; intros x Hlen Hx.
  - destruct x; [now split|discriminate].
  - destruct x as [|u x]; [discriminate|].
    apply Forall_cons in Hx as [Hu Hx]. injection Hlen as Hlen.
    cbn [length replicate zip zip_with forallb].
    rewrite !land_byte, andb_true_iff, Z.eqb_eq, (IH x Hlen Hx) by assumption.
    split; [intros [-> ->]; reflexivity|intros [= -> ->]; now split].
Qed.

Lemma Mask_full (ip : IP) :
  length ip = 16%nat -> Forall is_byte ip ->
  Mask ip (replicate 16 255) = Some ip.
Proof.
  intros Hlen Hb. unfold Mask, IPv4len, IPv6len. rewrite !Hlen.
  cbn [length replicate Nat.eqb andb negb]. rewrite Hlen.
  cbn [Nat.eqb negb]. f_equal.
  rewrite <- (land_all ip Hb) at 2. now rewrite Hlen.
Qed.

Lemma networkNumberAndMask_full (ip : IP) :
  To4 ip = None -> length ip = 16%nat ->
  networkNumberAndMask {| IPNet_IP := ip; IPNet_Mask := replicate 16 255 |}
  = Some (ip, replicate 16 255).
Proof.
  intros H4 Hlen. unfold networkNumberAndMask, IPv4len, IPv6len.
  cbn [IPNet_IP IPNet_Mask]. rewrite H4, !Hlen.
  cbn [Nat.eqb length replicate]. now rewrite Hlen.
Qed.

(** X14: a whitelist entry that [ParseIP] reads as an address without a
    four-byte form is normalized to a range that holds this one address:
    the loop appends [/128], [ParseCIDR] gives the network of the sixteen
    bytes under the mask of sixteen bytes 255, and an address is in it if
    and only if it is the address of the entry. *)
Theorem bare_ipv6_entry_is_exact (e : string) (ip : IP) :
  ParseIP e = Some ip ->
  To4 ip = None ->
  normalizeEntry e = e +:+ "/128"
  /\ ParseCIDR (normalizeEntry e)
     = Some (ip, {| IPNet_IP := ip; IPNet_Mask := replicate 16 255 |})
  /\ forall x, Forall is_byte x ->
       (Contains {| IPNet_IP := ip; IPNet_Mask := replicate 16 255 |} x = true
        <-> x = ip).
Proof.
  intros Hip H4.
  assert (Hn : normalizeEntry e = e +:+ "/128")
    by (unfold normalizeEntry; now rewrite Hip, H4).
  pose proof (ParseIP_chars e ip Hip) as Hchars.
  destruct (ParseIP_scan_cases e e ip Hip) as [Hv4|[Hv6 Hq]].
  { apply parseIPv4_read in Hv4 as ((a & b & c & d & -> & _) & _).
    discriminate H4. }
  assert (Hno4 : parseIPv4 e = None).
  { destruct (parseIPv4 e) as [ip'|] eqn:H'; [|reflexivity].
    apply parseIPv4_read in H' as (_ & Hq' & _). congruence. }
  destruct (parseIPv6_read e ip Hv6) as [[Hlen Hbytes] _].
  split; [exact Hn|]. split.
  - rewrite Hn. unfold ParseCIDR.
    rewrite cut_slash_app, Hno4, Hv6
      by (apply (all_chars_weaken literal_char);
          [apply literal_not_slash|exact Hchars]).
    change (dtoi "128") with (128, 3%nat, true, "").
    cbn [negb orb GoStrings.is_empty].
    change (CIDRMask 128 (8 * Z.of_nat IPv6len))
      with (Some (replicate 16 255)).
    change (128 <? 0) with false.
    change (8 * Z.of_nat IPv6len <? 128) with false. cbn [orb].
    now rewrite Mask_full.
  - intros x Hx. unfold Contains.
    rewrite networkNumberAndMask_full by assumption.
    cbn [from_option id].
    destruct (To4 x) as [x4|] eqn:Hx4; cbn [from_option id].
    + rewrite (To4_length _ _ Hx4), Hlen. cbn [Nat.eqb negb].
      split; [discriminate|]. intros ->. congruence.
    + rewrite Hlen. destruct (Nat.eqb_spec (length x) 16) as [Hlx|Hlx];
        cbn [negb].
      * change (replicate 16 255) with (replicate 16%nat 255).
        rewrite <- Hlen. apply match_all; [congruence|exact Hbytes|exact Hx].
      * split; [discriminate|]. intros ->. contradiction.
Qed.

(** X15: an entry that holds a slash is handed to [ParseCIDR] as it is
    written: [ParseIP] reads no text with a slash in it, so the loop
    appends nothing. *)
Theorem range_entry_is_parsed_as_written (a m : string) :
  ParseIP (a +:+ String "/" m) = None
  /\ normalizeEntry (a +:+ String "/" m) = a +:+ String "/" m.
Proof.
  assert (Hnone : ParseIP (a +:+ String "/" m) = None).
  { destruct (ParseIP _) as [ip|] eqn:Hip; [|reflexivity].
    apply ParseIP_chars in Hip. rewrite all_chars_app in Hip.
    cbn [all_chars] in Hip. change (literal_char "/") with false in Hip.
    now rewrite andb_false_r in Hip. }
  split; [exact Hnone|]. unfold normalizeEntry. now rewrite Hnone.
Qed.

(** *** The loop over the entries *)

Lemma buildWhitelist_loop_spec (entries : list string) (acc wl : list IPNet) :
  buildWhitelist_loop entries acc = inl wl
  <-> exists ns,
        wl = acc ++ ns
        /\ Forall2 (fun e n => exists ip,
                      ParseCIDR (normalizeEntry e) = Some (ip, n)) entries ns.
Proof.
  revert acc. induction entries as [|e entries IH]; intros acc;
    cbn [buildWhitelist_loop].
  - split.
    + intros [= <-]. exists []. rewrite app_nil_r. split; constructor.
    + intros (ns & -> & Hns). apply Forall2_nil_inv_l in Hns as ->.
      now rewrite app_nil_r.
  - destruct (ParseCIDR (normalizeEntry e)) as [[ip n]|] eqn:He.
    + rewrite IH. split.
      * intros (ns & -> & Hns). exists (n :: ns).
        rewrite <- app_assoc. split; [reflexivity|].
        constructor; [now exists ip|exact Hns].
      * intros (ns & -> & Hns).
        apply Forall2_cons_inv_l in Hns as (n' & ns' & [ip' Hn'] & Hns' & ->).
        exists ns'. rewrite <- app_assoc. split; [|exact Hns'].
        rewrite He in Hn'. now injection Hn' as _ <-.
    + split; [discriminate|]. intros (ns & _ & Hns).
      apply Forall2_cons_inv_l in Hns as (n' & ns' & [ip' Hn'] & _).
      rewrite He in Hn'. discriminate.
Qed.

(** X16: the whitelist is built if and only if [ParseCIDR] accepts every
    entry of the flag, normalized; it then holds the network of each
    entry, one for one and in the order of the flag: no entry is skipped,
    merged with another or moved. *)
Theorem whitelist_has_one_range_per_entry (fl : Flags) (wl : list IPNet) :
  buildWhitelist fl = inl wl
  <-> Forall2 (fun e n => exists ip,
                 ParseCIDR (normalizeEntry e) = Some (ip, n))
              (GoStrings.Split (ipWhitelistString fl) ","%char) wl.
Proof.
  unfold buildWhitelist. rewrite buildWhitelist_loop_spec. split.
  - now intros (ns & -> & Hns).
  - intros Hns. now exists wl.
Qed.

(** [strings.Split]: the fields of a text around a separator are the
    fields before it, then the fields after it. *)
Lemma Split_not_nil s sep : GoStrings.Split s sep <> [].
Proof.
  destruct s as [|c s]; cbn [GoStrings.Split]; [discriminate|].
  destruct (Ascii.eqb c sep); [discriminate|].
  destruct (GoStrings.Split s sep); discriminate.
Qed.

Lemma Split_app a b sep :
  GoStrings.Split (a +:+ String sep b) sep
  = GoStrings.Split a sep ++ GoStrings.Split b sep.
Proof.
  induction a as [|c a IH].
  - change ("" +:+ String sep b) with (String sep b).
    cbn [GoStrings.Split app]. now rewrite Ascii.eqb_refl.
  - rewrite append_cons. cbn [GoStrings.Split]. rewrite IH.
    destruct (Ascii.eqb c sep); [reflexivity|].
    pose proof (Split_not_nil a sep).
    destruct (GoStrings.Split a sep); [contradiction|reflexivity].
Qed.

(** X17: an empty entry is fatal.  When the whitelist flag is empty, or
    starts or ends with a comma, or holds two commas in a row, one of its
    entries is the empty text, which [ParseCIDR] refuses: the whitelist is
    not built, whatever the other entries.  An empty entry is not skipped,
    and an empty flag does not mean an empty whitelist. *)
Theorem empty_entry_is_fatal (fl : Flags) (a b : string) :
  ipWhitelistString fl = ""
  \/ ipWhitelistString fl = a +:+ ","
  \/ ipWhitelistString fl = "," +:+ b
  \/ ipWhitelistString fl = a +:+ ",," +:+ b ->
  exists msg, buildWhitelist fl = inr msg.
Proof.
  intros Hflag. unfold buildWhitelist.
  apply (buildWhitelist_loop_fails _ [] ""); [|reflexivity].
  destruct Hflag as [-> | [-> | [-> | ->]]].
  - apply list_elem_of_here.
  - rewrite (Split_app a "" ","). apply elem_of_app. right.
    apply list_elem_of_here.
  - apply list_elem_of_here.
  - change (a +:+ ",," +:+ b) with (a +:+ String "," (String "," b)).
    rewrite Split_app. apply elem_of_app. right. apply list_elem_of_here.
Qed.

End WhitelistEntries.

(** ** The theorems at concrete requests *)

Section Evaluation.
#[local] Existing Instance Sample.sample.

Lemma zero_hint_is_absent_hint_witness :
  probeHandler defaultFlags 1%positive Sample.req_zero
    Sample.conf0 Sample.allowAll
  = probeHandler defaultFlags 1%positive (without_hint Sample.req_zero)
      Sample.conf0 Sample.allowAll
  /\ timeoutHint (without_hint Sample.req_zero) = HintAbsent
  /\ forall module,
       Modules Sample.conf0 !! moduleName Sample.req_zero = Some module ->
       first_op (probeHandler defaultFlags 1%positive Sample.req_zero
                   Sample.conf0 Sample.allowAll)
       = Some (WithTimeout
                 (deadline (budget baseline (GoTime.Seconds (Timeout module))
                                   (timeoutOffset defaultFlags)))).
Proof.
  apply (zero_hint_is_absent_hint defaultFlags 1%positive
           Sample.req_zero Sample.conf0 Sample.allowAll 0%float);
    vm_compute; reflexivity.
Defined.

Lemma timeout_negotiation_witness :
  first_op (probeHandler defaultFlags 1%positive
              Sample.req_tcp_20 Sample.conf0 Sample.allowAll)
  = Some (WithTimeout (Some 4500000000)).
Proof.
  apply (timeout_negotiation defaultFlags 1%positive
           Sample.req_tcp_20 Sample.conf0 Sample.allowAll Sample.tcp_5s
           20%float); vm_compute; reflexivity.
Defined.

(** C1 as stated fails on the code: with the hint header ["0"] and a module
    without ceiling, the claim's candidate is the hint 0 and its budget
    0 - 0.5, while [probeHandler] derives the context from 10 - 0.5. *)
Lemma hint_zero_not_the_candidate :
  ~ stated_timeout_negotiation defaultFlags 1%positive
      Sample.req_zero Sample.conf0 Sample.allowAll.
Proof.
  intros Hc.
  specialize (Hc Sample.http_2xx 0%float eq_refl eq_refl).
  vm_compute in Hc. discriminate Hc.
Qed.

Lemma unparseable_hint_is_server_error_witness :
  let msg := "Failed to parse timeout from Prometheus header: "
             +:+ Sample.syntax_error "abc" in
  let W' := snd (run defaultFlags
                   (probeHandler defaultFlags 1%positive Sample.req_bad_hint
                      Sample.conf0 Sample.allowAll) Sample.W0) in
  writer 1%positive W' = {| Status := Some 500; Body := msg +:+ newline |}
  /\ trace W' = trace Sample.W0 ++ [HttpError 1%positive msg 500].
Proof.
  apply (unparseable_hint_is_server_error defaultFlags
           Sample.W0 1%positive Sample.req_bad_hint Sample.conf0
           Sample.allowAll Sample.http_2xx (Sample.syntax_error "abc"));
    vm_compute; reflexivity.
Defined.

(** C8 as stated fails on the code: a request that names an unknown module
    and carries the unparseable hint ["abc"] is answered 400, not 500. *)
Lemma unknown_module_before_hint :
  ~ stated_unparseable_hint defaultFlags Sample.W0
      1%positive Sample.req_unknown_bad_hint Sample.conf0 Sample.allowAll.
Proof.
  intros Hc.
  specialize (Hc (Sample.syntax_error "abc") eq_refl eq_refl).
  vm_compute in Hc. discriminate Hc.
Qed.

Lemma missing_target_rejected_witness :
  let ctx := negotiated_context defaultFlags 10%float Sample.tcp_5s
               (clock Sample.W0) in
  let W' := snd (run defaultFlags
                   (probeHandler defaultFlags 1%positive Sample.req_no_target
                      Sample.conf0 Sample.allowAll) Sample.W0) in
  writer 1%positive W'
  = {| Status := Some 400;
       Body := "Target parameter is missing" +:+ newline |}
  /\ trace W' = trace Sample.W0 ++
       [WithTimeout (ctx_timeout ctx);
        NewGauge "probe_success"
                 "Displays whether or not the probe was a success";
        NewGauge "probe_duration_seconds"
                 "Returns how long the probe took to complete in seconds";
        HttpError 1%positive "Target parameter is missing" 400;
        Cancel ctx]
  /\ prober_calls (trace W') = prober_calls (trace Sample.W0).
Proof.
  apply (missing_target_rejected defaultFlags Sample.W0
           1%positive Sample.req_no_target Sample.conf0 Sample.allowAll
           Sample.tcp_5s 10%float); vm_compute; reflexivity.
Defined.

(** C2 as stated fails on the code: a request without [target] that carries
    the unparseable hint ["abc"] is answered 500 with the parser's error,
    because the hint is read before the target. *)
Lemma hint_read_before_target :
  ~ stated_missing_target defaultFlags Sample.W0
      1%positive Sample.req_no_target_bad_hint Sample.conf0 Sample.allowAll.
Proof.
  intros Hc. specialize (Hc eq_refl eq_refl).
  vm_compute in Hc. discriminate Hc.
Qed.

Lemma probe_finalization_witness :
  let ctx := negotiated_context defaultFlags 20%float Sample.tcp_5s
               (clock Sample.W0) in
  let out := Probe ProbeTCP ctx "up"
               Sample.tcp_5s (clock Sample.W0) in
  let W' := snd (run defaultFlags
                   (probeHandler defaultFlags 1%positive Sample.req_tcp_20
                      Sample.conf0 Sample.allowAll) Sample.W0) in
  writer 1%positive W'
  = {| Status := Some 200;
       Body := Expfmt ([success_entry (if po_success out then 1 else 0)%float;
                        duration_entry
                          (GoTime.Seconds (clock W' - clock Sample.W0))]
                       ++ po_registered out) |}
  /\ clock W' - clock Sample.W0 = po_elapsed out.
Proof.
  apply (probe_finalization defaultFlags Sample.W0
           1%positive Sample.req_tcp_20 Sample.conf0 Sample.allowAll
           Sample.tcp_5s 20%float Sample.tcp_5s ProbeTCP);
    vm_compute; reflexivity.
Defined.

Lemma inline_override_witness :
  sc_C (snd (run defaultFlags
               (probeRoute defaultFlags Sample.allowAll 2%positive
                  Sample.req_override) Sample.W0))
  = sc_C Sample.W0.
Proof.
  refine (proj1 (inline_override defaultFlags Sample.allowAll Sample.W0
                   1%positive Sample.req_bad_override Sample.http_2xx
                   10%float _ _ _ _) 2%positive Sample.req_override);
    vm_compute; reflexivity.
Defined.

Lemma denied_request_has_no_effect_witness :
  run defaultFlags
    (endpointHandler defaultFlags Sample.onlyLocalhost EpReload 1%positive
       Sample.req_stranger) Sample.W0
  = exec (serveReload defaultFlags)
      (HttpError 1%positive DenyMessage DenyStatus) Sample.W0.
Proof.
  apply (denied_request_has_no_effect defaultFlags
           Sample.onlyLocalhost EpReload 1%positive Sample.req_stranger
           Sample.W0). vm_compute; reflexivity.
Defined.

Lemma failed_reload_keeps_configuration_witness :
  sc_C (snd (run defaultFlags
               (reloadLoopBody defaultFlags Hup) Sample.W0))
  = Sample.conf0.
Proof.
  apply (failed_reload_keeps_configuration defaultFlags
           Sample.W0 Hup
           "Error parsing config file: yaml: did not find expected key").
  apply (ParseError defaultFlags Sample.W0 "modules: [");
    vm_compute; reflexivity.
Defined.

(** Two requests taking turns until both are served: each gathered its own
    registry, with its own success. *)
Lemma probe_requests_isolated_witness :
  (gathered (log_of 0 Sample.served)
   = [(2%positive,
       [success_entry 1; duration_entry 0.5;
        {| metric_Name := "probe_ip_protocol"; metric_Help := "";
           metric_value := 4 |}])]
   /\ gathered (log_of 1 Sample.served)
      = [(3%positive,
          [success_entry 0; duration_entry 0.5;
           {| metric_Name := "probe_ip_protocol"; metric_Help := "";
              metric_value := 4 |}])])
  /\ isolated Sample.W0 Sample.served.
Proof.
  split; [split; vm_compute; reflexivity|].
  exact (probe_requests_isolated defaultFlags Sample.allowAll
           Sample.two_requests Sample.W0 Sample.served
           (play_reachable defaultFlags (Sample.alternate 16) _)).
Defined.

(** The second entry of the flag [10.0.0.0/8,localhost] is no address and
    no range. *)
Lemma malformed_entry_is_fatal_witness :
  (exists msg, buildWhitelist Sample.malformedFlags = inr msg)
  /\ exists msg, main_startup Sample.malformedFlags Sample.W0 = inr msg.
Proof.
  apply (malformed_entry_is_fatal Sample.malformedFlags Sample.W0 "localhost").
  - vm_compute. apply list_elem_of_further, list_elem_of_here.
  - vm_compute. reflexivity.
Defined.

(** *** More of [main.go] *)

Lemma default_module_is_http_2xx_witness :
  probeHandler defaultFlags 1%positive Sample.req_plain
    Sample.conf0 Sample.allowAll
  = probeHandler defaultFlags 1%positive
      (Paths.with_param "module" "http_2xx" Sample.req_plain)
      Sample.conf0 Sample.allowAll.
Proof.
  apply (default_module_is_http_2xx defaultFlags 1%positive
           Sample.req_plain Sample.conf0 Sample.allowAll).
  vm_compute; reflexivity.
Defined.

Lemma unknown_module_rejected_witness :
  let msg := "Unknown module " +:+ Quote "nope" in
  let W' := snd (run defaultFlags
                   (probeHandler defaultFlags 1%positive
                      Cases.req_unknown_module Sample.conf0 Sample.allowAll)
                   Sample.W0) in
  writer 1%positive W' = {| Status := Some 400; Body := msg +:+ newline |}
  /\ trace W' = trace Sample.W0 ++ [HttpError 1%positive msg 400]
  /\ gauges W' = gauges Sample.W0 /\ registries W' = registries Sample.W0
  /\ clock W' = clock Sample.W0 /\ sc_C W' = sc_C Sample.W0.
Proof.
  apply (unknown_module_rejected defaultFlags 1%positive
           Cases.req_unknown_module Sample.conf0 Sample.allowAll Sample.W0);
    vm_compute; reflexivity.
Defined.

Lemma unknown_prober_rejected_witness :
  let msg := "Unknown prober " +:+ Quote "smtp" in
  let ctx := negotiated_context defaultFlags 10%float Cases.smtp_module
               (clock Sample.W0) in
  let W' := snd (run defaultFlags
                   (probeHandler defaultFlags 1%positive Sample.req_plain
                      Cases.conf_smtp Sample.allowAll) Sample.W0) in
  writer 1%positive W' = {| Status := Some 400; Body := msg +:+ newline |}
  /\ trace W' = trace Sample.W0 ++
       [WithTimeout (ctx_timeout ctx);
        NewGauge "probe_success"
                 "Displays whether or not the probe was a success";
        NewGauge "probe_duration_seconds"
                 "Returns how long the probe took to complete in seconds";
        HttpError 1%positive msg 400;
        Cancel ctx].
Proof.
  apply (unknown_prober_rejected defaultFlags 1%positive Sample.req_plain
           Cases.conf_smtp Sample.allowAll Sample.W0 Cases.smtp_module
           10%float Cases.smtp_module); vm_compute; reflexivity.
Defined.

Lemma reload_requires_post_witness :
  let msg := "This endpoint requires a POST request." +:+ newline in
  let W' := snd (run defaultFlags
                   (reloadHandler Sample.onlyLocalhost 1%positive
                      Cases.req_reload_get) Sample.W0) in
  writer 1%positive W'
  = {| Status := Some StatusMethodNotAllowed; Body := msg |}
  /\ trace W' = trace Sample.W0 ++ [WriteHeader 1%positive
                                      StatusMethodNotAllowed;
                                    WriteBody 1%positive msg]
  /\ sc_C W' = sc_C Sample.W0 /\ chans W' = chans Sample.W0
  /\ logged W' = logged Sample.W0 /\ files W' = files Sample.W0.
Proof.
  apply (reload_requires_post Sample.onlyLocalhost defaultFlags 1%positive
           Cases.req_reload_get Sample.W0);
    [vm_compute; reflexivity | discriminate | vm_compute; reflexivity].
Defined.

(** The file of [W0] does not parse: the handshake carries the error. *)
Lemma reload_handshake_witness :
  fst (ReloadConfig (configFile defaultFlags) Sample.W0)
  = Some "Error parsing config file: yaml: did not find expected key"
  /\ (let rc := fresh (dom (chans Sample.W0)) in
      let err := fst (ReloadConfig (configFile defaultFlags) Sample.W0) in
      let W' := snd (run defaultFlags
                       (reloadHandler Sample.onlyLocalhost 1%positive
                          Sample.req_reload) Sample.W0) in
      trace W'
      = trace Sample.W0 ++
        [MakeChan; SendReloadCh rc; ReloadConfigOp (configFile defaultFlags);
         Log (fst (Paths.reload_log err)) (snd (Paths.reload_log err));
         ChanSend rc err; ChanRecv rc]
        ++ match err with
           | Some e =>
               [HttpError 1%positive ("failed to reload config: " +:+ e)
                          StatusInternalServerError]
           | None => []
           end
      /\ chans W' = <[rc := []]> (chans Sample.W0)
      /\ logged W' = logged Sample.W0 ++ [Paths.reload_log err]
      /\ writer 1%positive W'
         = match err with
           | Some e =>
               {| Status := Some StatusInternalServerError;
                  Body := "failed to reload config: " +:+ e +:+ newline |}
           | None => newResponseWriter
           end
      /\ sc_C W'
         = sc_C (snd (ReloadConfig (configFile defaultFlags) Sample.W0))).
Proof.
  split; [vm_compute; reflexivity|].
  apply (reload_handshake Sample.onlyLocalhost defaultFlags 1%positive
           Sample.req_reload Sample.W0); vm_compute; reflexivity.
Defined.

Lemma signal_reload_matches_endpoint_witness :
  let err := fst (ReloadConfig (configFile defaultFlags) Sample.W0) in
  let Ws := snd (run defaultFlags (reloadLoopBody defaultFlags Hup)
                   Sample.W0) in
  let We := snd (run defaultFlags
                   (reloadHandler Sample.onlyLocalhost 1%positive
                      Sample.req_reload) Sample.W0) in
  sc_C Ws = sc_C We
  /\ logged Ws = logged We
  /\ trace Ws = trace Sample.W0
                ++ [ReloadConfigOp (configFile defaultFlags);
                    Log (fst (Paths.reload_log err))
                        (snd (Paths.reload_log err))]
  /\ chans Ws = chans Sample.W0 /\ writers Ws = writers Sample.W0.
Proof.
  apply (signal_reload_matches_endpoint Sample.onlyLocalhost defaultFlags
           1%positive Sample.req_reload Sample.W0); vm_compute; reflexivity.
Defined.

Lemma configuration_changes_only_by_reload_witness :
  ops_in not_reloading
    (endpointHandler defaultFlags Sample.onlyLocalhost EpReload 1%positive
       Cases.req_reload_get)
  /\ sc_C (snd (run defaultFlags
                  (endpointHandler defaultFlags Sample.onlyLocalhost EpReload
                     1%positive Cases.req_reload_get) Sample.W0))
     = sc_C Sample.W0.
Proof.
  apply (configuration_changes_only_by_reload defaultFlags
           Sample.onlyLocalhost EpReload 1%positive Cases.req_reload_get
           Sample.W0).
  right; left; discriminate.
Defined.

Lemma config_inspection_witness :
  let W' := snd (run defaultFlags
                   (configHandler Sample.onlyLocalhost 1%positive
                      Cases.req_config) Sample.W0) in
  match MarshalYAML (sc_C Sample.W0) with
  | inl text =>
      writer 1%positive W' = {| Status := Some 200; Body := text |}
      /\ logged W' = logged Sample.W0
      /\ trace W' = trace Sample.W0 ++ [MarshalConfig; WriteBody 1%positive text]
  | inr err =>
      writer 1%positive W' = {| Status := Some 500; Body := err +:+ newline |}
      /\ logged W'
         = logged Sample.W0
           ++ [(LWarn, "Error marshalling configuration: " +:+ err)]
      /\ trace W'
         = trace Sample.W0 ++
           [MarshalConfig;
            Log LWarn ("Error marshalling configuration: " +:+ err);
            HttpError 1%positive err 500]
  end
  /\ sc_C W' = sc_C Sample.W0.
Proof.
  apply (config_inspection defaultFlags Sample.onlyLocalhost 1%positive
           Cases.req_config Sample.W0); vm_compute; reflexivity.
Defined.

Lemma bare_ipv4_entry_is_exact_witness :
  exists a b c d,
    ParseIP "127.0.0.1" = Some (IPv4 a b c d)
    /\ normalizeEntry "127.0.0.1" = "127.0.0.1" +:+ "/32"
    /\ ParseCIDR (normalizeEntry "127.0.0.1")
       = Some (IPv4 a b c d,
               {| IPNet_IP := [a; b; c; d];
                  IPNet_Mask := [255; 255; 255; 255] |})
    /\ forall x, Forall Entries.is_byte x ->
         (Contains {| IPNet_IP := [a; b; c; d];
                      IPNet_Mask := [255; 255; 255; 255] |} x = true
          <-> To4 x = Some [a; b; c; d]).
Proof.
  apply (bare_ipv4_entry_is_exact "127.0.0.1" (IPv4 127 0 0 1)).
  vm_compute; reflexivity.
Defined.

Lemma bare_ipv6_entry_is_exact_witness :
  normalizeEntry "::1" = "::1" +:+ "/128"
  /\ ParseCIDR (normalizeEntry "::1")
     = Some (Cases.loopback6,
             {| IPNet_IP := Cases.loopback6; IPNet_Mask := replicate 16 255 |})
  /\ forall x, Forall Entries.is_byte x ->
       (Contains {| IPNet_IP := Cases.loopback6;
                    IPNet_Mask := replicate 16 255 |} x = true
        <-> x = Cases.loopback6).
Proof.
  apply (bare_ipv6_entry_is_exact "::1" Cases.loopback6);
    vm_compute; reflexivity.
Defined.

Lemma empty_entry_is_fatal_witness :
  exists msg, buildWhitelist Cases.trailingCommaFlags = inr msg.
Proof.
  apply (empty_entry_is_fatal Cases.trailingCommaFlags "127.0.0.1" "").
  right; left; reflexivity.
Defined.

End Evaluation.
